(** * Conversation synchronisation core: services over the relational store

    A shallow embedding of [client/src/lib/services/conversations.ts]
    (class [ConversationService]), of the search service and the realtime
    service (classes [SearchService] and [RealtimeService]) and of the local
    state of the [MessageReactions] component, together with a model of the
    relational store they talk to.

    - The tables, their columns and their key, uniqueness and foreign-key
      constraints are those of the SQL migrations. Row-level policies depend
      on the signed-in identity, which no service method carries, and are
      not part of the model.
    - Every store call is awaited and resolves to [{ data, error }]; it does
      not throw. The one [catch] block that is reached is that of
      [updateReactionCounts], by an exception of its own loop; the others
      are left out.
    - A request can be lost on the way to the store. A lost request fails
      with a transport error and has no effect on the store.
    - Rows travel as JSON objects keyed by column name, request bodies as
      the object literals the methods build. Where a method reads a property
      of a message row, the read is by the name the method uses; the columns
      that a select lists by name come back as typed projections.
    - The [counts] record of the reaction aggregate, as it is stored, is a
      finite map over its own keys, the emoji strings. The loop that builds
      it indexes a plain object literal: a key that is none of the object's
      own keys and names a property that every object inherits reads as
      that property, not as [undefined].
    - How the store matches text ([ilike], the filter expression of [.or])
      and what [String.prototype.trim] removes is left open: the methods
      that search take these as parameters. A select with
      [.order] sorts the rows by the timestamp; no statement depends on the
      order of rows with equal timestamps. The store does not say in which
      order a select that joins two tables returns its rows when it has no
      [.order]: the model returns them in the order of the table that is
      selected from, and no statement depends on that order. A select of a
      single table without [.order] returns the rows in table order.
      A [limit] is a natural number. *)

From stdpp Require Import gmap strings list pretty sorting.
From Stdlib Require Import ZArith Lia.

Local Open Scope Z_scope.

(** ** JavaScript values and plain objects *)

Inductive JsVal :=
| VUndef
| VNull
| VNum (n : Z)
| VStr (s : string)
| VBool (b : bool).

#[global] Instance JsVal_eq_dec : EqDecision JsVal.
Proof. solve_decision. Defined.

(** An object literal: its own properties, in insertion order. *)
Definition Obj : Type := list (string * JsVal).

(** [o.k]: a property that is absent reads as [undefined]. *)
Fixpoint prop (o : Obj) (k : string) : JsVal :=
  match o with
  | [] => VUndef
  | (k', v) :: o' => if String.eqb k' k then v else prop o' k
  end.

(** [x || null] on an optional string argument. *)
Definition or_null (x : option string) : JsVal :=
  match x with
  | Some s => if String.eqb s EmptyString then VNull else VStr s
  | None => VNull
  end.

(** ** The relational store *)

Module Store.

(** Rows carry the columns of the migrations, under their column names. *)

Record UserRow := {
  u_id : Z;
  u_username : string;
  u_email : string;
  u_display_name : option string;
  u_avatar_url : option string;
  u_is_online : bool;
  u_show_online_status : bool }.

Record ConversationRow := {
  conv_id : Z;
  conv_created_at : Z;
  conv_updated_at : Z }.

Record ParticipantRow := {
  cp_id : Z;
  cp_conversation_id : Z;
  cp_user_id : Z;
  cp_joined_at : Z }.

Record MessageRow := {
  msg_id : Z;
  msg_conversation_id : Z;
  msg_sender_id : Z;
  msg_content : string;
  msg_media_url : option string;
  msg_media_type : option string;
  msg_transcription : option string;
  msg_is_transcribed : bool;
  msg_is_liked : bool;
  msg_is_saved : bool;
  msg_timestamp : Z }.

Record ReactionRow := {
  r_id : Z;
  r_message_id : Z;
  r_user_id : Z;
  r_emoji : string;
  r_created_at : Z }.

(** One entry of the aggregate: [{ count: number; userIds: number[] }]. *)
Record ReactionCount := {
  count : Z;
  userIds : list Z }.

Record ReactionCountsRow := {
  rc_message_id : Z;
  rc_counts : gmap string ReactionCount;
  rc_updated_at : Z }.

#[global] Instance ConversationRow_eq_dec : EqDecision ConversationRow.
Proof. solve_decision. Defined.
#[global] Instance ParticipantRow_eq_dec : EqDecision ParticipantRow.
Proof. solve_decision. Defined.
#[global] Instance MessageRow_eq_dec : EqDecision MessageRow.
Proof. solve_decision. Defined.
#[global] Instance ReactionRow_eq_dec : EqDecision ReactionRow.
Proof. solve_decision. Defined.
#[global] Instance ReactionCount_eq_dec : EqDecision ReactionCount.
Proof. solve_decision. Defined.

Record Store := {
  users : list UserRow;
  conversations : list ConversationRow;
  conversation_participants : list ParticipantRow;
  messages : list MessageRow;
  message_reactions : list ReactionRow;
  message_reaction_counts : list ReactionCountsRow;
  next_conversation_id : Z;
  next_participant_id : Z;
  next_message_id : Z;
  next_reaction_id : Z }.

Definition set_conversations (rows : list ConversationRow) (next : Z) (st : Store) : Store :=
  {| users := users st; conversations := rows;
     conversation_participants := conversation_participants st;
     messages := messages st; message_reactions := message_reactions st;
     message_reaction_counts := message_reaction_counts st;
     next_conversation_id := next;
     next_participant_id := next_participant_id st;
     next_message_id := next_message_id st;
     next_reaction_id := next_reaction_id st |}.

Definition set_participants (rows : list ParticipantRow) (next : Z) (st : Store) : Store :=
  {| users := users st; conversations := conversations st;
     conversation_participants := rows;
     messages := messages st; message_reactions := message_reactions st;
     message_reaction_counts := message_reaction_counts st;
     next_conversation_id := next_conversation_id st;
     next_participant_id := next;
     next_message_id := next_message_id st;
     next_reaction_id := next_reaction_id st |}.

Definition set_messages (rows : list MessageRow) (next : Z) (st : Store) : Store :=
  {| users := users st; conversations := conversations st;
     conversation_participants := conversation_participants st;
     messages := rows; message_reactions := message_reactions st;
     message_reaction_counts := message_reaction_counts st;
     next_conversation_id := next_conversation_id st;
     next_participant_id := next_participant_id st;
     next_message_id := next;
     next_reaction_id := next_reaction_id st |}.

Definition set_reactions (rows : list ReactionRow) (next : Z) (st : Store) : Store :=
  {| users := users st; conversations := conversations st;
     conversation_participants := conversation_participants st;
     messages := messages st; message_reactions := rows;
     message_reaction_counts := message_reaction_counts st;
     next_conversation_id := next_conversation_id st;
     next_participant_id := next_participant_id st;
     next_message_id := next_message_id st;
     next_reaction_id := next |}.

Definition set_reaction_counts (rows : list ReactionCountsRow) (st : Store) : Store :=
  {| users := users st; conversations := conversations st;
     conversation_participants := conversation_participants st;
     messages := messages st; message_reactions := message_reactions st;
     message_reaction_counts := rows;
     next_conversation_id := next_conversation_id st;
     next_participant_id := next_participant_id st;
     next_message_id := next_message_id st;
     next_reaction_id := next_reaction_id st |}.

(** *** Responses: the [{ data, error }] pair of every store call *)

Record Resp (A : Type) := {
  data : option A;
  error : option string }.
Arguments data {A} _.
Arguments error {A} _.

Definition ok {A} (a : A) : Resp A := {| data := Some a; error := None |}.
Definition failed {A} (msg : string) : Resp A := {| data := None; error := Some msg |}.

Definition transport_error : string := "TypeError: Failed to fetch".
Definition no_single_row : string := "JSON object requested, multiple (or no) rows returned".
Definition unknown_column : string := "Could not find the column in the schema cache".
Definition invalid_integer : string := "invalid input syntax for type integer".
Definition not_null_violation : string := "null value violates not-null constraint".
Definition unique_violation : string := "duplicate key value violates unique constraint".
Definition foreign_key_violation : string := "insert or update violates foreign key constraint".

(** [.single()]: exactly one row, anything else is an error without data. *)
Definition single {A} (rows : list A) : Resp A :=
  match rows with
  | [r] => ok r
  | _ => failed no_single_row
  end.

(** A request body may only name columns of the table. *)
Definition known_columns (cols : list string) (o : Obj) : bool :=
  forallb (fun kv => existsb (String.eqb (fst kv)) cols) o.

Definition text_col (v : JsVal) : option string :=
  match v with VStr s => Some s | _ => None end.

Definition bool_col (v : JsVal) : bool :=
  match v with VBool b => b | _ => false end.

(** *** users, joined through conversation_participants *)

(** The participant rows of a conversation, inner-joined with users. The
    select has no [.order]: that the users come in the order of the
    participant rows is the choice of this model, not a fact about the
    store. *)
Definition joined_users (c : Z) (st : Store) : list UserRow :=
  flat_map (fun p => filter (fun u => u_id u = cp_user_id p) (users st))
           (filter (fun p => cp_conversation_id p = c) (conversation_participants st)).

(** [from('conversation_participants').select('users!inner(...)')
    .eq('conversation_id', v)]. The filter value is sent as text and
    compared with an integer column: anything but a number is refused. *)
Definition select_participant_users (v : JsVal) (st : Store) : Resp (list UserRow) :=
  match v with
  | VNum c => ok (joined_users c st)
  | _ => failed invalid_integer
  end.

(** *** conversations *)

(** [from('conversations').insert([{}]).select().single()] *)
Definition insert_conversation (now : Z) (st : Store) : Resp ConversationRow * Store :=
  let row := {| conv_id := next_conversation_id st;
                conv_created_at := now; conv_updated_at := now |} in
  (ok row, set_conversations (conversations st ++ [row]) (next_conversation_id st + 1) st).

(** [from('conversations').delete().eq('id', id)], with the cascades that
    the referencing tables declare. *)
Definition delete_conversation (id : Z) (st : Store) : Resp unit * Store :=
  let msgs := filter (fun m => msg_conversation_id m ≠ id) (messages st) in
  let st1 := set_conversations
               (filter (fun c => conv_id c ≠ id) (conversations st))
               (next_conversation_id st) st in
  let st2 := set_participants
               (filter (fun p => cp_conversation_id p ≠ id) (conversation_participants st))
               (next_participant_id st) st1 in
  let st3 := set_messages msgs (next_message_id st) st2 in
  let st4 := set_reactions
               (filter (fun r => r_message_id r ∈ map msg_id msgs) (message_reactions st))
               (next_reaction_id st) st3 in
  (ok tt, st4).

(** *** conversation_participants *)

Definition participant_columns : list string :=
  ["id"; "conversation_id"; "user_id"; "joined_at"].

Definition parse_participant (o : Obj) : option (Z * Z) :=
  if known_columns participant_columns o then
    match prop o "conversation_id", prop o "user_id" with
    | VNum c, VNum u => Some (c, u)
    | _, _ => None
    end
  else None.

Fixpoint parse_participants (os : list Obj) : option (list (Z * Z)) :=
  match os with
  | [] => Some []
  | o :: os' =>
      match parse_participant o, parse_participants os' with
      | Some p, Some ps => Some (p :: ps)
      | _, _ => None
      end
  end.

Fixpoint number_participants (next now : Z) (ps : list (Z * Z)) : list ParticipantRow :=
  match ps with
  | [] => []
  | (c, u) :: ps' =>
      {| cp_id := next; cp_conversation_id := c; cp_user_id := u; cp_joined_at := now |}
      :: number_participants (next + 1) now ps'
  end.

Definition participant_key (p : ParticipantRow) : Z * Z :=
  (cp_conversation_id p, cp_user_id p).

(** [from('conversation_participants').insert(rows)]: one statement, so
    either every row is stored or none is. *)
Definition insert_participants (payloads : list Obj) (now : Z) (st : Store)
  : Resp unit * Store :=
  match parse_participants payloads with
  | None => (failed unknown_column, st)
  | Some ps =>
      if negb (forallb (fun p => bool_decide (fst p ∈ map conv_id (conversations st))
                                 && bool_decide (snd p ∈ map u_id (users st))) ps)
      then (failed foreign_key_violation, st)
      else if negb (bool_decide
                      (NoDup (map participant_key (conversation_participants st) ++ ps)))
      then (failed unique_violation, st)
      else (ok tt,
            set_participants
              (conversation_participants st
                 ++ number_participants (next_participant_id st) now ps)
              (next_participant_id st + Z.of_nat (length ps)) st)
  end.

(** *** messages *)

Definition message_columns : list string :=
  ["id"; "conversation_id"; "sender_id"; "content"; "media_url"; "media_type";
   "transcription"; "is_transcribed"; "is_liked"; "is_saved"; "timestamp"].

(** [from('messages').select(...).eq('id', id).single()] *)
Definition select_message (id : Z) (st : Store) : Resp MessageRow :=
  single (filter (fun m => msg_id m = id) (messages st)).

(** What [select('*')] hands to the client: the row keyed by column name. *)
Definition message_json (m : MessageRow) : Obj :=
  [("id", VNum (msg_id m));
   ("conversation_id", VNum (msg_conversation_id m));
   ("sender_id", VNum (msg_sender_id m));
   ("content", VStr (msg_content m));
   ("media_url", from_option VStr VNull (msg_media_url m));
   ("media_type", from_option VStr VNull (msg_media_type m));
   ("transcription", from_option VStr VNull (msg_transcription m));
   ("is_transcribed", VBool (msg_is_transcribed m));
   ("is_liked", VBool (msg_is_liked m));
   ("is_saved", VBool (msg_is_saved m));
   ("timestamp", VNum (msg_timestamp m))].

(** [from('messages').insert([payload]).select().single()]; [id] and
    [timestamp] take their defaults. *)
Definition insert_message (payload : Obj) (now : Z) (st : Store) : Resp MessageRow * Store :=
  if negb (known_columns message_columns payload) then (failed unknown_column, st)
  else
    match prop payload "conversation_id", prop payload "sender_id", prop payload "content" with
    | VNum c, VNum s, VStr t =>
        if bool_decide (c ∈ map conv_id (conversations st))
           && bool_decide (s ∈ map u_id (users st))
        then
          let row := {| msg_id := next_message_id st;
                        msg_conversation_id := c;
                        msg_sender_id := s;
                        msg_content := t;
                        msg_media_url := text_col (prop payload "media_url");
                        msg_media_type := text_col (prop payload "media_type");
                        msg_transcription := text_col (prop payload "transcription");
                        msg_is_transcribed := bool_col (prop payload "is_transcribed");
                        msg_is_liked := bool_col (prop payload "is_liked");
                        msg_is_saved := bool_col (prop payload "is_saved");
                        msg_timestamp := now |} in
          (ok row, set_messages (messages st ++ [row]) (next_message_id st + 1) st)
        else (failed foreign_key_violation, st)
    | _, _, _ => (failed not_null_violation, st)
    end.

(** The columns a patch may set: the flags and the transcription. *)
Definition set_message_column (m : MessageRow) (kv : string * JsVal) : MessageRow :=
  let '(k, v) := kv in
  {| msg_id := msg_id m;
     msg_conversation_id := msg_conversation_id m;
     msg_sender_id := msg_sender_id m;
     msg_content := msg_content m;
     msg_media_url := msg_media_url m;
     msg_media_type := msg_media_type m;
     msg_transcription :=
       if String.eqb k "transcription" then text_col v else msg_transcription m;
     msg_is_transcribed :=
       if String.eqb k "is_transcribed" then bool_col v else msg_is_transcribed m;
     msg_is_liked := if String.eqb k "is_liked" then bool_col v else msg_is_liked m;
     msg_is_saved := if String.eqb k "is_saved" then bool_col v else msg_is_saved m;
     msg_timestamp := msg_timestamp m |}.

Definition patch_columns : list string :=
  ["transcription"; "is_transcribed"; "is_liked"; "is_saved"].

(** [from('messages').update(payload).eq('id', id).select().single()] *)
Definition update_message (payload : Obj) (id : Z) (st : Store) : Resp MessageRow * Store :=
  if negb (known_columns patch_columns payload) then (failed unknown_column, st)
  else
    let patch := fun m => if bool_decide (msg_id m = id)
                          then fold_left set_message_column payload m else m in
    let rows := map patch (messages st) in
    (single (filter (fun m => msg_id m = id) rows),
     set_messages rows (next_message_id st) st).

(** *** message_reactions *)

Definition reaction_columns : list string :=
  ["id"; "message_id"; "user_id"; "emoji"; "created_at"].

Definition reaction_matches (m u : Z) (e : string) (r : ReactionRow) : Prop :=
  r_message_id r = m ∧ r_user_id r = u ∧ r_emoji r = e.

#[global] Instance reaction_matches_dec m u e r : Decision (reaction_matches m u e r).
Proof. unfold reaction_matches. apply _. Defined.

(** [from('message_reactions').select('id').eq('message_id', m)
    .eq('user_id', u).eq('emoji', e).single()] *)
Definition select_reaction (m u : Z) (e : string) (st : Store) : Resp Z :=
  single (map r_id (filter (reaction_matches m u e) (message_reactions st))).

(** [from('message_reactions').insert([payload])], under the foreign keys
    and the UNIQUE(message_id, user_id, emoji) constraint. *)
Definition insert_reaction (payload : Obj) (now : Z) (st : Store) : Resp unit * Store :=
  if negb (known_columns reaction_columns payload) then (failed unknown_column, st)
  else
    match prop payload "message_id", prop payload "user_id", prop payload "emoji" with
    | VNum m, VNum u, VStr e =>
        if negb (bool_decide (m ∈ map msg_id (messages st))
                 && bool_decide (u ∈ map u_id (users st)))
        then (failed foreign_key_violation, st)
        else if bool_decide (Exists (reaction_matches m u e) (message_reactions st))
        then (failed unique_violation, st)
        else
          let row := {| r_id := next_reaction_id st; r_message_id := m;
                        r_user_id := u; r_emoji := e; r_created_at := now |} in
          (ok tt, set_reactions (message_reactions st ++ [row]) (next_reaction_id st + 1) st)
    | _, _, _ => (failed not_null_violation, st)
    end.

(** [from('message_reactions').delete().eq('message_id', m).eq('user_id', u)
    .eq('emoji', e)]: deleting nothing is not an error. *)
Definition delete_reaction (m u : Z) (e : string) (st : Store) : Resp unit * Store :=
  (ok tt,
   set_reactions
     (filter (fun r => ¬ reaction_matches m u e r) (message_reactions st))
     (next_reaction_id st) st).

(** [from('message_reactions').select('emoji, user_id').eq('message_id', m)] *)
Definition select_reactions (m : Z) (st : Store) : Resp (list (string * Z)) :=
  ok (map (fun r => (r_emoji r, r_user_id r))
          (filter (fun r => r_message_id r = m) (message_reactions st))).

(** *** message_reaction_counts *)

(** [from('message_reaction_counts').upsert([{ message_id, counts,
    updated_at }], { onConflict: 'message_id' })]: the row of the message is
    replaced as a whole. *)
Definition upsert_reaction_counts (m : Z) (counts : gmap string ReactionCount)
    (updated_at : Z) (st : Store) : Resp unit * Store :=
  (ok tt,
   set_reaction_counts
     (filter (fun r => rc_message_id r ≠ m) (message_reaction_counts st)
        ++ [{| rc_message_id := m; rc_counts := counts; rc_updated_at := updated_at |}])
     st).

(** The aggregate of a message, as a reader of the table finds it. *)
Definition reaction_counts_of (m : Z) (st : Store) : option (gmap string ReactionCount) :=
  rc_counts <$> head (filter (fun r => rc_message_id r = m) (message_reaction_counts st)).

End Store.

(** ** The client's view: requests that may not get through *)

Module Client.
Import Store.

Inductive Verb := Select | Insert | Update | Delete | Upsert.

Record Request := {
  verb : Verb;
  table : string }.

(** The world a service call runs in: the store, whether each of the coming
    requests is lost on the way ([true]: it fails with a transport error and
    the store never sees it), the requests sent so far and the clock. *)
Record World := {
  db : Store;
  faults : list bool;
  trace : list Request;
  now : Z }.

Definition M (A : Type) : Type := World → A * World.

Definition ret {A} (a : A) : M A := fun w => (a, w).

Definition bind {A B} (c : M A) (k : A → M B) : M B :=
  fun w => let '(a, w') := c w in k a w'.

Notation "'let*' x ':=' c 'in' k" := (bind c (fun x => k))
  (at level 10, x pattern, c at level 100, k at level 200).

Definition clock : M Z := fun w => (now w, w).

Definition sent (r : Request) (st : Store) (w : World) : World :=
  {| db := st; faults := tail (faults w); trace := trace w ++ [r]; now := now w |}.

(** One awaited store call. *)
Definition mutate {A} (r : Request) (serve : Z → Store → Resp A * Store) : M (Resp A) :=
  fun w =>
    match faults w with
    | true :: _ => (failed transport_error, sent r (db w) w)
    | _ => let '(resp, st) := serve (now w) (db w) in (resp, sent r st w)
    end.

Definition query {A} (r : Request) (read : Store → Resp A) : M (Resp A) :=
  mutate r (fun _ st => (read st, st)).

(** Is the [n]-th of the coming requests lost on the way? *)
Definition lost (n : nat) (w : World) : bool := nth n (faults w) false.

(** The outcome of a service call: [{ ...payload }] or [{ error }]. *)
Inductive Result (A : Type) :=
| Ok (a : A)
| Err (e : string).
Arguments Ok {A} _.
Arguments Err {A} _.

(** Truthiness of an optional error message. *)
Definition truthy (e : option string) : bool :=
  match e with
  | Some s => negb (String.eqb s EmptyString)
  | None => false
  end.

End Client.

(** ** ConversationService *)

Module ConversationService.
Import Store Client.

(** [Omit<User, 'password'>] *)
Record User := {
  id : Z;
  username : string;
  email : string;
  displayName : option string;
  avatarUrl : option string;
  isOnline : bool;
  showOnlineStatus : bool }.

Definition convertDbUserToUser (dbUser : UserRow) : User :=
  {| id := u_id dbUser;
     username := u_username dbUser;
     email := u_email dbUser;
     displayName := u_display_name dbUser;
     avatarUrl := u_avatar_url dbUser;
     isOnline := u_is_online dbUser;
     showOnlineStatus := u_show_online_status dbUser |}.

(** [participants.some(p => p.id === userId)] *)
Definition some_is (userId : Z) (participants : list User) : bool :=
  existsb (fun p => id p =? userId) participants.

(** Get conversation participants; the caller must be one of them. The
    conversation id is whatever value the caller read it from. *)
Definition getConversationParticipants (conversationId : JsVal) (userId : Z)
  : M (list User * option string) :=
  let* r := query {| verb := Select; table := "conversation_participants" |}
                  (select_participant_users conversationId) in
  match error r with
  | Some msg => ret ([], Some msg)
  | None =>
      let participants := map convertDbUserToUser (default [] (data r)) in
      if negb (some_is userId participants)
      then ret ([], Some "Not authorized to view participants in this conversation")
      else ret (participants, None)
  end.

(** The rows to insert, one per participant id. *)
Definition participantInserts (conversation : ConversationRow) (participantIds : list Z)
  : list Obj :=
  map (fun userId => [("conversation_id", VNum (conv_id conversation));
                      ("user_id", VNum userId)]) participantIds.

(** Create a new conversation. *)
Definition createConversation (participantIds : list Z) : M (Result ConversationRow) :=
  let* r := mutate {| verb := Insert; table := "conversations" |} insert_conversation in
  match error r, data r with
  | None, Some conversation =>
      let* p := mutate {| verb := Insert; table := "conversation_participants" |}
                       (insert_participants (participantInserts conversation participantIds)) in
      match error p with
      | Some _ =>
          let* _ := mutate {| verb := Delete; table := "conversations" |}
                           (fun _ => delete_conversation (conv_id conversation)) in
          ret (Err "Failed to add participants to conversation")
      | None => ret (Ok conversation)
      end
  | _, _ => ret (Err "Failed to create conversation")
  end.

(** Send a new message. *)
Definition sendMessage (conversationId senderId : Z) (content : string)
    (mediaUrl mediaType : option string) : M (Result (option MessageRow)) :=
  let* (participants, participantError) :=
    getConversationParticipants (VNum conversationId) senderId in
  if truthy participantError then ret (Err (default EmptyString participantError))
  else if negb (some_is senderId participants)
  then ret (Err "Not authorized to send messages in this conversation")
  else
    let messageData :=
      [("conversationId", VNum conversationId);
       ("senderId", VNum senderId);
       ("content", VStr content);
       ("mediaUrl", or_null mediaUrl);
       ("mediaType", or_null mediaType)] in
    let* r := mutate {| verb := Insert; table := "messages" |}
                     (insert_message messageData) in
    match error r with
    | Some msg => ret (Err msg)
    | None => ret (Ok (data r))
    end.

(** Update a message (like/save). *)
Definition updateMessage (messageId userId : Z) (updates : Obj)
  : M (Result (option MessageRow)) :=
  let* r := query {| verb := Select; table := "messages" |} (select_message messageId) in
  match error r, data r with
  | None, Some message =>
      let* (participants, participantError) :=
        getConversationParticipants (prop (message_json message) "conversationId") userId in
      if truthy participantError then ret (Err (default EmptyString participantError))
      else if negb (some_is userId participants)
      then ret (Err "Not authorized to update this message")
      else
        let* u := mutate {| verb := Update; table := "messages" |}
                         (fun _ => update_message updates messageId) in
        match error u with
        | Some msg => ret (Err msg)
        | None => ret (Ok (data u))
        end
  | _, _ => ret (Err "Message not found")
  end.

(** [counts] is a plain object: besides the properties the loop gives it,
    it has the ones every object inherits from [Object.prototype]. *)
Definition inherited_properties : list string :=
  ["constructor"; "__proto__"; "hasOwnProperty"; "isPrototypeOf";
   "propertyIsEnumerable"; "toLocaleString"; "toString"; "valueOf";
   "__defineGetter__"; "__defineSetter__"; "__lookupGetter__"; "__lookupSetter__"].

(** One step of the [forEach] that builds [counts]. For an emoji that
    [counts] has as its own property the entry is counted up and given the
    user. For any other emoji [counts[emoji]] is what the object inherits
    under that name: nothing for most strings, and then the entry is
    created with count 0 and no users first; a function or object for the
    names above, which is truthy and has no [userIds], so that
    [.userIds.push] throws a TypeError ([None]). *)
Definition count_reaction (counts : gmap string ReactionCount) (reaction : string * Z)
  : option (gmap string ReactionCount) :=
  let '(emoji, user_id) := reaction in
  match counts !! emoji with
  | Some entry =>
      Some (<[emoji := {| count := count entry + 1;
                          userIds := userIds entry ++ [user_id] |}]> counts)
  | None =>
      if bool_decide (emoji ∈ inherited_properties) then None
      else Some (<[emoji := {| count := 0 + 1; userIds := [] ++ [user_id] |}]> counts)
  end.

(** The loop: an exception ends it. *)
Definition build_counts (reactions : list (string * Z))
  : option (gmap string ReactionCount) :=
  fold_left (fun counts reaction =>
               match counts with
               | Some c => count_reaction c reaction
               | None => None
               end)
            reactions (Some ∅).

(** Update reaction counts for a message (internal helper). Failures are
    logged and nothing is reported to the caller; an exception thrown while
    [counts] is built is caught, so that no upsert is sent. *)
Definition updateReactionCounts (messageId : Z) : M unit :=
  let* r := query {| verb := Select; table := "message_reactions" |}
                  (select_reactions messageId) in
  match error r with
  | Some _ => ret tt
  | None =>
      match build_counts (default [] (data r)) with
      | None => ret tt
      | Some counts =>
          let* updated_at := clock in
          let* _ := mutate {| verb := Upsert; table := "message_reaction_counts" |}
                           (fun _ => upsert_reaction_counts messageId counts updated_at) in
          ret tt
      end
  end.

(** Add reaction to a message. *)
Definition addReaction (messageId userId : Z) (emoji : string) : M (Result unit) :=
  let* r := query {| verb := Select; table := "messages" |} (select_message messageId) in
  match error r, data r with
  | None, Some message =>
      let* (participants, participantError) :=
        getConversationParticipants (prop (message_json message) "conversation_id") userId in
      if truthy participantError then ret (Err (default EmptyString participantError))
      else if negb (some_is userId participants)
      then ret (Err "Not authorized to react to this message")
      else
        let* existing := query {| verb := Select; table := "message_reactions" |}
                               (select_reaction messageId userId emoji) in
        match data existing with
        | Some _ => ret (Err "Reaction already exists")
        | None =>
            let reactionData :=
              [("messageId", VNum messageId);
               ("userId", VNum userId);
               ("emoji", VStr emoji)] in
            let* ins := mutate {| verb := Insert; table := "message_reactions" |}
                               (insert_reaction reactionData) in
            match error ins with
            | Some msg => ret (Err msg)
            | None =>
                let* _ := updateReactionCounts messageId in
                ret (Ok tt)
            end
        end
  | _, _ => ret (Err "Message not found")
  end.

(** Remove reaction from a message. *)
Definition removeReaction (messageId userId : Z) (emoji : string) : M (Result unit) :=
  let* r := query {| verb := Select; table := "messages" |} (select_message messageId) in
  match error r, data r with
  | None, Some message =>
      let* (participants, participantError) :=
        getConversationParticipants (prop (message_json message) "conversation_id") userId in
      if truthy participantError then ret (Err (default EmptyString participantError))
      else if negb (some_is userId participants)
      then ret (Err "Not authorized to remove reaction from this message")
      else
        let* del := mutate {| verb := Delete; table := "message_reactions" |}
                           (fun _ => delete_reaction messageId userId emoji) in
        match error del with
        | Some msg => ret (Err msg)
        | None =>
            let* _ := updateReactionCounts messageId in
            ret (Ok tt)
        end
  | _, _ => ret (Err "Message not found")
  end.

End ConversationService.


(** ** RealtimeService *)

Module RealtimeService.

(** A callback handed in by the caller, known by its identity. *)
Definition Callback : Type := nat.

(** What the handlers registered with [.on(...)] on a channel do, with the
    values their closures captured. *)
Inductive Handler :=
| OnMessages (conversationId : Z) (onMessage : Callback)
| OnUserStatus (userIds : list Z) (onUserUpdate : Callback)
| OnNotifications (userId : Z) (onNotification : Callback)
| OnMessageReactions (messageIds : list Z) (onReactionUpdate : Callback)
| OnParticipants (conversationId : Z) (onParticipantChange : Callback)
| OnTyping (conversationId : Z) (onTypingChange : Callback).

(** The record a client publishes with [channel.track]. *)
Record Presence := {
  p_userId : Z;
  p_username : string;
  p_typing : bool;
  p_lastTyped : Z }.

(** A channel object of the realtime client. [joined] records that
    [channel.subscribe(...)] has been called on it, that is, that the join
    has been asked for; when the server answers, and with what status, is
    not part of this model. *)
Record RealtimeChannel := {
  topic : string;
  presence_key : option string;
  handler : Handler;
  joined : bool }.

(** The realtime side of the [supabase] client: the channel objects it
    holds, by identity, and the presence records published so far, each with
    the channel it was tracked on. Each of its operations has taken effect
    when it returns. *)
Record Supabase := {
  live : gmap nat RealtimeChannel;
  next_ref : nat;
  published : list (nat * Presence) }.

(** The service object: [channels] holds references to channel objects. *)
Record Service := {
  channels : gmap string nat;
  userId : option Z }.

Definition State : Type := Service * Supabase.

Definition init : State :=
  ({| channels := ∅; userId := None |},
   {| live := ∅; next_ref := 0%nat; published := [] |}).

(** [!this.userId] *)
Definition no_user (u : option Z) : bool :=
  match u with
  | Some n => n =? 0
  | None => true
  end.

(** [String(this.userId)] *)
Definition user_key (u : option Z) : string :=
  match u with
  | Some n => pretty n
  | None => "null"
  end.

(** [supabase.channel(name, config)] followed by the [.on(...)] calls. *)
Definition channel (name : string) (key : option string) (h : Handler) (sb : Supabase)
  : nat * Supabase :=
  (next_ref sb,
   {| live := <[next_ref sb := {| topic := name; presence_key := key;
                                  handler := h; joined := false |}]> (live sb);
      next_ref := S (next_ref sb);
      published := published sb |}).

(** [channel.subscribe(...)]: the call is recorded on the channel. *)
Definition subscribe (ref : nat) (sb : Supabase) : Supabase :=
  {| live := alter (fun c => {| topic := topic c; presence_key := presence_key c;
                                handler := handler c; joined := true |}) ref (live sb);
     next_ref := next_ref sb;
     published := published sb |}.

(** [supabase.removeChannel(channel)] *)
Definition removeChannel (ref : nat) (sb : Supabase) : Supabase :=
  {| live := delete ref (live sb);
     next_ref := next_ref sb;
     published := published sb |}.

(** [channel.track(payload)] *)
Definition track (ref : nat) (payload : Presence) (sb : Supabase) : Supabase :=
  {| live := live sb;
     next_ref := next_ref sb;
     published := published sb ++ [(ref, payload)] |}.

Definition initialize (u : Z) (s : State) : State :=
  ({| channels := channels (fst s); userId := Some u |}, snd s).

Definition unsubscribe (channelName : string) (s : State) : State :=
  match channels (fst s) !! channelName with
  | Some ref =>
      ({| channels := delete channelName (channels (fst s)); userId := userId (fst s) |},
       removeChannel ref (snd s))
  | None => s
  end.

(** The steps every [subscribeTo...] method goes through: drop the channel
    the table holds under the name, create and join a new one, store it. *)
Definition resubscribe (channelName : string) (key : option string) (h : Handler)
    (s : State) : nat * State :=
  let s1 := unsubscribe channelName s in
  let '(ref, sb) := channel channelName key h (snd s1) in
  let sb' := subscribe ref sb in
  (ref, ({| channels := <[channelName := ref]> (channels (fst s1));
            userId := userId (fst s1) |}, sb')).

Definition subscribeToMessages (conversationId : Z) (onMessage : Callback) (s : State)
  : nat * State :=
  resubscribe ("messages:" +:+ pretty conversationId) None
              (OnMessages conversationId onMessage) s.

Definition subscribeToUserStatus (userIds : list Z) (onUserUpdate : Callback) (s : State)
  : nat * State :=
  resubscribe "user-status" None (OnUserStatus userIds onUserUpdate) s.

Definition subscribeToNotifications (onNotification : Callback) (s : State)
  : option nat * State :=
  match userId (fst s) with
  | Some u =>
      if u =? 0 then (None, s)
      else let '(ref, s') := resubscribe "notifications" None
                                         (OnNotifications u onNotification) s in
           (Some ref, s')
  | None => (None, s)
  end.

Definition subscribeToMessageReactions (messageIds : list Z) (onReactionUpdate : Callback)
    (s : State) : nat * State :=
  resubscribe "message-reactions" None (OnMessageReactions messageIds onReactionUpdate) s.

Definition subscribeToConversationParticipants (conversationId : Z)
    (onParticipantChange : Callback) (s : State) : nat * State :=
  resubscribe ("participants:" +:+ pretty conversationId) None
              (OnParticipants conversationId onParticipantChange) s.

Definition subscribeToTyping (conversationId : Z) (onTypingChange : Callback) (s : State)
  : nat * State :=
  resubscribe ("typing:" +:+ pretty conversationId)
              (Some (user_key (userId (fst s))))
              (OnTyping conversationId onTypingChange) s.

(** [sendTyping]; [lastTyped] is the time of the call. *)
Definition sendTyping (lastTyped : Z) (conversationId : Z) (username : string)
    (isTyping : bool) (s : State) : State :=
  match userId (fst s) with
  | Some u =>
      if u =? 0 then s
      else
        match channels (fst s) !! ("typing:" +:+ pretty conversationId) with
        | Some ref =>
            (fst s,
             track ref {| p_userId := u; p_username := username;
                          p_typing := isTyping; p_lastTyped := lastTyped |} (snd s))
        | None => s
        end
  | None => s
  end.

Definition unsubscribeAll (s : State) : State :=
  ({| channels := ∅; userId := userId (fst s) |},
   map_fold (fun _ ref sb => removeChannel ref sb) (snd s) (channels (fst s))).

(** [Array.from(this.channels.keys())]. A [Map] keeps its keys in the order
    in which they were set. Every method sets a name right after it has
    deleted the entry the name may have had and has created the channel
    object, and references are handed out in increasing order: the order
    of the keys is that of their channel references. *)
Definition older (a b : string * nat) : Prop := (a.2 ≤ b.2)%nat.

#[global] Instance older_dec a b : Decision (older a b).
Proof. unfold older. apply _. Defined.

Definition getActiveChannels (s : State) : list string :=
  (merge_sort older (map_to_list (channels (fst s)))).*1.

Definition cleanup (s : State) : State :=
  let s' := unsubscribeAll s in
  ({| channels := channels (fst s'); userId := None |}, snd s').

(** *** The presence [sync] handler of a typing channel *)

Record TypingUser := {
  tu_userId : Z;
  tu_username : string }.

(** [channel.presenceState()]: the presences under each presence key, in
    the order of [Object.keys]. *)
Definition PresenceState : Type := list (string * list Presence).

(** [presence.userId !== this.userId] *)
Definition differs (n : Z) (u : option Z) : bool :=
  match u with
  | Some m => negb (n =? m)
  | None => true
  end.

(** The body of the [forEach]: what one key adds to [typingUsers]. *)
Definition push_typing (self : option Z) (typingUsers : list TypingUser)
    (entry : string * list Presence) : list TypingUser :=
  match snd entry with
  | presence :: _ =>
      if p_typing presence && differs (p_userId presence) self
      then typingUsers ++ [{| tu_userId := p_userId presence;
                              tu_username := p_username presence |}]
      else typingUsers
  | [] => typingUsers
  end.

Definition typingUsers (self : option Z) (presenceState : PresenceState) : list TypingUser :=
  fold_left (push_typing self) presenceState [].

(** A [sync] event on the channel [ref]: the callback that is invoked and
    the list it is given. [this.userId] is read when the event arrives. *)
Definition on_presence_sync (ref : nat) (presenceState : PresenceState) (s : State)
  : option (Callback * list TypingUser) :=
  match live (snd s) !! ref with
  | Some c =>
      match handler c with
      | OnTyping _ onTypingChange =>
          Some (onTypingChange, typingUsers (userId (fst s)) presenceState)
      | _ => None
      end
  | None => None
  end.

(** *** Calls on the service, one after the other *)

Inductive Call :=
| Initialize (u : Z)
| SubscribeToMessages (conversationId : Z) (cb : Callback)
| SubscribeToUserStatus (userIds : list Z) (cb : Callback)
| SubscribeToNotifications (cb : Callback)
| SubscribeToMessageReactions (messageIds : list Z) (cb : Callback)
| SubscribeToConversationParticipants (conversationId : Z) (cb : Callback)
| SubscribeToTyping (conversationId : Z) (cb : Callback)
| SendTyping (lastTyped : Z) (conversationId : Z) (username : string) (isTyping : bool)
| Unsubscribe (channelName : string)
| UnsubscribeAll
| Cleanup.

Definition call (c : Call) (s : State) : State :=
  match c with
  | Initialize u => initialize u s
  | SubscribeToMessages conversationId cb => snd (subscribeToMessages conversationId cb s)
  | SubscribeToUserStatus userIds cb => snd (subscribeToUserStatus userIds cb s)
  | SubscribeToNotifications cb => snd (subscribeToNotifications cb s)
  | SubscribeToMessageReactions messageIds cb => snd (subscribeToMessageReactions messageIds cb s)
  | SubscribeToConversationParticipants conversationId cb =>
      snd (subscribeToConversationParticipants conversationId cb s)
  | SubscribeToTyping conversationId cb => snd (subscribeToTyping conversationId cb s)
  | SendTyping lastTyped conversationId username isTyping =>
      sendTyping lastTyped conversationId username isTyping s
  | Unsubscribe channelName => unsubscribe channelName s
  | UnsubscribeAll => unsubscribeAll s
  | Cleanup => cleanup s
  end.

Definition run (calls : list Call) (s : State) : State :=
  fold_left (fun s c => call c s) calls s.

(** The states the service goes through, from a fresh service object. *)
Definition reachable (s : State) : Prop := ∃ calls, s = run calls init.

(** The channel name that goes with a handler. *)
Definition topic_of (h : Handler) : string :=
  match h with
  | OnMessages conversationId _ => "messages:" +:+ pretty conversationId
  | OnUserStatus _ _ => "user-status"
  | OnNotifications _ _ => "notifications"
  | OnMessageReactions _ _ => "message-reactions"
  | OnParticipants conversationId _ => "participants:" +:+ pretty conversationId
  | OnTyping conversationId _ => "typing:" +:+ pretty conversationId
  end.


(** The table and the client agree: a name in the table refers to a
    channel of that topic on which [subscribe] has been called, with the
    handler of that name; every channel the
    client holds is the one the table has under its topic; references not
    yet handed out are not in use. *)
Definition consistent (s : State) : Prop :=
  (∀ name ref, channels (fst s) !! name = Some ref →
     ∃ c, live (snd s) !! ref = Some c ∧ topic c = name ∧ joined c = true
          ∧ topic_of (handler c) = name)
  ∧ (∀ ref c, live (snd s) !! ref = Some c → channels (fst s) !! topic c = Some ref)
  ∧ (∀ ref, (next_ref (snd s) ≤ ref)%nat → live (snd s) !! ref = None).

End RealtimeService.

(** ** Vocabulary of the statements *)

Module Notions.
Import Store Client ConversationService.

(** The user has a row in conversation_participants for the conversation. *)
Definition is_participant (c u : Z) (st : Store) : bool :=
  existsb (fun p => (cp_conversation_id p =? c) && (cp_user_id p =? u))
          (conversation_participants st).

(** The conversation of the message with this id, when there is exactly one. *)
Definition conversation_of (m : Z) (st : Store) : option Z :=
  msg_conversation_id <$> data (select_message m st).

Definition has_reaction (m u : Z) (e : string) (st : Store) : bool :=
  bool_decide (Exists (reaction_matches m u e) (message_reactions st)).

Definition reaction_key (r : ReactionRow) : Z * Z * string :=
  (r_message_id r, r_user_id r, r_emoji r).

(** The reaction rows of a message that carry a given emoji. *)
Definition rows_for (m : Z) (e : string) (st : Store) : list ReactionRow :=
  filter (fun r => r_message_id r = m ∧ r_emoji r = e) (message_reactions st).

(** *** Integrity of the store: keys, foreign keys, sequences *)

Definition keys_ok (st : Store) : bool :=
  bool_decide (NoDup (map u_id (users st)))
  && bool_decide (NoDup (map conv_id (conversations st)))
  && bool_decide (NoDup (map msg_id (messages st)))
  && bool_decide (NoDup (map rc_message_id (message_reaction_counts st))).

Definition participants_ok (st : Store) : bool :=
  bool_decide (NoDup (map participant_key (conversation_participants st)))
  && forallb (fun p => bool_decide (cp_conversation_id p ∈ map conv_id (conversations st))
                       && bool_decide (cp_user_id p ∈ map u_id (users st)))
             (conversation_participants st).

Definition messages_ok (st : Store) : bool :=
  forallb (fun m => bool_decide (msg_conversation_id m ∈ map conv_id (conversations st))
                    && bool_decide (msg_sender_id m ∈ map u_id (users st)))
          (messages st).

Definition reactions_ok (st : Store) : bool :=
  bool_decide (NoDup (map reaction_key (message_reactions st)))
  && forallb (fun r => bool_decide (r_message_id r ∈ map msg_id (messages st))
                       && bool_decide (r_user_id r ∈ map u_id (users st)))
             (message_reactions st).

Definition sequences_ok (st : Store) : bool :=
  forallb (fun c => conv_id c <? next_conversation_id st) (conversations st)
  && forallb (fun p => cp_id p <? next_participant_id st) (conversation_participants st)
  && forallb (fun m => msg_id m <? next_message_id st) (messages st)
  && forallb (fun r => r_id r <? next_reaction_id st) (message_reactions st).

Definition store_ok (st : Store) : bool :=
  keys_ok st && participants_ok st && messages_ok st && reactions_ok st && sequences_ok st.

(** The aggregate of the message, as a reader of the table finds it; a
    message without a row has the empty mapping. *)
Definition aggregate m (st : Store) : gmap string ReactionCount :=
  default ∅ (reaction_counts_of m st).

(** The entry that a group of reaction rows with one emoji stands for. *)
Definition entry_of (rows : list ReactionRow) : option ReactionCount :=
  match rows with
  | [] => None
  | _ => Some {| count := Z.of_nat (length rows); userIds := map r_user_id rows |}
  end.

(** The aggregate of the message is up to date: every emoji has the entry
    of the rows of the message that carry it, with their users in row
    order, and an emoji without such rows has no entry. *)
Definition aggregate_current (m : Z) (st : Store) : Prop :=
  ∀ e, aggregate m st !! e = entry_of (rows_for m e st).

(** An entry agrees with a group of rows: it counts them and lists their
    users, in whatever order; no entry agrees with no rows. *)
Definition agrees (o : option ReactionCount) (rows : list ReactionRow) : Prop :=
  match o with
  | Some entry => rows ≠ [] ∧ count entry = Z.of_nat (length rows)
                  ∧ userIds entry ≡ₚ map r_user_id rows
  | None => rows = []
  end.

(** The aggregate of the message is exact: for every emoji its entry agrees
    with the rows of the message that carry the emoji. *)
Definition aggregate_exact (m : Z) (st : Store) : Prop :=
  ∀ e, agrees (aggregate m st !! e) (rows_for m e st).

(** No reaction row of the message has an emoji that names a property that
    objects inherit. *)
Definition recountable (m : Z) (st : Store) : Prop :=
  Forall (fun r => r_emoji r ∉ inherited_properties)
         (filter (fun r => r_message_id r = m) (message_reactions st)).

#[global] Instance recountable_dec m st : Decision (recountable m st).
Proof. unfold recountable. apply _. Defined.

(** The same for every message. *)
Definition plain_emojis (st : Store) : Prop :=
  Forall (fun r => r_emoji r ∉ inherited_properties) (message_reactions st).

(** The step of the loop of [updateReactionCounts] for an emoji that is no
    such name: the entry is created if need be, counted up and given the
    user. *)
Definition counted (counts : gmap string ReactionCount) (reaction : string * Z)
  : gmap string ReactionCount :=
  let '(emoji, user_id) := reaction in
  let entry := default {| count := 0; userIds := [] |} (counts !! emoji) in
  <[emoji := {| count := count entry + 1; userIds := userIds entry ++ [user_id] |}]> counts.

(** What further users of an emoji do to its entry. *)
Definition bump (o : option ReactionCount) (us : list Z) : option ReactionCount :=
  match us with
  | [] => o
  | _ =>
      let entry := default {| count := 0; userIds := [] |} o in
      Some {| count := count entry + Z.of_nat (length us); userIds := userIds entry ++ us |}
  end.

Definition reactions_unique (st : Store) : Prop :=
  NoDup (map reaction_key (message_reactions st)).

(** A computation keeps a property of the store. *)
Definition preserves (P : Store → Prop) {A} (c : M A) : Prop :=
  ∀ w, P (db w) → P (db (snd (c w))).

(** The participant insert of [createConversation ids] fails in this world:
    the request is lost, or the store refuses the rows. *)
Definition participants_refused (ids : list Z) (w : World) : bool :=
  let created := insert_conversation (now w) (db w) in
  lost 1 w
  || match data (fst created) with
     | Some conversation =>
         bool_decide (is_Some (error (fst (insert_participants
                                             (participantInserts conversation ids)
                                             (now w) (snd created)))))
     | None => false
     end.

(** *** The requests the service sends *)

Definition participants_request : Request :=
  {| verb := Select; table := "conversation_participants" |}.

Definition messages_request : Request :=
  {| verb := Select; table := "messages" |}.

Definition reactions_request : Request :=
  {| verb := Select; table := "message_reactions" |}.

(** A computation started with every coming request served ends that way. *)
Definition calm {A} (c : M A) : Prop :=
  ∀ w, faults w = [] → faults (snd (c w)) = [].

(** Every aggregate of the store is up to date. *)
Definition all_current (st : Store) : Prop := ∀ m, aggregate_current m st.

(** *** Reaction calls on one message, one after the other *)

Inductive ReactionCall :=
| Add (u : Z) (e : string)
| Remove (u : Z) (e : string).

Definition reaction_call (m : Z) (c : ReactionCall) : M (Result unit) :=
  match c with
  | Add u e => addReaction m u e
  | Remove u e => removeReaction m u e
  end.

Fixpoint reaction_calls (m : Z) (cs : list ReactionCall) : M unit :=
  match cs with
  | [] => ret tt
  | c :: cs' => let* _ := reaction_call m c in reaction_calls m cs'
  end.

End Notions.

(** ** A small world to run the services in *)

Module Scenario.
Import Store Client ConversationService Notions.

Definition user (n : Z) (name : string) : UserRow :=
  {| u_id := n; u_username := name; u_email := name +:+ "@example.org";
     u_display_name := None; u_avatar_url := None;
     u_is_online := false; u_show_online_status := true |}.

Definition thumbs_up : string := "👍".

(** Conversation 1 has the participants 1 and 2; user 3 is known to the
    store but is not a participant. Message 1 was sent by user 1 and carries
    one reaction, of user 2; its aggregate is up to date. *)
Definition store : Store :=
  {| users := [user 1 "alice"; user 2 "bob"; user 3 "carol"];
     conversations := [{| conv_id := 1; conv_created_at := 0; conv_updated_at := 0 |}];
     conversation_participants :=
       [{| cp_id := 1; cp_conversation_id := 1; cp_user_id := 1; cp_joined_at := 0 |};
        {| cp_id := 2; cp_conversation_id := 1; cp_user_id := 2; cp_joined_at := 0 |}];
     messages :=
       [{| msg_id := 1; msg_conversation_id := 1; msg_sender_id := 1;
           msg_content := "hi"; msg_media_url := None; msg_media_type := None;
           msg_transcription := None; msg_is_transcribed := false;
           msg_is_liked := false; msg_is_saved := false; msg_timestamp := 1 |}];
     message_reactions :=
       [{| r_id := 1; r_message_id := 1; r_user_id := 2; r_emoji := thumbs_up;
           r_created_at := 2 |}];
     message_reaction_counts :=
       [{| rc_message_id := 1;
           rc_counts := {[ thumbs_up := {| count := 1; userIds := [2] |} ]};
           rc_updated_at := 2 |}];
     next_conversation_id := 2;
     next_participant_id := 3;
     next_message_id := 2;
     next_reaction_id := 2 |}.

(** The same conversation after user 3, who had joined and reacted to
    message 1, has left it again: the reaction row of user 3 is still there,
    the participant row is not. *)
Definition store_after_leaving : Store :=
  set_reaction_counts
    [{| rc_message_id := 1;
        rc_counts := {[ thumbs_up := {| count := 2; userIds := [2; 3] |} ]};
        rc_updated_at := 3 |}]
    (set_reactions
       (message_reactions store
          ++ [{| r_id := 2; r_message_id := 1; r_user_id := 3; r_emoji := thumbs_up;
                 r_created_at := 3 |}])
       3 store).

(** Message 1 carries a second reaction, of user 1, whose emoji is the
    word "constructor". *)
Definition store_with_word : Store :=
  set_reactions
    (message_reactions store
       ++ [{| r_id := 2; r_message_id := 1; r_user_id := 1; r_emoji := "constructor";
              r_created_at := 3 |}])
    3 store.


(** Every request is served. *)
Definition world (st : Store) : World :=
  {| db := st; faults := []; trace := []; now := 5 |}.

(** The first request is served, the next two are lost. *)
Definition world_going_offline (st : Store) : World :=
  {| db := st; faults := [false; true; true]; trace := []; now := 5 |}.

(** User 2 has opened the typing channel of conversation 7 with callback 0. *)
Definition listening : RealtimeService.State :=
  RealtimeService.run
    [RealtimeService.Initialize 2; RealtimeService.SubscribeToTyping 7 0%nat]
    RealtimeService.init.

(** Users 1 and 2 are both typing in that conversation. *)
Definition both_typing : RealtimeService.PresenceState :=
  [("1", [{| RealtimeService.p_userId := 1; RealtimeService.p_username := "alice";
             RealtimeService.p_typing := true; RealtimeService.p_lastTyped := 4 |}]);
   ("2", [{| RealtimeService.p_userId := 2; RealtimeService.p_username := "bob";
             RealtimeService.p_typing := true; RealtimeService.p_lastTyped := 5 |}])].

(** User 1 is connected twice, under one presence key: the record of the
    first session says not typing, that of the second says typing. *)
Definition two_sessions : RealtimeService.PresenceState :=
  [("1", [{| RealtimeService.p_userId := 1; RealtimeService.p_username := "alice";
             RealtimeService.p_typing := false; RealtimeService.p_lastTyped := 3 |};
          {| RealtimeService.p_userId := 1; RealtimeService.p_username := "alice";
             RealtimeService.p_typing := true; RealtimeService.p_lastTyped := 4 |}])].

End Scenario.

(** ** More of the store: the reads of the services *)

Module StoreReads.
Import Store.

(** The two directions of [.order('timestamp', ...)]. *)
Definition earlier (a b : MessageRow) : Prop := msg_timestamp a ≤ msg_timestamp b.
Definition later (a b : MessageRow) : Prop := msg_timestamp b ≤ msg_timestamp a.

#[global] Instance earlier_dec a b : Decision (earlier a b).
Proof. unfold earlier. apply _. Defined.
#[global] Instance later_dec a b : Decision (later a b).
Proof. unfold later. apply _. Defined.

(** The code of an error, which this model reads off its message:
    [error.code === 'PGRST116'], the code of [.single()] without exactly one
    row. *)
Definition is_PGRST116 (msg : string) : bool := String.eqb msg no_single_row.

(** [from('conversations').select('*').eq('id', id).single()] *)
Definition select_conversation (id : Z) (st : Store) : Resp ConversationRow :=
  single (filter (fun c => conv_id c = id) (conversations st)).

(** [from('conversation_participants').select('conversation_id')
    .eq('user_id', u)] *)
Definition select_participations (u : Z) (st : Store) : Resp (list Z) :=
  ok (map cp_conversation_id
          (filter (fun p => cp_user_id p = u) (conversation_participants st))).

(** [from('messages').select('*').eq('conversation_id', c)
    .order('timestamp', { ascending: true })] *)
Definition select_messages (c : Z) (st : Store) : Resp (list MessageRow) :=
  ok (merge_sort earlier (filter (fun m => msg_conversation_id m = c) (messages st))).

(** [... .order('timestamp', { ascending: false }).limit(1).single()] *)
Definition select_last_message (c : Z) (st : Store) : Resp MessageRow :=
  single (take 1 (merge_sort later
                    (filter (fun m => msg_conversation_id m = c) (messages st)))).

(** [from('message_reactions').select('emoji, created_at,
    users!inner(id, username, display_name)').eq('message_id', m)]. The
    select has no [.order]: that the joined rows come in the order of the
    reaction rows is the choice of this model, not a fact about the
    store. *)
Definition select_reactions_with_users (m : Z) (st : Store)
  : Resp (list (ReactionRow * UserRow)) :=
  ok (flat_map (fun r => map (pair r) (filter (fun u => u_id u = r_user_id r) (users st)))
               (filter (fun r => r_message_id r = m) (message_reactions st))).

(** [from('users').select(...).eq('id', id).single()] *)
Definition select_user_by_id (id : Z) (st : Store) : Resp UserRow :=
  single (filter (fun u => u_id u = id) (users st)).

(** [from('users').select(...).eq('username', name).single()] *)
Definition select_user_by_username (name : string) (st : Store) : Resp UserRow :=
  single (filter (fun u => u_username u = name) (users st)).

(** [.neq('id', x)], when the method adds it. *)
Definition not_excluded (exclude : option Z) (u : UserRow) : Prop :=
  match exclude with
  | Some x => u_id u ≠ x
  | None => True
  end.

#[global] Instance not_excluded_dec exclude u : Decision (not_excluded exclude u).
Proof. destruct exclude; simpl; apply _. Defined.

(** [from('users').select(...).eq('is_online', true)
    .eq('show_online_status', true)], with or without [.neq('id', x)] *)
Definition select_online_users (exclude : option Z) (st : Store) : Resp (list UserRow) :=
  ok (filter (fun u => u_is_online u = true ∧ u_show_online_status u = true
                       ∧ not_excluded exclude u) (users st)).

(** [from('conversation_participants').select('users!inner(...)')
    .in('conversation_id', ids).neq('user_id', u).limit(n)]; which rows the
    limit keeps depends on an order that the select does not fix, here that
    of the participant rows. *)
Definition select_other_participants (ids : list Z) (u : Z) (n : nat) (st : Store)
  : Resp (list UserRow) :=
  ok (take n
        (flat_map (fun p => filter (fun usr => u_id usr = cp_user_id p) (users st))
                  (filter (fun p => cp_conversation_id p ∈ ids ∧ cp_user_id p ≠ u)
                          (conversation_participants st)))).

Section Matching.

(** How the store matches text is left open: [ilike content pattern] for
    [.ilike(column, pattern)], and for the filter expression handed to
    [.or(...)] the row test it denotes, if the store accepts it. *)
Variable ilike : string → string → bool.
Variable or_filter : string → option (UserRow → bool).

(** [from('messages').select('*').eq('conversation_id', c)
    .ilike('content', pattern).order('timestamp', { ascending: false })] *)
Definition search_messages (c : Z) (pattern : string) (st : Store) : Resp (list MessageRow) :=
  ok (merge_sort later
        (filter (fun m => msg_conversation_id m = c ∧ ilike (msg_content m) pattern = true)
                (messages st))).

(** [from('messages').select('*').in('conversation_id', ids)
    .ilike('content', pattern).order('timestamp', { ascending: false })
    .limit(n)] *)
Definition search_messages_in (ids : list Z) (pattern : string) (n : nat) (st : Store)
  : Resp (list MessageRow) :=
  ok (take n
        (merge_sort later
           (filter (fun m => msg_conversation_id m ∈ ids
                             ∧ ilike (msg_content m) pattern = true)
                   (messages st)))).

Definition bad_filter : string := "failed to parse logic tree".

(** [from('users').select(...).or(expression)], with or without
    [.neq('id', x)], then [.limit(n)] *)
Definition search_users (expression : string) (exclude : option Z) (n : nat) (st : Store)
  : Resp (list UserRow) :=
  match or_filter expression with
  | Some test =>
      ok (take n (filter (fun u => test u = true ∧ not_excluded exclude u) (users st)))
  | None => failed bad_filter
  end.

End Matching.

End StoreReads.

(** ** ConversationService, continued: the methods that only read *)

Module ConversationQueries.
Import Store Client ConversationService StoreReads.

(** [ConversationWithParticipants] *)
Record ConversationWithParticipants := {
  conversation : ConversationRow;
  participant : User;
  lastMessage : option MessageRow }.

(** [ReactionSummary] *)
Record ReactionSummary := {
  rs_userId : Z;
  rs_username : string;
  rs_displayName : string;
  rs_emoji : string;
  rs_createdAt : Z }.

(** [a || b] on a nullable string and a string. *)
Definition or_else (a : option string) (b : string) : string :=
  match a with
  | Some s => if String.eqb s EmptyString then b else s
  | None => b
  end.

(** The body of the loop of [getUserConversations]: the entry of one
    conversation, or nothing when the loop moves on with [continue]. *)
Definition conversation_entry (userId conversationId : Z)
  : M (option ConversationWithParticipants) :=
  let* c := query {| verb := Select; table := "conversations" |}
                  (select_conversation conversationId) in
  match error c, data c with
  | None, Some conversation =>
      let* ps := query {| verb := Select; table := "conversation_participants" |}
                       (select_participant_users (VNum conversationId)) in
      match error ps, data ps with
      | None, Some allParticipants =>
          let otherParticipants :=
            map convertDbUserToUser (filter (fun p => u_id p ≠ userId) allParticipants) in
          match otherParticipants with
          | [] => ret None
          | other :: _ =>
              let* last := query {| verb := Select; table := "messages" |}
                                 (select_last_message conversationId) in
              ret (Some {| conversation := conversation;
                           participant := other;
                           lastMessage := data last |})
          end
      | _, _ => ret None
      end
  | _, _ => ret None
  end.

(** The loop over the conversation ids, collecting [results] in order. *)
Fixpoint conversation_entries (userId : Z) (conversationIds : list Z)
  : M (list ConversationWithParticipants) :=
  match conversationIds with
  | [] => ret []
  | conversationId :: rest =>
      let* entry := conversation_entry userId conversationId in
      let* results := conversation_entries userId rest in
      ret (match entry with Some e => e :: results | None => results end)
  end.

(** Get all conversations for a user. *)
Definition getUserConversations (userId : Z)
  : M (list ConversationWithParticipants * option string) :=
  let* p := query {| verb := Select; table := "conversation_participants" |}
                  (select_participations userId) in
  match error p with
  | Some msg => ret ([], Some msg)
  | None =>
      match data p with
      | None | Some [] => ret ([], None)
      | Some conversationIds =>
          let* results := conversation_entries userId conversationIds in
          ret (results, None)
      end
  end.

(** Get conversation details with participants. *)
Definition getConversation (conversationId userId : Z)
  : M (Result (ConversationRow * list User)) :=
  let* c := query {| verb := Select; table := "conversations" |}
                  (select_conversation conversationId) in
  match error c with
  | Some msg => ret (Err msg)
  | None =>
      match data c with
      | None => ret (Err "Conversation not found")
      | Some conversation =>
          let* ps := query {| verb := Select; table := "conversation_participants" |}
                           (select_participant_users (VNum conversationId)) in
          match error ps with
          | Some msg => ret (Err msg)
          | None =>
              let participants := map convertDbUserToUser (default [] (data ps)) in
              if negb (some_is userId participants)
              then ret (Err "Not authorized to view this conversation")
              else ret (Ok (conversation, participants))
          end
      end
  end.

(** Get messages for a conversation. *)
Definition getMessages (conversationId userId : Z) : M (list MessageRow * option string) :=
  let* (participants, participantError) :=
    getConversationParticipants (VNum conversationId) userId in
  if truthy participantError then ret ([], participantError)
  else if negb (some_is userId participants)
  then ret ([], Some "Not authorized to view messages in this conversation")
  else
    let* r := query {| verb := Select; table := "messages" |}
                    (select_messages conversationId) in
    match error r with
    | Some msg => ret ([], Some msg)
    | None => ret (default [] (data r), None)
    end.

(** The summary of one reaction row with its user. *)
Definition summary (r : ReactionRow * UserRow) : ReactionSummary :=
  {| rs_userId := u_id (snd r);
     rs_username := u_username (snd r);
     rs_displayName := or_else (u_display_name (snd r)) (u_username (snd r));
     rs_emoji := r_emoji (fst r);
     rs_createdAt := r_created_at (fst r) |}.

(** Get reactions for a message. *)
Definition getMessageReactions (messageId userId : Z)
  : M (list ReactionSummary * option string) :=
  let* r := query {| verb := Select; table := "messages" |} (select_message messageId) in
  match error r, data r with
  | None, Some message =>
      let* (participants, participantError) :=
        getConversationParticipants (prop (message_json message) "conversation_id") userId in
      if truthy participantError then ret ([], participantError)
      else if negb (some_is userId participants)
      then ret ([], Some "Not authorized to view reactions for this message")
      else
        let* rs := query {| verb := Select; table := "message_reactions" |}
                         (select_reactions_with_users messageId) in
        match error rs with
        | Some msg => ret ([], Some msg)
        | None => ret (map summary (default [] (data rs)), None)
        end
  | _, _ => ret ([], Some "Message not found")
  end.

Section Matching.

Variable ilike : string → string → bool.

(** Search messages within a conversation. *)
Definition searchMessages (conversationId userId : Z) (query_text : string)
  : M (list MessageRow * option string) :=
  let* (participants, participantError) :=
    getConversationParticipants (VNum conversationId) userId in
  if truthy participantError then ret ([], participantError)
  else if negb (some_is userId participants)
  then ret ([], Some "Not authorized to search messages in this conversation")
  else
    let* r := query {| verb := Select; table := "messages" |}
                    (search_messages ilike conversationId ("%" +:+ query_text +:+ "%")) in
    match error r with
    | Some msg => ret ([], Some msg)
    | None => ret (default [] (data r), None)
    end.

End Matching.

End ConversationQueries.

(** ** SearchService *)

Module SearchService.
Import Store Client ConversationService StoreReads.

(** [SearchableUser] has the fields of [Omit<User, 'password'>]; every
    method maps a row to it in the same way. *)
Definition searchable (user : UserRow) : User :=
  {| id := u_id user;
     username := u_username user;
     email := u_email user;
     displayName := u_display_name user;
     avatarUrl := u_avatar_url user;
     isOnline := u_is_online user;
     showOnlineStatus := u_show_online_status user |}.

(** [if (excludeUserId)]: no id and the id 0 exclude nobody. *)
Definition given (excludeUserId : option Z) : option Z :=
  match excludeUserId with
  | Some x => if x =? 0 then None else Some x
  | None => None
  end.

(** The deduplication through [userMap]: the first user of each id stays,
    in the order of first occurrence. *)
Definition remember (userMap : list User) (user : User) : list User :=
  if existsb (fun u => id u =? id user) userMap then userMap else userMap ++ [user].

Definition deduplicate (users : list User) : list User :=
  fold_left remember users [].

(** Get online users. *)
Definition getOnlineUsers (excludeUserId : option Z) : M (list User * option string) :=
  let* r := query {| verb := Select; table := "users" |}
                  (select_online_users (given excludeUserId)) in
  match error r with
  | Some msg => ret ([], Some msg)
  | None => ret (map searchable (default [] (data r)), None)
  end.

(** Get user by ID. A [.single()] that finds no row is not an error here. *)
Definition getUserById (userId : Z) : M (Result (option User)) :=
  let* r := query {| verb := Select; table := "users" |} (select_user_by_id userId) in
  match error r with
  | Some msg => if is_PGRST116 msg then ret (Ok None) else ret (Err msg)
  | None =>
      match data r with
      | Some user => ret (Ok (Some (searchable user)))
      | None => ret (Err "Failed to get user by ID")
      end
  end.

(** Get user by username. *)
Definition getUserByUsername (name : string) : M (Result (option User)) :=
  let* r := query {| verb := Select; table := "users" |} (select_user_by_username name) in
  match error r with
  | Some msg => if is_PGRST116 msg then ret (Ok None) else ret (Err msg)
  | None =>
      match data r with
      | Some user => ret (Ok (Some (searchable user)))
      | None => ret (Err "Failed to get user by username")
      end
  end.

(** Get recent conversations for a user (for search suggestions). *)
Definition getRecentConversationUsers (userId : Z) (limit : option nat)
  : M (list User * option string) :=
  let* p := query {| verb := Select; table := "conversation_participants" |}
                  (select_participations userId) in
  match error p, data p with
  | None, Some conversationIds =>
      match conversationIds with
      | [] => ret ([], None)
      | _ =>
          let* others := query {| verb := Select; table := "conversation_participants" |}
                               (select_other_participants conversationIds userId
                                                          (default 10%nat limit)) in
          match error others with
          | Some msg => ret ([], Some msg)
          | None => ret (deduplicate (map searchable (default [] (data others))), None)
          end
      end
  | e, _ =>
      ret ([], Some (ConversationQueries.or_else e "Failed to get participations"))
  end.

Section Text.

(** [String.prototype.trim] and the text matching of the store are taken as
    given. *)
Variable trim : string → string.
Variable ilike : string → string → bool.
Variable or_filter : string → option (UserRow → bool).

(** [!query || query.trim().length === 0] *)
Definition blank (query_text : string) : bool :=
  String.eqb query_text EmptyString || (String.length (trim query_text) =? 0)%nat.

(** The expression handed to [.or(...)]. *)
Definition user_filter (searchQuery : string) : string :=
  "username.ilike.%" +:+ searchQuery +:+ "%,display_name.ilike.%" +:+ searchQuery
  +:+ "%,email.ilike.%" +:+ searchQuery +:+ "%".

(** Search for users (fellows). *)
Definition searchUsers (query_text : string) (limit : option nat)
  : M (list User * option string) :=
  if blank query_text then ret ([], None)
  else
    let searchQuery := trim query_text in
    let* r := query {| verb := Select; table := "users" |}
                    (search_users or_filter (user_filter searchQuery) None
                                  (default 20%nat limit)) in
    match error r with
    | Some msg => ret ([], Some msg)
    | None => ret (map searchable (default [] (data r)), None)
    end.

(** Search for users excluding current user. *)
Definition searchUsersExcluding (query_text : string) (excludeUserId : Z)
    (limit : option nat) : M (list User * option string) :=
  if blank query_text then ret ([], None)
  else
    let searchQuery := trim query_text in
    let* r := query {| verb := Select; table := "users" |}
                    (search_users or_filter (user_filter searchQuery) (Some excludeUserId)
                                  (default 20%nat limit)) in
    match error r with
    | Some msg => ret ([], Some msg)
    | None => ret (map searchable (default [] (data r)), None)
    end.

(** Search messages globally (across all conversations user has access to). *)
Definition searchMessagesGlobal (userId : Z) (query_text : string) (limit : option nat)
  : M (list MessageRow * option string) :=
  if blank query_text then ret ([], None)
  else
    let* p := query {| verb := Select; table := "conversation_participants" |}
                    (select_participations userId) in
    match error p with
    | Some msg => ret ([], Some msg)
    | None =>
        match data p with
        | None | Some [] => ret ([], None)
        | Some conversationIds =>
            let* r := query {| verb := Select; table := "messages" |}
                            (search_messages_in ilike conversationIds
                               ("%" +:+ trim query_text +:+ "%")
                               (default 50%nat limit)) in
            match error r with
            | Some msg => ret ([], Some msg)
            | None => ret (default [] (data r), None)
            end
        end
    end.

End Text.

End SearchService.

(** ** RealtimeService: connection status and database change events *)

Module RealtimeEvents.
Import RealtimeService.

(** Check connection status. *)
Definition getConnectionStatus (s : State) : string :=
  let channels := (map_to_list (channels (fst s))).*2 in
  if (length channels =? 0)%nat then "disconnected"
  else
    let hasActiveChannels := existsb (fun _ => true) channels in
    if hasActiveChannels then "connected" else "disconnected".

Inductive EventType := INSERT | UPDATE | DELETE.

#[global] Instance EventType_eq_dec : EqDecision EventType.
Proof. solve_decision. Defined.

(** The payload of a [postgres_changes] event: the table it is about and the
    row after and before the change, keyed by column name. *)
Record Payload := {
  eventType : EventType;
  changed_table : string;
  payload_new : Obj;
  payload_old : Obj }.

(** What a callback of the caller is invoked with. *)
Inductive Update :=
| MessageUpdate (type : EventType) (message : Obj) (conversationId : JsVal)
| UserUpdate (type : EventType) (user : Obj)
| NotificationUpdate (type : EventType) (notification : Obj)
| ReactionUpdate (messageId : JsVal)
| ParticipantChange.

(** [ids.includes(v)] on an array of numbers. *)
Definition includes (ids : list Z) (v : JsVal) : bool :=
  match v with
  | VNum n => existsb (Z.eqb n) ids
  | _ => false
  end.

(** [const { password, ...userWithoutPassword } = user] *)
Definition without_password (user : Obj) : Obj :=
  filter (fun kv => kv.1 ≠ "password") user.

(** The bindings registered with [.on('postgres_changes', ...)] and what
    each of them does with a payload of its table and event. The [filter]
    of a binding is applied by the server, which sends the binding only the
    changes that pass it; it is not part of what the handler does. *)
Definition react (h : Handler) (p : Payload) : option (Callback * Update) :=
  match h with
  | OnMessages _ onMessage =>
      if bool_decide (changed_table p = "messages") then
        let message := match eventType p with
                       | DELETE => payload_old p
                       | _ => payload_new p
                       end in
        Some (onMessage, MessageUpdate (eventType p) message (prop message "conversationId"))
      else None
  | OnUserStatus userIds onUserUpdate =>
      if bool_decide (changed_table p = "users") && bool_decide (eventType p = UPDATE) then
        let user := payload_new p in
        if includes userIds (prop user "id")
        then Some (onUserUpdate, UserUpdate UPDATE (without_password user))
        else None
      else None
  | OnNotifications _ onNotification =>
      if bool_decide (changed_table p = "notifications") && bool_decide (eventType p = INSERT)
      then Some (onNotification, NotificationUpdate INSERT (payload_new p))
      else None
  | OnMessageReactions messageIds onReactionUpdate =>
      if bool_decide (changed_table p = "message_reactions") then
        match eventType p with
        | INSERT =>
            let reaction := payload_new p in
            if includes messageIds (prop reaction "message_id")
            then Some (onReactionUpdate, ReactionUpdate (prop reaction "message_id"))
            else None
        | DELETE =>
            let reaction := payload_old p in
            if includes messageIds (prop reaction "message_id")
            then Some (onReactionUpdate, ReactionUpdate (prop reaction "message_id"))
            else None
        | UPDATE => None
        end
      else None
  | OnParticipants _ onParticipantChange =>
      if bool_decide (changed_table p = "conversation_participants") then
        match eventType p with
        | INSERT | DELETE => Some (onParticipantChange, ParticipantChange)
        | UPDATE => None
        end
      else None
  | OnTyping _ _ => None
  end.

(** A change event arriving on the channel object [ref]: a channel that the
    client no longer holds delivers nothing. *)
Definition on_postgres_changes (ref : nat) (p : Payload) (s : State)
  : option (Callback * Update) :=
  match live (snd s) !! ref with
  | Some c => react (handler c) p
  | None => None
  end.

End RealtimeEvents.

(** ** The [MessageReactions] component: its local view of the reactions *)

Module MessageReactions.
Import Store Client ConversationService ConversationQueries.

(** The user objects the component builds carry an id and, when they come
    from a fetch, the two names. *)
Record ReactionUser := {
  ru_id : Z;
  ru_username : option string;
  ru_displayName : option string }.

Record ReactionItem := {
  emoji : string;
  count : Z;
  users : list ReactionUser }.

(** A [Map<string, ReactionItem>]: its entries in insertion order, with one
    entry for a key. *)
Definition ReactionMap : Type := list (string * ReactionItem).

Definition map_has (m : ReactionMap) (k : string) : bool :=
  existsb (fun kv => String.eqb kv.1 k) m.

Fixpoint map_get (m : ReactionMap) (k : string) : option ReactionItem :=
  match m with
  | [] => None
  | (k', v) :: m' => if String.eqb k' k then Some v else map_get m' k
  end.

Fixpoint map_set (m : ReactionMap) (k : string) (v : ReactionItem) : ReactionMap :=
  match m with
  | [] => [(k, v)]
  | (k', v') :: m' => if String.eqb k' k then (k, v) :: m' else (k', v') :: map_set m' k v
  end.

(** The body of the [forEach] of [fetchReactions]; the item of the map is
    updated in place. *)
Definition tally (reactionMap : ReactionMap) (reaction : ReactionSummary) : ReactionMap :=
  let reactionMap :=
    if map_has reactionMap (rs_emoji reaction) then reactionMap
    else map_set reactionMap (rs_emoji reaction)
                 {| emoji := rs_emoji reaction; count := 0; users := [] |} in
  match map_get reactionMap (rs_emoji reaction) with
  | Some item =>
      map_set reactionMap (rs_emoji reaction)
              {| emoji := emoji item;
                 count := count item + 1;
                 users := users item
                          ++ [{| ru_id := rs_userId reaction;
                                 ru_username := Some (rs_username reaction);
                                 ru_displayName := Some (rs_displayName reaction) |}] |}
  | None => reactionMap
  end.

(** [Array.from(reactionMap.values())] after the loop. *)
Definition grouped (reactions : list ReactionSummary) : list ReactionItem :=
  (fold_left tally reactions []).*2.

(** [fetchReactions]: the state of the component after the fetch. An error
    of the service leaves the state as it is. *)
Definition fetchReactions (messageId currentUserId : Z) (state : list ReactionItem)
  : M (list ReactionItem) :=
  let* (reactions, error) := getMessageReactions messageId currentUserId in
  if truthy error then ret state else ret (grouped reactions).






(** An item counts its users, of whom there is at least one and who are
    distinct. *)
Definition sound (r : ReactionItem) : Prop :=
  count r = Z.of_nat (length (users r)) ∧ 0 < count r ∧ NoDup (map ru_id (users r)).

(** What the component relies on: one item for an emoji, and every item
    is sound. *)
Definition tidy (reactions : list ReactionItem) : Prop :=
  NoDup (map emoji reactions) ∧ Forall sound reactions.

(** The number on the badge of an emoji; an emoji without an item has no
    badge. *)
Definition displayed (e : string) (reactions : list ReactionItem) : Z :=
  match find (fun r => String.eqb (emoji r) e) reactions with
  | Some reaction => count reaction
  | None => 0
  end.

(** The item that stands for the fetched reactions with one emoji: their
    number and their users, in the order of the fetch. *)
Definition fetched_user (reaction : ReactionSummary) : ReactionUser :=
  {| ru_id := rs_userId reaction;
     ru_username := Some (rs_username reaction);
     ru_displayName := Some (rs_displayName reaction) |}.

Definition shown (e : string) (reactions : list ReactionSummary) : option ReactionItem :=
  match filter (fun r => rs_emoji r = e) reactions with
  | [] => None
  | mine => Some {| emoji := e;
                    count := Z.of_nat (length mine);
                    users := map fetched_user mine |}
  end.

End MessageReactions.

(** ** Vocabulary of the statements about the reading methods *)

Module ReadNotions.
Import Store Client ConversationService StoreReads ConversationQueries.

(** A computation that leaves the store as it is and sends nothing but
    select requests. *)
Definition reads_only {A} (c : M A) : Prop :=
  ∀ w, db (snd (c w)) = db w
       ∧ ∃ rs, trace (snd (c w)) = trace w ++ rs
               ∧ Forall (fun r => verb r = Select) rs.

(** The message is one of the conversation and none of the conversation's
    messages is more recent. *)
Definition latest_of (c : Z) (st : Store) (m : MessageRow) : Prop :=
  m ∈ messages st ∧ msg_conversation_id m = c
  ∧ ∀ m', m' ∈ messages st → msg_conversation_id m' = c →
          msg_timestamp m' ≤ msg_timestamp m.

(** Somebody other than [u] has a participant row in the conversation. *)
Definition has_company (c u : Z) (st : Store) : Prop :=
  ∃ p, p ∈ conversation_participants st ∧ cp_conversation_id p = c ∧ cp_user_id p ≠ u.

End ReadNotions.

(** ** Vocabulary of the statements about the realtime service *)

Module RealtimeNotions.
Import RealtimeService RealtimeEvents.

(** The subscription under a name is the same in two states: the same entry
    in the table and, when there is one, the same channel object in the
    client. *)
Definition same_subscription (name : string) (s s' : State) : Prop :=
  channels (fst s') !! name = channels (fst s) !! name
  ∧ ∀ ref, channels (fst s) !! name = Some ref →
           live (snd s') !! ref = live (snd s) !! ref.

(** An object read like another one, apart from one property that it does
    not have. *)
Definition omits (k : string) (o o' : Obj) : Prop :=
  prop o' k = VUndef ∧ ∀ k', k' ≠ k → prop o' k' = prop o k'.

End RealtimeNotions.

(** ** More of the small world *)

Module Walkthrough.
Import Store Client ConversationService ConversationQueries Scenario.

Definition message (n c sender : Z) (content : string) (t : Z) : MessageRow :=
  {| msg_id := n; msg_conversation_id := c; msg_sender_id := sender;
     msg_content := content; msg_media_url := None; msg_media_type := None;
     msg_transcription := None; msg_is_transcribed := false;
     msg_is_liked := false; msg_is_saved := false; msg_timestamp := t |}.

(** The store of the scenario after two more messages in conversation 1,
    stored out of the order of their timestamps. *)
Definition chat : Store :=
  set_messages (messages store ++ [message 2 1 2 "see you at nine" 9;
                                   message 3 1 1 "see you" 4]) 4 store.

(** The same users, with alice and bob online and bob hiding his status. *)
Definition presence : Store :=
  {| users := [{| u_id := 1; u_username := "alice"; u_email := "alice@example.org";
                  u_display_name := Some "Alice"; u_avatar_url := None;
                  u_is_online := true; u_show_online_status := true |};
               {| u_id := 2; u_username := "bob"; u_email := "bob@example.org";
                  u_display_name := None; u_avatar_url := None;
                  u_is_online := true; u_show_online_status := false |};
               user 3 "carol"];
     conversations := conversations store;
     conversation_participants := conversation_participants store;
     messages := messages store;
     message_reactions := message_reactions store;
     message_reaction_counts := message_reaction_counts store;
     next_conversation_id := next_conversation_id store;
     next_participant_id := next_participant_id store;
     next_message_id := next_message_id store;
     next_reaction_id := next_reaction_id store |}.

(** Stand-ins for the text functions that the statements leave open:
    nothing is trimmed, a content matches a pattern when the pattern without
    its first and last character occurs in it, and a filter expression is
    accepted and passes the users whose name is bob. *)
Definition no_trim (s : string) : string := s.

Fixpoint occurs_from (n : nat) (needle s : string) : bool :=
  String.prefix needle s
  || match n, s with
     | S n', String _ s' => occurs_from n' needle s'
     | _, _ => false
     end.

Definition contains (content pattern : string) : bool :=
  let needle := String.substring 1 (String.length pattern - 2) pattern in
  occurs_from (String.length content) needle content.

Definition only_bob (expression : string) : option (UserRow → bool) :=
  Some (fun usr => String.eqb (u_username usr) "bob").

(** User 1 listens to the messages of conversation 1 with callback 0. *)
Definition reading : RealtimeService.State :=
  RealtimeService.run
    [RealtimeService.Initialize 1; RealtimeService.SubscribeToMessages 1 0%nat]
    RealtimeService.init.

(** The change event of a user row. *)
Definition user_changed : RealtimeEvents.Payload :=
  {| RealtimeEvents.eventType := RealtimeEvents.UPDATE;
     RealtimeEvents.changed_table := "users";
     RealtimeEvents.payload_new :=
       [("id", VNum 2); ("username", VStr "bob"); ("password", VStr "hunter2");
        ("is_online", VBool true)];
     RealtimeEvents.payload_old := [] |}.

(** The change event of a deleted reaction row. *)
Definition reaction_deleted : RealtimeEvents.Payload :=
  {| RealtimeEvents.eventType := RealtimeEvents.DELETE;
     RealtimeEvents.changed_table := "message_reactions";
     RealtimeEvents.payload_new := [];
     RealtimeEvents.payload_old :=
       [("id", VNum 1); ("message_id", VNum 1); ("user_id", VNum 2);
        ("emoji", VStr thumbs_up)] |}.

(** The change event of the first message of the scenario, updated. *)
Definition message_changed : RealtimeEvents.Payload :=
  {| RealtimeEvents.eventType := RealtimeEvents.UPDATE;
     RealtimeEvents.changed_table := "messages";
     RealtimeEvents.payload_new := message_json (message 1 1 1 "hi" 1);
     RealtimeEvents.payload_old := [] |}.

(** Three fetched reactions, two of them with the same emoji. *)
Definition fetched : list ReactionSummary :=
  [{| rs_userId := 2; rs_username := "bob"; rs_displayName := "bob";
      rs_emoji := thumbs_up; rs_createdAt := 2 |};
   {| rs_userId := 1; rs_username := "alice"; rs_displayName := "Alice";
      rs_emoji := "heart"; rs_createdAt := 3 |};
   {| rs_userId := 3; rs_username := "carol"; rs_displayName := "carol";
      rs_emoji := thumbs_up; rs_createdAt := 4 |}].

End Walkthrough.
(** ** Filters that keep nothing, or everything *)

Module ListFacts.

Lemma filter_none {A} (P : A → Prop) `{!∀ x, Decision (P x)} (l : list A) :
  Forall (fun x => ¬ P x) l → filter P l = [].
Proof.
  induction 1 as [|x l Hx _ IH]; [done|].
  rewrite filter_cons. by destruct (decide (P x)).
Qed.


End ListFacts.

(** ** Reasoning about requests *)

Module Requests.
Import Store Client.

Lemma lost_sent n r st w : lost n (sent r st w) = lost (S n) w.
Proof. unfold lost, sent; simpl. destruct (faults w); simpl; [by destruct n | done]. Qed.

Lemma db_sent r st w : db (sent r st w) = st.
Proof. done. Qed.

Lemma now_sent r st w : now (sent r st w) = now w.
Proof. done. Qed.


Lemma mutate_served {A} r (serve : Z → Store → Resp A * Store) w :
  lost 0 w = false →
  mutate r serve w
  = (fst (serve (now w) (db w)), sent r (snd (serve (now w) (db w))) w).
Proof.
  unfold lost, mutate. intros H.
  destruct (faults w) as [|[] fs]; simpl in H; try discriminate;
    by destruct (serve (now w) (db w)).
Qed.

Lemma mutate_lost {A} r (serve : Z → Store → Resp A * Store) w :
  lost 0 w = true →
  mutate r serve w = (failed transport_error, sent r (db w) w).
Proof.
  unfold lost, mutate. intros H.
  destruct (faults w) as [|[] fs]; simpl in H; by try discriminate.
Qed.

Lemma query_served {A} r (read : Store → Resp A) w :
  lost 0 w = false → query r read w = (read (db w), sent r (db w) w).
Proof. intros H. unfold query. by rewrite mutate_served. Qed.

Lemma query_lost {A} r (read : Store → Resp A) w :
  lost 0 w = true → query r read w = (failed transport_error, sent r (db w) w).
Proof. intros H. unfold query. by rewrite mutate_lost. Qed.

(** A read never changes the store, and always costs one request. *)
Lemma query_world {A} r (read : Store → Resp A) w :
  snd (query r read w) = sent r (db w) w.
Proof.
  destruct (lost 0 w) eqn:H; [by rewrite query_lost | by rewrite query_served].
Qed.

Lemma query_cases {A} r (read : Store → Resp A) w :
  query r read w = (read (db w), sent r (db w) w)
  ∨ query r read w = (failed transport_error, sent r (db w) w).
Proof.
  destruct (lost 0 w) eqn:H; [right; by apply query_lost | left; by apply query_served].
Qed.

Lemma mutate_cases {A} r (serve : Z → Store → Resp A * Store) w :
  mutate r serve w
  = (fst (serve (now w) (db w)), sent r (snd (serve (now w) (db w))) w)
  ∨ mutate r serve w = (failed transport_error, sent r (db w) w).
Proof.
  destruct (lost 0 w) eqn:H; [right; by apply mutate_lost | left; by apply mutate_served].
Qed.

End Requests.

(** ** Properties of ConversationService *)

Module ConversationFacts.
Import Store Client ConversationService Notions Requests ListFacts.

(** *** Membership *)

Lemma some_is_members u c st :
  some_is u (map convertDbUserToUser (joined_users c st)) = true ↔
  ∃ p usr, p ∈ conversation_participants st ∧ cp_conversation_id p = c
           ∧ usr ∈ users st ∧ u_id usr = cp_user_id p ∧ u_id usr = u.
Proof.
  unfold some_is, joined_users. rewrite existsb_exists. split.
  - intros (x & Hin & Hid). apply in_map_iff in Hin as (usr & <- & Hin).
    apply in_flat_map in Hin as (p & Hp & Hu).
    apply list_elem_of_In, list_elem_of_filter in Hp as [Hc Hp].
    apply list_elem_of_In, list_elem_of_filter in Hu as [Hk Hu].
    exists p, usr. simpl in Hid. repeat split; auto. lia.
  - intros (p & usr & Hp & Hc & Hu & Hk & Hid).
    exists (convertDbUserToUser usr). split; [|simpl; lia].
    apply in_map, in_flat_map. exists p. split.
    + apply list_elem_of_In, list_elem_of_filter. auto.
    + apply list_elem_of_In, list_elem_of_filter. auto.
Qed.

Lemma is_participant_row c u st :
  is_participant c u st = true ↔
  ∃ p, p ∈ conversation_participants st ∧ cp_conversation_id p = c ∧ cp_user_id p = u.
Proof.
  unfold is_participant. rewrite existsb_exists. split.
  - intros (p & Hp & H). apply andb_true_iff in H as [H1 H2].
    exists p. rewrite list_elem_of_In. repeat split; auto; lia.
  - intros (p & Hp & <- & <-). exists p. rewrite <- list_elem_of_In.
    split; auto. rewrite !Z.eqb_refl. done.
Qed.

Lemma outsider_not_member c u st :
  is_participant c u st = false →
  some_is u (map convertDbUserToUser (joined_users c st)) = false.
Proof.
  intros H. apply not_true_is_false. intros Hs.
  apply some_is_members in Hs as (p & usr & Hp & Hc & _ & Hk & Hid).
  assert (is_participant c u st = true); [|congruence].
  apply is_participant_row. exists p. repeat split; auto. lia.
Qed.

Lemma participants_ok_user st p :
  participants_ok st = true → p ∈ conversation_participants st →
  ∃ usr, usr ∈ users st ∧ u_id usr = cp_user_id p.
Proof.
  unfold participants_ok. intros H Hp. apply andb_true_iff in H as [_ H].
  rewrite forallb_forall in H. apply list_elem_of_In, H in Hp.
  apply andb_true_iff in Hp as [_ Hu]. apply bool_decide_eq_true in Hu.
  apply list_elem_of_In, in_map_iff in Hu as (usr & Hid & Hin).
  exists usr. split; [by apply list_elem_of_In | done].
Qed.

Lemma participant_is_member c u st :
  participants_ok st = true → is_participant c u st = true →
  some_is u (map convertDbUserToUser (joined_users c st)) = true.
Proof.
  intros Hok H. apply is_participant_row in H as (p & Hp & Hc & Hu).
  destruct (participants_ok_user st p Hok Hp) as (usr & Hin & Hid).
  apply some_is_members. exists p, usr. repeat split; auto. lia.
Qed.

Lemma store_ok_participants st : store_ok st = true → participants_ok st = true.
Proof. unfold store_ok. rewrite !andb_true_iff. tauto. Qed.

Lemma store_ok_reactions st : store_ok st = true → reactions_ok st = true.
Proof. unfold store_ok. rewrite !andb_true_iff. tauto. Qed.

Lemma store_ok_sequences st : store_ok st = true → sequences_ok st = true.
Proof. unfold store_ok. rewrite !andb_true_iff. tauto. Qed.

(** *** getConversationParticipants *)

Lemma getConversationParticipants_world v u w :
  snd (getConversationParticipants v u w) = sent participants_request (db w) w.
Proof.
  unfold getConversationParticipants, bind.
  pose proof (query_world participants_request (select_participant_users v) w) as Hw.
  fold participants_request.
  destruct (query participants_request (select_participant_users v) w) as [r w'].
  simpl in Hw. subst w'.
  destruct (error r); [done|]. by destruct (negb _).
Qed.

Lemma getConversationParticipants_lost v u w :
  lost 0 w = true →
  fst (getConversationParticipants v u w) = ([], Some transport_error).
Proof.
  intros H. unfold getConversationParticipants, bind.
  by rewrite query_lost.
Qed.

Lemma getConversationParticipants_served c u w :
  lost 0 w = false →
  fst (getConversationParticipants (VNum c) u w)
  = if some_is u (map convertDbUserToUser (joined_users c (db w)))
    then (map convertDbUserToUser (joined_users c (db w)), None)
    else ([], Some "Not authorized to view participants in this conversation").
Proof.
  intros H. unfold getConversationParticipants, bind.
  rewrite query_served by done. simpl.
  by destruct (some_is _ _).
Qed.

(** A filter value that is not a number never yields participants. *)
Lemma getConversationParticipants_undefined u w :
  fst (getConversationParticipants VUndef u w)
  = ([], Some (if lost 0 w then transport_error else invalid_integer)).
Proof.
  unfold getConversationParticipants, bind.
  destruct (lost 0 w) eqn:H; [by rewrite query_lost | by rewrite query_served].
Qed.

(** *** sendMessage *)

(** C4. A sender without a participant row gets the authorization error of
    the membership check, and the call ends there: the membership query is
    the only request it sends, so the store, and with it the messages table,
    is as before. When that query itself is lost the call fails with the
    transport error, again without touching the store. *)
Theorem sendMessage_outsider c u content mediaUrl mediaType w :
  is_participant c u (db w) = false →
  let out := sendMessage c u content mediaUrl mediaType w in
  (lost 0 w = false →
   fst out = Err "Not authorized to view participants in this conversation")
  ∧ (lost 0 w = true → fst out = Err transport_error)
  ∧ db (snd out) = db w
  ∧ messages (db (snd out)) = messages (db w)
  ∧ trace (snd out) = trace w ++ [participants_request].
Proof.
  intros Hout. simpl. unfold sendMessage, bind.
  pose proof (getConversationParticipants_world (VNum c) u w) as Hw.
  pose proof (getConversationParticipants_served c u w) as Hs.
  pose proof (getConversationParticipants_lost (VNum c) u w) as Hl.
  rewrite (outsider_not_member _ _ _ Hout) in Hs.
  destruct (getConversationParticipants (VNum c) u w) as [[ps e] w'].
  simpl in Hw, Hs, Hl. subst w'.
  destruct (lost 0 w).
  - specialize (Hl eq_refl). injection Hl as -> ->. simpl. by repeat split.
  - specialize (Hs eq_refl). injection Hs as -> ->. simpl. by repeat split.
Qed.

(** Whatever the content is, the first thing [sendMessage] does is to ask
    the store for the participants: nothing is checked before that. *)
Lemma sendMessage_asks_first c u content mediaUrl mediaType w :
  ∃ rest, trace (snd (sendMessage c u content mediaUrl mediaType w))
          = trace w ++ participants_request :: rest.
Proof.
  unfold sendMessage, bind.
  pose proof (getConversationParticipants_world (VNum c) u w) as Hw.
  destruct (getConversationParticipants (VNum c) u w) as [[ps e] w'].
  simpl in Hw. subst w'.
  destruct (truthy e); [by exists [] |].
  destruct (negb _); [by exists [] |].
  destruct (mutate_cases {| verb := Insert; table := "messages" |}
              (insert_message
                 [("conversationId", VNum c); ("senderId", VNum u);
                  ("content", VStr content); ("mediaUrl", or_null mediaUrl);
                  ("mediaType", or_null mediaType)])
              (sent participants_request (db w) w)) as [-> | ->]; simpl.
  - eexists. rewrite <- app_assoc. simpl. reflexivity.
  - eexists. rewrite <- app_assoc. simpl. reflexivity.
Qed.

(** A participant who sends the empty string: the membership query and the
    insert both go to the store, and the error that comes back is the
    store's. *)
Lemma sendMessage_empty_content c u mediaUrl mediaType w :
  store_ok (db w) = true → is_participant c u (db w) = true →
  lost 0 w = false → lost 1 w = false →
  let out := sendMessage c u EmptyString mediaUrl mediaType w in
  fst out = Err unknown_column
  ∧ trace (snd out)
    = trace w ++ [participants_request; {| verb := Insert; table := "messages" |}].
Proof.
  intros Hok Hp H0 H1. simpl. unfold sendMessage, bind.
  pose proof (getConversationParticipants_world (VNum c) u w) as Hw.
  pose proof (getConversationParticipants_served c u w H0) as Hs.
  rewrite (participant_is_member _ _ _ (store_ok_participants _ Hok) Hp) in Hs.
  destruct (getConversationParticipants (VNum c) u w) as [[ps e] w'].
  simpl in Hw, Hs. subst w'. injection Hs as -> ->. simpl.
  rewrite (participant_is_member _ _ _ (store_ok_participants _ Hok) Hp). simpl.
  rewrite mutate_served by (by rewrite lost_sent).
  simpl. rewrite <- app_assoc. done.
Qed.

(** *** updateMessage *)

Lemma updateMessage_not_found m u updates w :
  data (select_message m (db w)) = None →
  fst (updateMessage m u updates w) = Err "Message not found".
Proof.
  intros Hnone. unfold updateMessage, bind.
  destruct (query_cases messages_request (select_message m) w) as [H | H];
    fold messages_request; rewrite H; simpl.
  - rewrite Hnone. by destruct (error _).
  - done.
Qed.

Lemma conversationId_undefined message :
  prop (message_json message) "conversationId" = VUndef.
Proof. reflexivity. Qed.

(** C7 (the part the code misses). [updateMessage] reads
    [message.conversationId] from a row whose key is [conversation_id], so
    the membership check runs on [undefined]: every call ends in an error,
    for participants too, no update request is ever sent and the store is as
    before. *)
Theorem updateMessage_never_patches m u updates w :
  let out := updateMessage m u updates w in
  (∃ e, fst out = Err e)
  ∧ db (snd out) = db w
  ∧ Forall (fun r => verb r = Select) (drop (length (trace w)) (trace (snd out))).
Proof.
  simpl. unfold updateMessage, bind. fold messages_request.
  pose proof (query_world messages_request (select_message m) w) as Hq.
  destruct (query messages_request (select_message m) w) as [r w1].
  simpl in Hq. subst w1.
  assert (Hdrop1 : drop (length (trace w)) (trace w ++ [messages_request])
                   = [messages_request]) by (by rewrite drop_app_length).
  destruct (error r); [|destruct (data r) as [message|]]; simpl;
    try (split; [by eexists | split; [done |]];
         rewrite Hdrop1; by repeat constructor).
  rewrite ?conversationId_undefined.
  pose proof (getConversationParticipants_world VUndef u
                (sent messages_request (db w) w)) as Hw.
  pose proof (getConversationParticipants_undefined u
                (sent messages_request (db w) w)) as Hu.
  destruct (getConversationParticipants VUndef u _) as [[ps e] w'].
  simpl in Hw, Hu. subst w'. injection Hu as -> ->.
  assert (Ht : truthy (Some (if lost 0 (sent messages_request (db w) w)
                             then transport_error else invalid_integer)) = true)
    by (by destruct (lost 0 _)).
  rewrite Ht. simpl. split; [by eexists | split; [done |]].
  rewrite <- app_assoc, drop_app_length. by repeat constructor.
Qed.

(** *** addReaction *)

Lemma single_data {A} (rows : list A) r : data (single rows) = Some r → single rows = ok r.
Proof. destruct rows as [|x [|y rows]]; simpl; congruence. Qed.

Lemma conversation_of_message m c st :
  conversation_of m st = Some c →
  ∃ message, select_message m st = ok message ∧ msg_conversation_id message = c.
Proof.
  unfold conversation_of. intros H.
  destruct (data (select_message m st)) as [message|] eqn:Hd; [|done].
  exists message. split; [by apply single_data | simpl in H; congruence].
Qed.

Lemma unique_match_single m u e (rows : list ReactionRow) :
  NoDup (map reaction_key rows) → Exists (reaction_matches m u e) rows →
  ∃ r, filter (reaction_matches m u e) rows = [r].
Proof.
  induction rows as [|r rows IH]; intros Hnd Hex; [by inversion Hex|].
  simpl in Hnd. apply NoDup_cons in Hnd as [Hnotin Hnd].
  rewrite filter_cons. destruct (decide (reaction_matches m u e r)) as [Hr | Hr].
  - exists r. f_equal. apply filter_none.
    apply Forall_forall. intros r' Hin Hr'. apply Hnotin.
    apply list_elem_of_fmap. exists r'. split; [|done].
    unfold reaction_key. destruct Hr as (-> & -> & ->), Hr' as (-> & -> & ->). done.
  - apply IH; [done|]. by inversion Hex.
Qed.

Lemma existing_reaction_selected m u e st :
  reactions_ok st = true → has_reaction m u e st = true →
  ∃ rid, select_reaction m u e st = ok rid.
Proof.
  unfold reactions_ok, has_reaction, select_reaction. intros Hok Hex.
  apply andb_true_iff in Hok as [Hnd _].
  apply bool_decide_eq_true in Hnd, Hex.
  destruct (unique_match_single m u e _ Hnd Hex) as [r ->]. by exists (r_id r).
Qed.

(** C1, for a participant. When the message exists, the user is a
    participant of its conversation and the reaction row is already there,
    [addReaction] answers "Reaction already exists" after its three reads;
    no insert is sent and the store, reaction rows and aggregate included,
    is as before. *)
Theorem addReaction_duplicate m u e c w :
  store_ok (db w) = true →
  conversation_of m (db w) = Some c →
  is_participant c u (db w) = true →
  has_reaction m u e (db w) = true →
  lost 0 w = false → lost 1 w = false → lost 2 w = false →
  let out := addReaction m u e w in
  fst out = Err "Reaction already exists"
  ∧ db (snd out) = db w
  ∧ trace (snd out) = trace w ++ [messages_request; participants_request; reactions_request].
Proof.
  intros Hok Hc Hp Hr H0 H1 H2. simpl. unfold addReaction, bind.
  destruct (conversation_of_message _ _ _ Hc) as (message & Hm & <-).
  rewrite query_served by done. rewrite Hm. simpl.
  set (w1 := sent _ (db w) w).
  pose proof (getConversationParticipants_world (VNum (msg_conversation_id message)) u w1) as Hw.
  pose proof (getConversationParticipants_served (msg_conversation_id message) u w1) as Hs.
  assert (H1' : lost 0 w1 = false) by (unfold w1; by rewrite lost_sent).
  specialize (Hs H1'). simpl in Hs.
  rewrite (participant_is_member _ _ _ (store_ok_participants _ Hok) Hp) in Hs.
  destruct (getConversationParticipants _ u w1) as [[ps err] w2].
  simpl in Hw, Hs. subst w2. injection Hs as -> ->. simpl.
  rewrite (participant_is_member _ _ _ (store_ok_participants _ Hok) Hp). simpl.
  subst w1. rewrite query_served by (by rewrite !lost_sent).
  rewrite !db_sent.
  destruct (existing_reaction_selected m u e _ (store_ok_reactions _ Hok) Hr) as [rid ->].
  simpl. rewrite <- !app_assoc. done.
Qed.

(** The same call by a user who is not a participant of the conversation
    stops at the membership check. *)
Lemma addReaction_outsider m u e c w :
  conversation_of m (db w) = Some c →
  is_participant c u (db w) = false →
  lost 0 w = false → lost 1 w = false →
  let out := addReaction m u e w in
  fst out = Err "Not authorized to view participants in this conversation"
  ∧ db (snd out) = db w.
Proof.
  intros Hc Hp H0 H1. simpl. unfold addReaction, bind.
  destruct (conversation_of_message _ _ _ Hc) as (message & Hm & <-).
  rewrite query_served by done. rewrite Hm. simpl.
  set (w1 := sent _ (db w) w).
  pose proof (getConversationParticipants_world (VNum (msg_conversation_id message)) u w1) as Hw.
  pose proof (getConversationParticipants_served (msg_conversation_id message) u w1) as Hs.
  assert (H1' : lost 0 w1 = false) by (unfold w1; by rewrite lost_sent).
  specialize (Hs H1'). simpl in Hs.
  rewrite (outsider_not_member _ _ _ Hp) in Hs.
  destruct (getConversationParticipants _ u w1) as [[ps err] w2].
  simpl in Hw, Hs. subst w2. injection Hs as -> ->. done.
Qed.

(** *** updateReactionCounts *)

Lemma reaction_counts_of_upsert m counts t st :
  reaction_counts_of m (snd (upsert_reaction_counts m counts t st)) = Some counts.
Proof.
  unfold reaction_counts_of, upsert_reaction_counts. simpl.
  rewrite filter_app, filter_none.
  - rewrite filter_cons. simpl. by destruct (decide (m = m)).
  - apply Forall_forall. intros r Hr. by apply list_elem_of_filter in Hr as [? _].
Qed.

Lemma reaction_counts_of_upsert_other m m' counts t st :
  m' ≠ m →
  reaction_counts_of m' (snd (upsert_reaction_counts m counts t st))
  = reaction_counts_of m' st.
Proof.
  intros Hne. unfold reaction_counts_of, upsert_reaction_counts. simpl.
  rewrite filter_app, filter_cons. simpl.
  destruct (decide (m = m')); [congruence|]. rewrite filter_nil, app_nil_r.
  f_equal. f_equal.
  induction (message_reaction_counts st) as [|r rows IH]; [done|].
  rewrite !filter_cons. repeat case_decide; rewrite ?filter_cons;
    repeat case_decide; subst; try congruence; try done.
Qed.

(** Where the recompute leaves the store: as it was when one of its two
    requests is lost or the loop throws, and with the row of the message
    replaced otherwise. *)
Lemma updateReactionCounts_served m w counts :
  lost 0 w = false → lost 1 w = false →
  build_counts (default [] (data (select_reactions m (db w)))) = Some counts →
  db (snd (updateReactionCounts m w))
  = snd (upsert_reaction_counts m counts (now w) (db w)).
Proof.
  intros H0 H1 Hb. unfold updateReactionCounts, bind, clock.
  rewrite query_served by done. cbn [error select_reactions ok fst snd].
  cbn [select_reactions ok] in Hb. rewrite Hb.
  rewrite mutate_served by (by rewrite lost_sent). done.
Qed.

Lemma updateReactionCounts_thrown m w :
  build_counts (default [] (data (select_reactions m (db w)))) = None →
  snd (updateReactionCounts m w) = sent reactions_request (db w) w.
Proof.
  intros Hb. unfold updateReactionCounts, bind. fold reactions_request.
  destruct (query_cases reactions_request (select_reactions m) w) as [H | H];
    rewrite H; [|done].
  cbn [error select_reactions ok fst snd]. cbn [select_reactions ok] in Hb.
  by rewrite Hb.
Qed.

Lemma updateReactionCounts_cases m w :
  db (snd (updateReactionCounts m w)) = db w
  ∨ ∃ counts,
      build_counts (default [] (data (select_reactions m (db w)))) = Some counts
      ∧ db (snd (updateReactionCounts m w))
        = snd (upsert_reaction_counts m counts (now w) (db w)).
Proof.
  unfold updateReactionCounts, bind, clock.
  destruct (query_cases reactions_request (select_reactions m) w) as [H | H];
    fold reactions_request; rewrite H; simpl; [|by left].
  destruct (build_counts _) as [counts|] eqn:Hb; [|by left].
  match goal with |- context [mutate ?r ?f ?w'] =>
    destruct (mutate_cases r f w') as [H' | H']; rewrite H' end; simpl; [|by left].
  right. by exists counts.
Qed.

Lemma updateReactionCounts_reactions m w :
  message_reactions (db (snd (updateReactionCounts m w))) = message_reactions (db w).
Proof. by destruct (updateReactionCounts_cases m w) as [-> | (counts & _ & ->)]. Qed.

(** *** The aggregate that a recompute builds *)

Lemma counted_lookup counts emoji user_id e :
  counted counts (emoji, user_id) !! e
  = if decide (emoji = e) then bump (counts !! e) [user_id] else counts !! e.
Proof.
  unfold counted. destruct (decide (emoji = e)) as [-> | Hne].
  - by rewrite lookup_insert_eq.
  - by rewrite lookup_insert_ne.
Qed.

Lemma bump_bump o u us : bump (bump o [u]) us = bump o (u :: us).
Proof.
  destruct us as [|u' us]; [done|]. unfold bump. simpl. f_equal.
  f_equal; [lia | by rewrite <- app_assoc].
Qed.

Lemma fold_count_lookup (l : list (string * Z)) acc e :
  fold_left counted l acc !! e
  = bump (acc !! e) (filter (fun x => x.1 = e) l).*2.
Proof.
  revert acc. induction l as [|[emoji user_id] l IH]; intros acc; [done|].
  cbn [fold_left]. rewrite IH, counted_lookup, filter_cons. cbn [fst].
  destruct (decide (emoji = e)); [|done]. rewrite bump_bump. by rewrite fmap_cons.
Qed.

(** On an emoji that is no inherited name the loop's step does not throw. *)
Lemma count_reaction_plain counts emoji user_id :
  emoji ∉ inherited_properties →
  count_reaction counts (emoji, user_id) = Some (counted counts (emoji, user_id)).
Proof.
  intros Hplain. unfold count_reaction, counted.
  destruct (counts !! emoji) as [entry|]; [done|].
  by rewrite bool_decide_eq_false_2.
Qed.

(** On an inherited name it throws, as long as no entry has that name. *)
Lemma count_reaction_inherited counts emoji user_id :
  emoji ∈ inherited_properties → counts !! emoji = None →
  count_reaction counts (emoji, user_id) = None.
Proof.
  intros Hin Hnone. unfold count_reaction. rewrite Hnone.
  by rewrite bool_decide_eq_true_2.
Qed.

Lemma fold_thrown (l : list (string * Z)) :
  fold_left (fun counts reaction =>
               match counts with
               | Some c => count_reaction c reaction
               | None => None
               end) l None = None.
Proof. by induction l. Qed.

Lemma fold_count_reaction (l : list (string * Z)) acc :
  (∀ k, k ∈ inherited_properties → acc !! k = None) →
  fold_left (fun counts reaction =>
               match counts with
               | Some c => count_reaction c reaction
               | None => None
               end) l (Some acc)
  = if bool_decide (Forall (fun x => x.1 ∉ inherited_properties) l)
    then Some (fold_left counted l acc) else None.
Proof.
  revert acc. induction l as [|[emoji user_id] l IH]; intros acc Hacc; [done|].
  cbn [fold_left]. destruct (decide (emoji ∈ inherited_properties)) as [Hin | Hplain].
  - rewrite count_reaction_inherited by auto. rewrite fold_thrown.
    rewrite bool_decide_eq_false_2; [done|].
    intros Hall. apply Forall_cons in Hall as [Hno _]. by apply Hno.
  - rewrite count_reaction_plain by done. rewrite IH.
    + destruct (decide (Forall (fun x => x.1 ∉ inherited_properties) l)) as [Hl | Hl].
      * by rewrite !bool_decide_eq_true_2 by (try constructor; done).
      * rewrite !bool_decide_eq_false_2; [done | | done].
        intros Hall. by apply Forall_cons in Hall as [_ Hall].
    + intros k Hk. rewrite counted_lookup. destruct (decide (emoji = k)); [congruence|].
      by apply Hacc.
Qed.

Lemma build_counts_plain (l : list (string * Z)) :
  build_counts l
  = if bool_decide (Forall (fun x => x.1 ∉ inherited_properties) l)
    then Some (fold_left counted l ∅) else None.
Proof.
  unfold build_counts. apply fold_count_reaction. intros k _. apply lookup_empty.
Qed.

Lemma selected_users m e (rows : list ReactionRow) :
  (filter (fun x => x.1 = e)
     (map (fun r => (r_emoji r, r_user_id r)) (filter (fun r => r_message_id r = m) rows))).*2
  = map r_user_id (filter (fun r => r_message_id r = m ∧ r_emoji r = e) rows).
Proof.
  induction rows as [|r rows IH]; [done|].
  rewrite !filter_cons.
  destruct (decide (r_message_id r = m)) as [Hm | Hm]; simpl.
  - rewrite filter_cons. simpl.
    destruct (decide (r_emoji r = e)) as [He | He];
      destruct (decide (r_message_id r = m ∧ r_emoji r = e)) as [H | H];
      try tauto; rewrite ?fmap_cons; cbn [map snd]; by rewrite IH.
  - destruct (decide (r_message_id r = m ∧ r_emoji r = e)) as [H | H]; [tauto | done].
Qed.

Lemma bump_entry (rows : list ReactionRow) :
  bump None (map r_user_id rows) = entry_of rows.
Proof.
  destruct rows as [|r rows]; [done|]. unfold bump, entry_of. simpl.
  by rewrite length_map.
Qed.

(** The entries are read off the pairs that the recompute selects. *)
Lemma entry_of_selected m e st :
  entry_of (rows_for m e st)
  = bump None (filter (fun x => x.1 = e) (default [] (data (select_reactions m st)))).*2.
Proof.
  unfold select_reactions, rows_for. cbn [ok data default from_option].
  unfold Datatypes.id. by rewrite selected_users, bump_entry.
Qed.

Lemma recountable_selected m st :
  recountable m st ↔
  Forall (fun x => x.1 ∉ inherited_properties) (default [] (data (select_reactions m st))).
Proof.
  unfold recountable, select_reactions. cbn [ok data default from_option].
  unfold Datatypes.id. by rewrite Forall_fmap.
Qed.

(** When the loop does not throw, each emoji is mapped to the number and
    the users of the rows that carry it, and an emoji without rows has no
    entry; it throws exactly when a row of the message has an emoji that
    names an inherited property. *)
Lemma build_counts_lookup m st counts :
  build_counts (default [] (data (select_reactions m st))) = Some counts →
  recountable m st ∧ ∀ e, counts !! e = entry_of (rows_for m e st).
Proof.
  rewrite build_counts_plain. case_bool_decide as Hall; [|done].
  intros [= <-]. split; [by apply recountable_selected|].
  intros e. by rewrite fold_count_lookup, lookup_empty, entry_of_selected.
Qed.

Lemma build_counts_recountable m st :
  recountable m st →
  ∃ counts, build_counts (default [] (data (select_reactions m st))) = Some counts.
Proof.
  intros Hr. rewrite build_counts_plain.
  rewrite bool_decide_eq_true_2 by (by apply recountable_selected). by eexists.
Qed.

Lemma build_counts_thrown m st :
  ¬ recountable m st →
  build_counts (default [] (data (select_reactions m st))) = None.
Proof.
  intros Hr. rewrite build_counts_plain.
  rewrite bool_decide_eq_false_2; [done|]. by rewrite <- recountable_selected.
Qed.

(** *** removeReaction *)



(** *** No call lets two rows share (message, user, emoji) *)

Lemma preserves_ret P {A} (a : A) : preserves P (ret a).
Proof. by intros w. Qed.

Lemma preserves_bind P {A B} (c : M A) (k : A → M B) :
  preserves P c → (∀ a, preserves P (k a)) → preserves P (bind c k).
Proof.
  intros Hc Hk w HP. unfold bind. specialize (Hc w HP).
  destruct (c w) as [a w']. by apply Hk.
Qed.

Lemma preserves_mutate P {A} r (serve : Z → Store → Resp A * Store) :
  (∀ t st, P st → P (snd (serve t st))) → preserves P (mutate r serve).
Proof.
  intros Hserve w HP. destruct (mutate_cases r serve w) as [-> | ->]; simpl; auto.
Qed.

Lemma preserves_query P {A} r (read : Store → Resp A) : preserves P (query r read).
Proof. intros w HP. by rewrite query_world. Qed.

Lemma preserves_getConversationParticipants P v u :
  preserves P (getConversationParticipants v u).
Proof. intros w HP. by rewrite getConversationParticipants_world. Qed.

Lemma preserves_updateReactionCounts m : preserves reactions_unique (updateReactionCounts m).
Proof.
  intros w HP. unfold reactions_unique. by rewrite updateReactionCounts_reactions.
Qed.

Lemma insert_reaction_unique payload t st :
  reactions_unique st → reactions_unique (snd (insert_reaction payload t st)).
Proof.
  unfold reactions_unique, insert_reaction. intros Hnd.
  destruct (negb (known_columns _ _)); [done|].
  destruct (prop payload "message_id") as [| |m| |]; try done.
  destruct (prop payload "user_id") as [| |u| |]; try done.
  destruct (prop payload "emoji") as [| | |e|]; try done.
  destruct (negb _); [done|]. case_bool_decide as Hex; [done|]. simpl.
  rewrite map_app. apply NoDup_app. split; [done|]. split; [|by apply NoDup_singleton].
  intros k Hk Hk'. apply list_elem_of_singleton in Hk'. subst k.
  apply list_elem_of_fmap in Hk as (r & Hkey & Hr). apply Hex, Exists_exists.
  exists r. split; [done|]. unfold reaction_key in Hkey. simpl in Hkey.
  unfold reaction_matches. by injection Hkey as -> -> ->.
Qed.

Lemma delete_reaction_unique m u e st :
  reactions_unique st → reactions_unique (snd (delete_reaction m u e st)).
Proof.
  unfold reactions_unique, delete_reaction. simpl.
  induction (message_reactions st) as [|r rows IH]; [done|].
  simpl. intros Hnd. apply NoDup_cons in Hnd as [Hnotin Hnd].
  rewrite filter_cons. destruct (decide _); [|by apply IH].
  simpl. apply NoDup_cons. split; [|by apply IH].
  intros Hin. apply Hnotin. apply list_elem_of_fmap in Hin as (r' & Hk & Hr').
  apply list_elem_of_filter in Hr' as [_ Hr']. apply list_elem_of_fmap. eauto.
Qed.

Ltac preserve :=
  repeat first
    [ apply preserves_ret
    | apply preserves_getConversationParticipants
    | apply preserves_updateReactionCounts
    | apply preserves_bind; [| intros ?]
    | match goal with
      | |- preserves _ (query _ _) => apply preserves_query
      | |- preserves _ (mutate _ _) => apply preserves_mutate; intros ? ?
      | |- preserves _ (match ?x with _ => _ end) => destruct x
      | |- preserves _ (if ?b then _ else _) => destruct b
      end ].

Lemma preserves_addReaction m u e : preserves reactions_unique (addReaction m u e).
Proof.
  unfold addReaction. preserve. apply insert_reaction_unique.
Qed.

Lemma preserves_removeReaction m u e : preserves reactions_unique (removeReaction m u e).
Proof.
  unfold removeReaction. preserve. apply delete_reaction_unique.
Qed.

Lemma preserves_reaction_calls m calls : preserves reactions_unique (reaction_calls m calls).
Proof.
  induction calls as [|[u e | u e] calls IH]; simpl.
  - apply preserves_ret.
  - apply preserves_bind; [apply preserves_addReaction | by intros _].
  - apply preserves_bind; [apply preserves_removeReaction | by intros _].
Qed.

Lemma store_ok_unique st : store_ok st = true → reactions_unique st.
Proof.
  intros H. apply store_ok_reactions in H. unfold reactions_ok in H.
  apply andb_true_iff in H as [H _]. by apply bool_decide_eq_true in H.
Qed.

Lemma unique_users m e st :
  reactions_unique st → NoDup (map r_user_id (rows_for m e st)).
Proof.
  unfold reactions_unique, rows_for.
  induction (message_reactions st) as [|r rows IH]; [constructor|].
  simpl. intros Hnd. apply NoDup_cons in Hnd as [Hnotin Hnd].
  rewrite filter_cons. destruct (decide _) as [[Hm He] |]; [|by apply IH].
  simpl. apply NoDup_cons. split; [|by apply IH].
  intros Hin. apply Hnotin. apply list_elem_of_fmap in Hin as (r' & Hu & Hr').
  apply list_elem_of_filter in Hr' as [[Hm' He'] Hr']. apply list_elem_of_fmap.
  exists r'. split; [|done]. unfold reaction_key. congruence.
Qed.

(** *** Up-to-date aggregates stay up to date while requests are served *)

Lemma served_all w n : faults w = [] → lost n w = false.
Proof. unfold lost. intros ->. by destruct n. Qed.

Lemma served_all_sent r st w : faults w = [] → faults (sent r st w) = [].
Proof. unfold sent. simpl. by intros ->. Qed.

Ltac served := repeat first [assumption | apply served_all | apply served_all_sent].

(** The body that [addReaction] sends names no column of message_reactions
    ([messageId], [userId]): the store refuses it, whatever it holds. *)
Lemma reactionData_refused m u e t st :
  insert_reaction [("messageId", VNum m); ("userId", VNum u); ("emoji", VStr e)] t st
  = (failed unknown_column, st).
Proof. reflexivity. Qed.

(** Likewise for the body that [sendMessage] sends ([conversationId],
    [senderId], [mediaUrl], [mediaType]). *)
Lemma messageData_refused c u content mediaUrl mediaType t st :
  insert_message
    [("conversationId", VNum c); ("senderId", VNum u); ("content", VStr content);
     ("mediaUrl", or_null mediaUrl); ("mediaType", or_null mediaType)] t st
  = (failed unknown_column, st).
Proof. reflexivity. Qed.

Lemma addReaction_store m u e w : db (snd (addReaction m u e w)) = db w.
Proof.
  unfold addReaction, bind. fold messages_request.
  pose proof (query_world messages_request (select_message m) w) as Hq.
  destruct (query messages_request (select_message m) w) as [r w1].
  simpl in Hq. subst w1.
  destruct (error r); [done|]. destruct (data r) as [message|]; [|done].
  match goal with |- context [getConversationParticipants ?v u ?w'] =>
    pose proof (getConversationParticipants_world v u w') as Hw;
    destruct (getConversationParticipants v u w') as [[ps err] w2] end.
  simpl in Hw. subst w2. destruct (truthy err); [done|]. destruct (negb _); [done|].
  fold reactions_request.
  match goal with |- context [query reactions_request ?f ?w'] =>
    pose proof (query_world reactions_request f w') as Hx;
    destruct (query reactions_request f w') as [x w3] end.
  simpl in Hx. subst w3. destruct (data x); [done|].
  match goal with |- context [mutate ?r ?f ?w'] =>
    destruct (mutate_cases r f w') as [H | H]; rewrite H end; done.
Qed.

Lemma delete_reaction_other_rows m u e m' (rows : list ReactionRow) :
  m' ≠ m →
  filter (fun r => r_message_id r = m') (filter (fun r => ¬ reaction_matches m u e r) rows)
  = filter (fun r => r_message_id r = m') rows.
Proof.
  intros Hne. induction rows as [|r rows IH]; [done|].
  rewrite !filter_cons. destruct (decide (¬ reaction_matches m u e r)) as [Hr | Hr].
  - rewrite filter_cons. destruct (decide (r_message_id r = m')); by rewrite IH.
  - destruct (decide (r_message_id r = m')) as [Hm | Hm]; [|done].
    exfalso. apply Hr. intros (Hm'' & _). congruence.
Qed.

Lemma recount_current m t st1 st counts :
  message_reaction_counts st1 = message_reaction_counts st →
  (∀ m', m' ≠ m → select_reactions m' st1 = select_reactions m' st) →
  all_current st →
  build_counts (default [] (data (select_reactions m st1))) = Some counts →
  all_current (snd (upsert_reaction_counts m counts t st1)).
Proof.
  intros Hcounts Hrows Hcur Hb m' e'. unfold aggregate.
  set (st2 := snd (upsert_reaction_counts m counts t st1)).
  assert (Hsel : ∀ k, select_reactions k st2 = select_reactions k st1) by done.
  rewrite entry_of_selected, Hsel. destruct (decide (m' = m)) as [-> | Hne].
  - unfold st2. rewrite reaction_counts_of_upsert. cbn [default from_option].
    unfold Datatypes.id. apply build_counts_lookup in Hb as [_ Hb].
    by rewrite Hb, entry_of_selected.
  - unfold st2. rewrite reaction_counts_of_upsert_other by done.
    rewrite (Hrows m' Hne), <- entry_of_selected.
    specialize (Hcur m' e'). unfold aggregate in Hcur.
    unfold reaction_counts_of in *. by rewrite Hcounts.
Qed.

(** The rows after a call of [removeReaction]: those of before, with or
    without the rows that match. *)
Lemma removeReaction_rows m u e w :
  message_reactions (db (snd (removeReaction m u e w))) = message_reactions (db w)
  ∨ message_reactions (db (snd (removeReaction m u e w)))
    = filter (fun r => ¬ reaction_matches m u e r) (message_reactions (db w)).
Proof.
  unfold removeReaction, bind. fold messages_request.
  pose proof (query_world messages_request (select_message m) w) as Hq.
  destruct (query messages_request (select_message m) w) as [r w1].
  simpl in Hq. subst w1.
  destruct (error r); [by left|]. destruct (data r) as [message|]; [|by left].
  match goal with |- context [getConversationParticipants ?v u ?w'] =>
    pose proof (getConversationParticipants_world v u w') as Hw;
    destruct (getConversationParticipants v u w') as [[ps err] w2] end.
  simpl in Hw. subst w2. destruct (truthy err); [by left|].
  destruct (negb _); [by left|].
  match goal with |- context [mutate ?r ?f ?w'] =>
    destruct (mutate_cases r f w') as [H | H]; rewrite H end; [|by left].
  cbn [fst snd delete_reaction error ok].
  match goal with |- context [updateReactionCounts m ?w'] =>
    pose proof (updateReactionCounts_reactions m w') as Hr;
    destruct (updateReactionCounts m w') as [[] w3] end.
  cbn [ret fst snd] in *. right. by rewrite Hr.
Qed.

Lemma removeReaction_keeps m u e w r :
  r ∈ message_reactions (db (snd (removeReaction m u e w))) →
  r ∈ message_reactions (db w).
Proof.
  destruct (removeReaction_rows m u e w) as [-> | ->]; [done|].
  intros Hin. by apply list_elem_of_filter in Hin as [_ Hin].
Qed.

(** No add or remove call gives the store a reaction row that it did not
    have. *)
Lemma reaction_calls_keep m calls w r :
  r ∈ message_reactions (db (snd (reaction_calls m calls w))) →
  r ∈ message_reactions (db w).
Proof.
  revert w. induction calls as [|[u e | u e] calls IH]; intros w; [done| |].
  - simpl. unfold bind. pose proof (addReaction_store m u e w) as Hst.
    destruct (addReaction m u e w) as [res w']. simpl in *.
    intros Hin. apply IH in Hin. by rewrite Hst in Hin.
  - simpl. unfold bind. pose proof (removeReaction_keeps m u e w r) as Hk.
    destruct (removeReaction m u e w) as [res w']. simpl in *.
    intros Hin. by apply Hk, IH.
Qed.

Lemma recountable_fewer m st st' :
  (∀ r, r ∈ message_reactions st' → r ∈ message_reactions st) →
  recountable m st → recountable m st'.
Proof.
  unfold recountable. rewrite !Forall_forall. intros Hsub Hr r Hin.
  apply list_elem_of_filter in Hin as [Hm Hin]. apply Hr.
  apply list_elem_of_filter. auto.
Qed.

Lemma plain_emojis_fewer st st' :
  (∀ r, r ∈ message_reactions st' → r ∈ message_reactions st) →
  plain_emojis st → plain_emojis st'.
Proof. unfold plain_emojis. rewrite !Forall_forall. auto. Qed.

Lemma plain_emojis_recountable m st : plain_emojis st → recountable m st.
Proof.
  unfold plain_emojis, recountable. rewrite !Forall_forall. intros Hp r Hin.
  apply list_elem_of_filter in Hin as [_ Hin]. auto.
Qed.

Lemma removeReaction_current m u e w :
  faults w = [] → plain_emojis (db w) → all_current (db w) →
  all_current (db (snd (removeReaction m u e w))).
Proof.
  intros Hf Hplain Hcur. unfold removeReaction, bind.
  rewrite query_served by served.
  destruct (error _); [done|]. destruct (data _) as [message|]; [|done].
  match goal with |- context [getConversationParticipants ?v u ?w'] =>
    pose proof (getConversationParticipants_world v u w') as Hw;
    destruct (getConversationParticipants v u w') as [[ps err] w2] end.
  simpl in Hw. subst w2. destruct (truthy err); [done|]. destruct (negb _); [done|].
  rewrite mutate_served by served.
  cbn [fst snd delete_reaction error ok].
  match goal with |- context [updateReactionCounts m ?w'] =>
    destruct (build_counts_recountable m (db w')) as [counts Hb];
      [| pose proof (updateReactionCounts_served m w' counts) as Hs;
         destruct (updateReactionCounts m w') as [[] w3] ] end.
  { rewrite !db_sent. apply plain_emojis_recountable.
    apply (plain_emojis_fewer (db w)); [|done].
    intros r Hin. simpl in Hin. by apply list_elem_of_filter in Hin as [_ Hin]. }
  unfold ret. cbn [fst snd] in *.
  rewrite Hs by (first [exact Hb | served]).
  rewrite !db_sent in *. apply (recount_current m _ _ (db w)); [done | | done | done].
  intros m' Hne. unfold select_reactions. simpl.
  by rewrite delete_reaction_other_rows.
Qed.

(** In a run where every request is served, no add or remove call leaves a
    stale aggregate behind. *)
Lemma calm_ret {A} (a : A) : calm (ret a).
Proof. by intros w. Qed.

Lemma calm_bind {A B} (c : M A) (k : A → M B) :
  calm c → (∀ a, calm (k a)) → calm (bind c k).
Proof.
  intros Hc Hk w Hf. unfold bind. specialize (Hc w Hf).
  destruct (c w) as [a w']. by apply Hk.
Qed.

Lemma calm_mutate {A} r (serve : Z → Store → Resp A * Store) : calm (mutate r serve).
Proof.
  intros w Hf. destruct (mutate_cases r serve w) as [-> | ->]; simpl; by rewrite Hf.
Qed.

Lemma calm_clock : calm clock.
Proof. by intros w. Qed.

Ltac calm :=
  repeat first
    [ apply calm_ret
    | apply calm_clock
    | apply calm_mutate
    | apply calm_bind; [| intros ?]
    | match goal with
      | |- calm (match ?x with _ => _ end) => destruct x
      | |- calm (if ?b then _ else _) => destruct b
      end ].

Lemma calm_addReaction m u e : calm (addReaction m u e).
Proof.
  unfold addReaction, getConversationParticipants, updateReactionCounts, query. calm.
Qed.

Lemma calm_removeReaction m u e : calm (removeReaction m u e).
Proof.
  unfold removeReaction, getConversationParticipants, updateReactionCounts, query. calm.
Qed.

(** In a run where every request is served, and in a store without emojis
    that name inherited properties, no add or remove call leaves a stale
    aggregate behind. *)
Lemma reaction_calls_current m calls w :
  faults w = [] → plain_emojis (db w) → all_current (db w) →
  all_current (db (snd (reaction_calls m calls w))).
Proof.
  revert w. induction calls as [|[u e | u e] calls IH]; intros w Hf Hplain Hcur; [done| |].
  - simpl. unfold bind.
    pose proof (addReaction_store m u e w) as Hst.
    pose proof (calm_addReaction m u e w Hf) as Hf'.
    destruct (addReaction m u e w) as [res w']. simpl in *.
    apply IH; [done | by rewrite Hst | by rewrite Hst].
  - simpl. unfold bind.
    pose proof (removeReaction_current m u e w Hf Hplain Hcur) as Hcur'.
    pose proof (calm_removeReaction m u e w Hf) as Hf'.
    pose proof (removeReaction_keeps m u e w) as Hk.
    destruct (removeReaction m u e w) as [res w']. simpl in *.
    apply IH; [done | | done]. by apply (plain_emojis_fewer (db w)).
Qed.

(** *** createConversation *)


Lemma store_ok_fresh_conversation st :
  store_ok st = true →
  Forall (fun c => conv_id c ≠ next_conversation_id st) (conversations st)
  ∧ Forall (fun p => cp_conversation_id p ≠ next_conversation_id st)
           (conversation_participants st)
  ∧ Forall (fun m => msg_conversation_id m ≠ next_conversation_id st) (messages st)
  ∧ Forall (fun r => r_message_id r ∈ map msg_id (messages st)) (message_reactions st).
Proof.
  unfold store_ok, participants_ok, messages_ok, reactions_ok, sequences_ok.
  rewrite !andb_true_iff, !forallb_forall.
  intros ((((_ & _ & Hp) & Hm) & _ & Hr) & ((Hc & _) & _) & _).
  assert (Hfresh : ∀ c, c ∈ map conv_id (conversations st) → c ≠ next_conversation_id st).
  { intros c Hin. apply list_elem_of_fmap in Hin as (row & -> & Hrow).
    apply list_elem_of_In, Hc in Hrow. lia. }
  repeat split; apply Forall_forall.
  - intros c Hin. apply Hfresh, list_elem_of_fmap. eauto.
  - intros p Hin. apply list_elem_of_In, Hp, andb_true_iff in Hin as [Hin _].
    apply bool_decide_eq_true in Hin. by apply Hfresh.
  - intros m Hin. apply list_elem_of_In, Hm, andb_true_iff in Hin as [Hin _].
    apply bool_decide_eq_true in Hin. by apply Hfresh.
  - intros r Hin. apply list_elem_of_In, Hr, andb_true_iff in Hin as [Hin _].
    by apply bool_decide_eq_true in Hin.
Qed.


Lemma parse_participantInserts conversation ids :
  parse_participants (participantInserts conversation ids)
  = Some (map (fun u => (conv_id conversation, u)) ids).
Proof.
  induction ids as [|u ids IH]; [done|].
  unfold participantInserts in *. cbn [map parse_participants]. by rewrite IH.
Qed.

(** One way for the participant insert to fail: an id that occurs twice
    runs into UNIQUE(conversation_id, user_id). *)
Lemma duplicate_ids_refused ids w :
  ¬ NoDup ids → participants_refused ids w = true.
Proof.
  intros Hdup. unfold participants_refused. apply orb_true_iff. right.
  cbn [fst snd insert_conversation data ok]. apply bool_decide_eq_true.
  unfold insert_participants. rewrite parse_participantInserts.
  destruct (negb (forallb _ _)); [by eexists|].
  case_bool_decide as Hnd; [|by eexists]. exfalso. apply Hdup.
  apply NoDup_app in Hnd as (_ & _ & Hnd).
  by apply NoDup_fmap in Hnd; [|intros x y [=]].
Qed.


(** When the compensating delete is lost as well, the conversation row of
    the call stays behind, without participants. *)
Lemma createConversation_cleanup_lost ids w :
  lost 0 w = false → lost 1 w = true → lost 2 w = true →
  let out := createConversation ids w in
  fst out = Err "Failed to add participants to conversation"
  ∧ db (snd out) = snd (insert_conversation (now w) (db w)).
Proof.
  intros H0 H1 H2. simpl. unfold createConversation, bind.
  rewrite mutate_served by done. cbn [fst snd insert_conversation error data ok].
  rewrite mutate_lost by (by rewrite lost_sent). cbn [error failed].
  rewrite mutate_lost by (by rewrite !lost_sent). done.
Qed.


(** *** The scenario, run *)

Import Scenario.

Lemma sendMessage_outsider_witness :
  is_participant 1 3 (db (world store)) = false
  ∧ fst (sendMessage 1 3 "hey" None None (world store))
    = Err "Not authorized to view participants in this conversation"
  ∧ messages (db (snd (sendMessage 1 3 "hey" None None (world store)))) = messages store.
Proof.
  split; [reflexivity|].
  destruct (sendMessage_outsider 1 3 "hey" None None (world store) eq_refl)
    as (Hserved & _ & _ & Hmessages & _).
  split; [apply Hserved; reflexivity | apply Hmessages].
Defined.

(** C5 (what the code does instead). User 1, a participant of conversation
    1, sends the empty string: [sendMessage] checks nothing before it talks
    to the store. It reads the participants and then sends the insert with
    the empty content; both requests are on the wire when it returns. *)
Theorem sendMessage_empty_content_reaches_store :
  is_participant 1 1 store = true
  ∧ trace (snd (sendMessage 1 1 EmptyString None None (world store)))
    = [participants_request; {| verb := Insert; table := "messages" |}].
Proof. split; vm_compute; reflexivity. Qed.

Lemma addReaction_duplicate_witness :
  store_ok (db (world store)) = true
  ∧ conversation_of 1 (db (world store)) = Some 1
  ∧ is_participant 1 2 (db (world store)) = true
  ∧ has_reaction 1 2 thumbs_up (db (world store)) = true
  ∧ fst (addReaction 1 2 thumbs_up (world store)) = Err "Reaction already exists"
  ∧ db (snd (addReaction 1 2 thumbs_up (world store))) = store.
Proof.
  do 4 (split; [vm_compute; reflexivity|]).
  destruct (addReaction_duplicate 1 2 thumbs_up 1 (world store))
    as (Hres & Hdb & _); [vm_compute; reflexivity .. |].
  split; [exact Hres | exact Hdb].
Defined.

(** C1, as stated, fails for a user who is no longer a participant: with
    the reaction row of user 3 still in the store, an intact store and every
    request served, [addReaction 1 3] is answered by the membership check,
    not with "Reaction already exists". *)
Lemma addReaction_duplicate_counterexample :
  ¬ (∀ m u e w,
       store_ok (db w) = true → faults w = [] →
       has_reaction m u e (db w) = true →
       fst (addReaction m u e w) = Err "Reaction already exists"
       ∧ db (snd (addReaction m u e w)) = db w).
Proof.
  intros H.
  destruct (H 1 3 thumbs_up (world store_after_leaving)) as [Hres _];
    try (vm_compute; reflexivity).
  vm_compute in Hres. discriminate Hres.
Qed.





(** When the delete is lost too, conversation 2 stays behind. *)
Example createConversation_offline :
  conversations (db (snd (createConversation [1; 2] (world_going_offline store))))
  = conversations store ++ [{| conv_id := 2; conv_created_at := 5; conv_updated_at := 5 |}].
Proof.
  destruct (createConversation_cleanup_lost [1; 2] (world_going_offline store))
    as [_ ->]; reflexivity.
Qed.

(** C3 (what the code does instead). The recompute collects the counts in
    a plain object, and for an emoji that names a property every object
    inherits it stops with an exception, which it logs, before it sends the
    upsert. Message 1 has the reactions "constructor" of user 1 and thumbs
    up of user 2, and user 2 takes the thumbs up back: the call succeeds
    and the row is gone, and after the recompute of the call and one more
    recompute the stored aggregate still counts one thumbs up, of user 2,
    and has no entry for "constructor", which one row of the message
    carries. The last recompute has sent its select and no upsert. *)
Theorem updateReactionCounts_inherited_name :
  let called := removeReaction 1 2 thumbs_up (world store_with_word) in
  let final := updateReactionCounts 1 (snd called) in
  store_ok store_with_word = true
  ∧ fst called = Ok tt
  ∧ rows_for 1 thumbs_up (db (snd final)) = []
  ∧ aggregate 1 (db (snd final)) !! thumbs_up = Some {| count := 1; userIds := [2] |}
  ∧ map r_user_id (rows_for 1 "constructor" (db (snd final))) = [1]
  ∧ aggregate 1 (db (snd final)) !! "constructor" = None
  ∧ trace (snd final)
    = trace (snd called) ++ [{| verb := Select; table := "message_reactions" |}].
Proof. cbv zeta. split_and!; vm_compute; reflexivity. Qed.

(** User 1 is a participant of the conversation of message 1 and every
    request is served, and still the like is refused and the message row is
    as it was. *)
Example updateMessage_participant_refused :
  is_participant 1 1 store = true
  ∧ fst (updateMessage 1 1 [("isLiked", VBool true)] (world store)) = Err invalid_integer
  ∧ messages (db (snd (updateMessage 1 1 [("isLiked", VBool true)] (world store))))
    = messages store.
Proof. repeat split; vm_compute; reflexivity. Qed.

End ConversationFacts.

(** ** Properties of RealtimeService *)

Module RealtimeFacts.
Import RealtimeService.

(** *** The typing list *)

Lemma push_typing_elem self acc entry x :
  x ∈ push_typing self acc entry ↔
  x ∈ acc ∨ ∃ presence rest,
    snd entry = presence :: rest ∧ p_typing presence = true
    ∧ differs (p_userId presence) self = true
    ∧ x = {| tu_userId := p_userId presence; tu_username := p_username presence |}.
Proof.
  unfold push_typing. destruct (snd entry) as [|presence rest].
  - split; [auto | intros [H | (? & ? & ? & _)]; done].
  - destruct (p_typing presence) eqn:Ht, (differs (p_userId presence) self) eqn:Hd; simpl.
    + rewrite elem_of_app, list_elem_of_singleton. split.
      * intros [H | ->]; [auto | right; eauto 6].
      * intros [H | (p & r & Heq & _ & _ & ->)]; [auto | right; congruence].
    + split; [auto | intros [H | (p & r & Heq & _ & Hd' & _)]; [done | congruence]].
    + split; [auto | intros [H | (p & r & Heq & Ht' & _)]; [done | congruence]].
    + split; [auto | intros [H | (p & r & Heq & Ht' & _)]; [done | congruence]].
Qed.

Lemma fold_typing_elem self presenceState acc x :
  x ∈ fold_left (push_typing self) presenceState acc ↔
  x ∈ acc ∨ ∃ key presence rest,
    (key, presence :: rest) ∈ presenceState ∧ p_typing presence = true
    ∧ differs (p_userId presence) self = true
    ∧ x = {| tu_userId := p_userId presence; tu_username := p_username presence |}.
Proof.
  revert acc. induction presenceState as [|[key ps] st IH]; intros acc; simpl.
  - split; [auto | intros [H | (? & ? & ? & H & _)]; [done | by inversion H]].
  - rewrite IH, push_typing_elem. simpl. split.
    + intros [[H | (p & r & -> & Ht & Hd & ->)] | (k & p & r & Hin & H)].
      * auto.
      * right. exists key, p, r. split; [left | done].
      * right. exists k, p, r. split; [by right | done].
    + intros [H | (k & p & r & Hin & Ht & Hd & ->)]; [auto|].
      apply elem_of_cons in Hin as [Heq | Hin].
      * injection Heq as -> <-. left. right. eauto 6.
      * right. eauto 8.
Qed.

Lemma differs_spec n u : differs n u = true ↔ Some n ≠ u.
Proof.
  destruct u as [m|]; simpl; [|done].
  rewrite negb_true_iff, Z.eqb_neq. split; congruence.
Qed.

(** C9. On a sync event of a typing channel the callback of that channel is
    handed a list whose members are exactly the users whose presence record
    (the first one under their presence key) is marked typing and whose id
    is not the id the service was initialized with; so the local user's id
    is never in the list given to the local user's callback. *)
Theorem typing_sync_delivery ref presenceState s cb users :
  on_presence_sync ref presenceState s = Some (cb, users) →
  (∀ x, x ∈ users ↔
        ∃ key presence rest,
          (key, presence :: rest) ∈ presenceState
          ∧ p_typing presence = true
          ∧ Some (p_userId presence) ≠ userId (fst s)
          ∧ x = {| tu_userId := p_userId presence; tu_username := p_username presence |})
  ∧ (∀ u, userId (fst s) = Some u → ∀ x, x ∈ users → tu_userId x ≠ u)
  ∧ (∃ c conversationId, live (snd s) !! ref = Some c
                         ∧ handler c = OnTyping conversationId cb).
Proof.
  unfold on_presence_sync. intros H.
  destruct (live (snd s) !! ref) as [c|] eqn:Hc; [|done].
  destruct (handler c) eqn:Hh; try done. injection H as <- <-.
  assert (Hchar : ∀ x, x ∈ typingUsers (userId (fst s)) presenceState ↔
        ∃ key presence rest,
          (key, presence :: rest) ∈ presenceState
          ∧ p_typing presence = true
          ∧ Some (p_userId presence) ≠ userId (fst s)
          ∧ x = {| tu_userId := p_userId presence; tu_username := p_username presence |}).
  { intros x. unfold typingUsers. rewrite fold_typing_elem. split.
    - intros [H | (k & p & r & Hin & Ht & Hd & ->)]; [by apply elem_of_nil in H|].
      apply differs_spec in Hd. eauto 8.
    - intros (k & p & r & Hin & Ht & Hd & ->). right.
      apply differs_spec in Hd. eauto 8. }
  split; [done|]. split; [|eauto].
  intros u Hu x Hx. apply Hchar in Hx as (k & p & r & _ & _ & Hd & ->).
  simpl. congruence.
Qed.

(** *** sendTyping *)

(** *** The channel table *)

Lemma consistent_init : consistent init.
Proof. repeat split; simpl; intros; by rewrite ?lookup_empty in *. Qed.


Lemma unsubscribe_lookup name s :
  channels (fst (unsubscribe name s)) !! name = None.
Proof.
  unfold unsubscribe. destruct (channels (fst s) !! name) eqn:H; simpl; [|done].
  apply lookup_delete_eq.
Qed.

Lemma consistent_unsubscribe name s : consistent s → consistent (unsubscribe name s).
Proof.
  intros (Htab & Hlive & Hfresh). unfold unsubscribe.
  destruct (channels (fst s) !! name) as [ref|] eqn:Hname; [|done].
  destruct (Htab _ _ Hname) as (c & Hc & Htopic & _).
  repeat split; simpl.
  - intros name' ref' H. apply lookup_delete_Some in H as [Hne H].
    destruct (Htab _ _ H) as (c' & Hc' & Ht' & Hrest).
    exists c'. split; [|done]. rewrite lookup_delete_ne; [done|].
    intros ->. congruence.
  - intros ref' c' H. apply lookup_delete_Some in H as [Hne H].
    rewrite lookup_delete_ne; [by apply Hlive|].
    intros Heq. apply Hlive in H. rewrite <- Heq in H. congruence.
  - intros ref' Hle. rewrite lookup_delete_None. right. by apply Hfresh.
Qed.

(** Re-subscribing under a name: the table then holds the new channel,
    joined and with the new handler, and the channel it held before is gone
    from the client. *)
Lemma resubscribe_replaces name key h s :
  consistent s →
  let out := resubscribe name key h s in
  channels (fst (snd out)) !! name = Some (fst out)
  ∧ live (snd (snd out)) !! fst out
    = Some {| topic := name; presence_key := key; handler := h; joined := true |}
  ∧ (∀ old, channels (fst s) !! name = Some old →
            old ≠ fst out ∧ live (snd (snd out)) !! old = None).
Proof.
  intros Hs. pose proof (consistent_unsubscribe name s Hs) as (Htab & Hlive & Hfresh).
  unfold resubscribe, channel, subscribe. simpl. split; [apply lookup_insert_eq|].
  split.
  - rewrite lookup_alter_eq, lookup_insert_eq. done.
  - intros old Hold.
    assert (Hgone : live (snd (unsubscribe name s)) !! old = None).
    { unfold unsubscribe. rewrite Hold. simpl. apply lookup_delete_eq. }
    assert (Hlt : (old < next_ref (snd (unsubscribe name s)))%nat).
    { destruct Hs as (Htab0 & _ & Hfresh0).
      destruct (Htab0 _ _ Hold) as (c & Hc & _).
      destruct (decide (old < next_ref (snd s))%nat) as [Hlt | Hge].
      - unfold unsubscribe. by rewrite Hold.
      - rewrite Hfresh0 in Hc by lia. done. }
    split; [lia|]. rewrite lookup_alter_ne, lookup_insert_ne by lia. done.
Qed.

Lemma consistent_resubscribe name key h s :
  topic_of h = name → consistent s → consistent (snd (resubscribe name key h s)).
Proof.
  intros Hh Hs. pose proof (unsubscribe_lookup name s) as Hnone.
  pose proof (consistent_unsubscribe name s Hs) as (Htab & Hlive & Hfresh).
  unfold resubscribe, channel, subscribe. simpl.
  set (s1 := unsubscribe name s) in *.
  repeat split; simpl.
  - intros name' ref' H. apply lookup_insert_Some in H as [[<- <-] | [Hne H]].
    + eexists. rewrite lookup_alter_eq, lookup_insert_eq. simpl. eauto.
    + destruct (Htab _ _ H) as (c' & Hc' & Hrest). exists c'. split; [|done].
      assert (ref' ≠ next_ref (snd s1)).
      { intros ->. rewrite Hfresh in Hc'; [done | lia]. }
      by rewrite lookup_alter_ne, lookup_insert_ne.
  - intros ref' c' H. destruct (decide (ref' = next_ref (snd s1))) as [-> | Hne].
    + rewrite lookup_alter_eq, lookup_insert_eq in H. simpl in H.
      injection H as <-. simpl. apply lookup_insert_eq.
    + rewrite lookup_alter_ne, lookup_insert_ne in H by done.
      pose proof (Hlive _ _ H) as Hc'. rewrite lookup_insert_ne; [done|].
      intros Heq. rewrite <- Heq in Hc'. congruence.
  - intros ref' Hle. rewrite lookup_alter_ne, lookup_insert_ne by lia.
    apply Hfresh. lia.
Qed.

(** What [unsubscribeAll] leaves in the client: only channels that no
    entry of the table refers to. *)
Lemma removeChannel_fold_lookup (table : gmap string nat) sb r c :
  live (map_fold (fun _ ref sb => removeChannel ref sb) sb table) !! r = Some c →
  live sb !! r = Some c ∧ ∀ name, table !! name ≠ Some r.
Proof.
  revert r c.
  apply (map_fold_weak_ind
           (fun sb' (m : gmap string nat) =>
              ∀ r c, live sb' !! r = Some c →
                     live sb !! r = Some c ∧ ∀ name, m !! name ≠ Some r)).
  - intros r c H. split; [done|]. intros name. by rewrite lookup_empty.
  - intros name ref m sb' Hname IH r c H. simpl in H.
    apply lookup_delete_Some in H as [Hne H]. destruct (IH _ _ H) as [Hl Hm].
    split; [done|]. intros name' Hn.
    apply lookup_insert_Some in Hn as [[_ Heq] | [_ Hn]]; [congruence | by eapply Hm].
Qed.

Lemma unsubscribeAll_empties s :
  consistent s →
  channels (fst (unsubscribeAll s)) = ∅ ∧ live (snd (unsubscribeAll s)) = ∅.
Proof.
  intros (_ & Hlive & _). unfold unsubscribeAll. simpl. split; [done|].
  apply map_eq. intros r. rewrite lookup_empty.
  destruct (live (map_fold _ _ _) !! r) as [c|] eqn:Hc; [|done].
  apply removeChannel_fold_lookup in Hc as [Hc Hnone].
  exfalso. by apply (Hnone (topic c)), Hlive.
Qed.

Lemma consistent_unsubscribeAll s : consistent s → consistent (unsubscribeAll s).
Proof.
  intros Hs. destruct (unsubscribeAll_empties s Hs) as [Htab Hlive].
  repeat split.
  - intros name ref H. by rewrite Htab, lookup_empty in H.
  - intros ref c H. by rewrite Hlive, lookup_empty in H.
  - intros ref _. by rewrite Hlive, lookup_empty.
Qed.

Lemma consistent_sendTyping t c username isTyping s :
  consistent s → consistent (sendTyping t c username isTyping s).
Proof.
  intros Hs. unfold sendTyping. destruct (userId (fst s)) as [u|]; [|done].
  destruct (u =? 0); [done|]. by destruct (channels (fst s) !! _).
Qed.

Lemma consistent_call c s : consistent s → consistent (call c s).
Proof.
  intros Hs. destruct c; simpl.
  - done.
  - by apply consistent_resubscribe.
  - by apply consistent_resubscribe.
  - unfold subscribeToNotifications. destruct (userId (fst s)) as [u|] eqn:Hu; [|done].
    destruct (u =? 0); [done|].
    pose proof (consistent_resubscribe "notifications" None
                  (OnNotifications u cb) s eq_refl Hs) as H.
    by destruct (resubscribe _ _ _ s).
  - by apply consistent_resubscribe.
  - by apply consistent_resubscribe.
  - by apply consistent_resubscribe.
  - by apply consistent_sendTyping.
  - by apply consistent_unsubscribe.
  - by apply consistent_unsubscribeAll.
  - unfold cleanup. by apply consistent_unsubscribeAll in Hs.
Qed.

Lemma consistent_run calls s : consistent s → consistent (run calls s).
Proof.
  revert s. induction calls as [|c calls IH]; intros s Hs; [done|].
  simpl. apply IH. by apply consistent_call.
Qed.

Lemma reachable_consistent s : reachable s → consistent s.
Proof. intros [calls ->]. apply consistent_run, consistent_init. Qed.


(** C10. Without a user id, or without a channel under the typing name of
    the conversation in the table, [sendTyping] returns with the service and
    the client exactly as they were: nothing is published. And in the states
    the service reaches, a call that does publish appends one record, on the
    channel that [subscribeToTyping] opened for this conversation and that
    the table still holds, joined; nothing else changes. *)
Theorem sendTyping_noop lastTyped conversationId username isTyping s :
  let s' := sendTyping lastTyped conversationId username isTyping s in
  (no_user (userId (fst s)) = true
   ∨ channels (fst s) !! ("typing:" +:+ pretty conversationId) = None →
   s' = s)
  ∧ (reachable s →
     s' = s
     ∨ ∃ ref c cb u,
         channels (fst s) !! ("typing:" +:+ pretty conversationId) = Some ref
         ∧ live (snd s) !! ref = Some c ∧ joined c = true
         ∧ handler c = OnTyping conversationId cb
         ∧ userId (fst s) = Some u
         ∧ fst s' = fst s ∧ live (snd s') = live (snd s)
         ∧ published (snd s')
           = published (snd s)
             ++ [(ref, {| p_userId := u; p_username := username;
                          p_typing := isTyping; p_lastTyped := lastTyped |})]).
Proof.
  simpl. split.
  - unfold sendTyping, no_user. intros [H | H].
    + destruct (userId (fst s)) as [u|]; [|done]. by rewrite H.
    + destruct (userId (fst s)) as [u|]; [|done]. destruct (u =? 0); [done|].
      by rewrite H.
  - intros Hr. apply reachable_consistent in Hr as (Htab & _ & _).
    unfold sendTyping. destruct (userId (fst s)) as [u|] eqn:Hu; [|by left].
    destruct (u =? 0); [by left|].
    destruct (channels (fst s) !! _) as [ref|] eqn:Href; [|by left].
    right. destruct (Htab _ _ Href) as (c & Hc & _ & Hj & Hh).
    destruct (handler c) as [x cb|x cb|x cb|x cb|x cb|x cb] eqn:Hhandler;
      simpl in Hh; try discriminate.
    cbn [String.app] in Hh. injection Hh as Hh.
    change (pretty x = pretty conversationId) in Hh.
    apply (inj pretty) in Hh. subst x.
    exists ref, c, cb, u. by repeat split.
Qed.

(** *** The scenario, run *)

Import Scenario.

Lemma typing_sync_delivery_witness :
  on_presence_sync 0 both_typing listening
  = Some (0%nat, [{| tu_userId := 1; tu_username := "alice" |}])
  ∧ ∀ x, x ∈ [{| tu_userId := 1; tu_username := "alice" |}] → tu_userId x ≠ 2.
Proof.
  split; [reflexivity|].
  destruct (typing_sync_delivery 0 both_typing listening 0%nat
              [{| tu_userId := 1; tu_username := "alice" |}] eq_refl)
    as (_ & Hself & _).
  apply (Hself 2). reflexivity.
Defined.

(** C9, as stated, fails when a presence key holds more than one record:
    the handler reads the first record under each key only. User 1 is
    connected twice and the record of the second session is marked typing;
    the list handed to user 2 is empty. *)
Lemma typing_sync_delivery_counterexample :
  ¬ (∀ ref presenceState s cb users,
       on_presence_sync ref presenceState s = Some (cb, users) →
       ∀ key presences presence,
         (key, presences) ∈ presenceState → presence ∈ presences →
         p_typing presence = true →
         Some (p_userId presence) ≠ userId (fst s) →
         {| tu_userId := p_userId presence; tu_username := p_username presence |} ∈ users).
Proof.
  intros H.
  specialize (H 0%nat two_sessions listening 0%nat [] eq_refl
                "1" _ {| p_userId := 1; p_username := "alice";
                         p_typing := true; p_lastTyped := 4 |}
                ltac:(left) ltac:(right; left) eq_refl ltac:(discriminate)).
  by apply elem_of_nil in H.
Qed.

Lemma sendTyping_noop_witness :
  (no_user (userId (fst listening)) = true
   ∨ channels (fst listening) !! ("typing:" +:+ pretty 8) = None)
  ∧ reachable listening
  ∧ sendTyping 6 8 "bob" true listening = listening.
Proof.
  assert (H : no_user (userId (fst listening)) = true
              ∨ channels (fst listening) !! ("typing:" +:+ pretty 8) = None)
    by (right; reflexivity).
  split; [exact H|]. split; [eexists; reflexivity|].
  apply (sendTyping_noop 6 8 "bob" true listening). exact H.
Defined.

(** User 2 types in conversation 7, whose typing channel is open: the
    record goes out on that channel. *)
Example sendTyping_publishes :
  published (snd (sendTyping 6 7 "bob" true listening))
  = [(0%nat, {| p_userId := 2; p_username := "bob"; p_typing := true; p_lastTyped := 6 |})].
Proof. reflexivity. Qed.

(** The scenario of the channel table: 2 subscribes twice to the messages
    of conversation 7; the second channel is the one that stays. *)
Example subscribe_twice :
  let s := run [SubscribeToMessages 7 0%nat; SubscribeToMessages 7 1%nat] init in
  channels (fst s) !! "messages:7" = Some 1%nat
  ∧ live (snd s) !! 0%nat = None
  ∧ (handler <$> live (snd s) !! 1%nat) = Some (OnMessages 7 1%nat).
Proof. repeat split; reflexivity. Qed.

End RealtimeFacts.

(** ** Properties of the reading methods of ConversationService *)

Module ConversationQueryFacts.
Import Store Client ConversationService StoreReads ConversationQueries.
Import Notions ReadNotions Requests ListFacts ConversationFacts.

#[local] Instance earlier_total : Total earlier.
Proof. intros a b. unfold earlier. lia. Qed.
#[local] Instance earlier_trans : Transitive earlier.
Proof. intros a b c. unfold earlier. lia. Qed.
#[local] Instance later_total : Total later.
Proof. intros a b. unfold later. lia. Qed.
#[local] Instance later_trans : Transitive later.
Proof. intros a b c. unfold later. lia. Qed.

(** *** getMessages *)

(** X1. A participant whose two requests are served gets the messages of the
    conversation, each stored row once and no other, oldest first, and no
    error. *)
Theorem getMessages_in_order c u w :
  participants_ok (db w) = true → is_participant c u (db w) = true →
  lost 0 w = false → lost 1 w = false →
  ∃ msgs, fst (getMessages c u w) = (msgs, None)
          ∧ msgs ≡ₚ filter (fun m => msg_conversation_id m = c) (messages (db w))
          ∧ StronglySorted earlier msgs.
Proof.
  intros Hok Hp H0 H1. unfold getMessages, bind.
  pose proof (getConversationParticipants_world (VNum c) u w) as Hw.
  pose proof (getConversationParticipants_served c u w H0) as Hs.
  rewrite (participant_is_member _ _ _ Hok Hp) in Hs.
  destruct (getConversationParticipants (VNum c) u w) as [[ps err] w1].
  simpl in Hw, Hs. subst w1. injection Hs as -> ->.
  cbn [truthy]. rewrite (participant_is_member _ _ _ Hok Hp). cbn [negb].
  rewrite query_served by (by rewrite lost_sent).
  rewrite db_sent. unfold select_messages. cbn [error ok data default ret fst].
  eexists. split; [reflexivity|]. split.
  - apply merge_sort_Permutation.
  - apply StronglySorted_merge_sort; apply _.
Qed.

(** *** searchMessages *)

(** X2. A participant whose two requests are served gets the messages of the
    conversation whose content matches the pattern made of the query
    between two [%] signs, each such row once and no other, newest first.
    The query is used as it is given: it is neither trimmed nor checked for
    being empty. *)
Theorem searchMessages_matches (ilike : string → string → bool) c u q w :
  participants_ok (db w) = true → is_participant c u (db w) = true →
  lost 0 w = false → lost 1 w = false →
  ∃ found, fst (searchMessages ilike c u q w) = (found, None)
           ∧ found ≡ₚ filter (fun m => msg_conversation_id m = c
                                        ∧ ilike (msg_content m) ("%" +:+ q +:+ "%") = true)
                             (messages (db w))
           ∧ StronglySorted later found.
Proof.
  intros Hok Hp H0 H1. unfold searchMessages, bind.
  pose proof (getConversationParticipants_world (VNum c) u w) as Hw.
  pose proof (getConversationParticipants_served c u w H0) as Hs.
  rewrite (participant_is_member _ _ _ Hok Hp) in Hs.
  destruct (getConversationParticipants (VNum c) u w) as [[ps err] w1].
  simpl in Hw, Hs. subst w1. injection Hs as -> ->.
  cbn [truthy]. rewrite (participant_is_member _ _ _ Hok Hp). cbn [negb].
  rewrite query_served by (by rewrite lost_sent).
  rewrite db_sent. unfold search_messages. cbn [error ok data default ret fst].
  eexists. split; [reflexivity|]. split.
  - apply merge_sort_Permutation.
  - apply StronglySorted_merge_sort; apply _.
Qed.

(** *** Who is refused *)

Lemma outsider_refused c u w :
  is_participant c u (db w) = false →
  ∃ msg, fst (getConversationParticipants (VNum c) u w) = ([], Some msg)
         ∧ truthy (Some msg) = true.
Proof.
  intros Hp. destruct (lost 0 w) eqn:H0.
  - rewrite getConversationParticipants_lost by done. by eexists.
  - rewrite getConversationParticipants_served by done.
    rewrite (outsider_not_member _ _ _ Hp). by eexists.
Qed.

(** X3. A user without a participant row in a conversation reads nothing of it:
    the messages, a search in them, the conversation with its participants
    and the reactions to its messages all come back as an error with an
    empty payload, whether or not the requests get through. *)
Theorem readers_refuse_outsiders (ilike : string → string → bool) c u q w :
  is_participant c u (db w) = false →
  (∃ msg, fst (getMessages c u w) = ([], Some msg))
  ∧ (∃ msg, fst (searchMessages ilike c u q w) = ([], Some msg))
  ∧ (∃ msg, fst (getConversation c u w) = Err msg)
  ∧ (∀ m, conversation_of m (db w) = Some c →
          ∃ msg, fst (getMessageReactions m u w) = ([], Some msg)).
Proof.
  intros Hp. repeat split.
  - unfold getMessages, bind.
    destruct (outsider_refused c u w Hp) as (msg & Hr & Ht).
    destruct (getConversationParticipants (VNum c) u w) as [[ps err] w1].
    simpl in Hr. injection Hr as -> ->. rewrite Ht. by exists msg.
  - unfold searchMessages, bind.
    destruct (outsider_refused c u w Hp) as (msg & Hr & Ht).
    destruct (getConversationParticipants (VNum c) u w) as [[ps err] w1].
    simpl in Hr. injection Hr as -> ->. rewrite Ht. by exists msg.
  - unfold getConversation, bind.
    destruct (query_cases {| verb := Select; table := "conversations" |}
                (select_conversation c) w) as [H | H]; rewrite H; [|by eexists].
    destruct (error (select_conversation c (db w))); [by eexists|].
    destruct (data (select_conversation c (db w))); [|by eexists].
    match goal with |- context [query ?r ?f ?w'] =>
      destruct (query_cases r f w') as [H' | H']; rewrite H' end; [|by eexists].
    rewrite db_sent. cbn [select_participant_users error ok data default].
    unfold Datatypes.id. rewrite (outsider_not_member _ _ _ Hp). by eexists.
  - intros m Hc. unfold getMessageReactions, bind.
    destruct (conversation_of_message _ _ _ Hc) as (message & Hm & <-).
    destruct (query_cases {| verb := Select; table := "messages" |}
                (select_message m) w) as [H | H]; rewrite H; [|by eexists].
    rewrite Hm. cbn [error ok data].
    change (prop (message_json message) "conversation_id")
      with (VNum (msg_conversation_id message)).
    match goal with |- context [getConversationParticipants ?v u ?w'] =>
      destruct (outsider_refused (msg_conversation_id message) u w') as (msg & Hr & Ht);
        [by rewrite db_sent|];
      destruct (getConversationParticipants v u w') as [[ps err] w2] end.
    simpl in Hr. injection Hr as -> ->. rewrite Ht. by exists msg.
Qed.

(** *** The reading methods only read *)

Lemma reads_only_ret {A} (a : A) : reads_only (ret a).
Proof. intros w. split; [done|]. exists []. by rewrite app_nil_r. Qed.

Lemma reads_only_bind {A B} (c : M A) (k : A → M B) :
  reads_only c → (∀ a, reads_only (k a)) → reads_only (bind c k).
Proof.
  intros Hc Hk w. unfold bind. destruct (Hc w) as (Hdb & rs & Htr & Hrs).
  destruct (c w) as [a w1]. simpl in *.
  destruct (Hk a w1) as (Hdb' & rs' & Htr' & Hrs').
  split; [congruence|]. exists (rs ++ rs').
  rewrite Htr', Htr, app_assoc. split; [done | by apply Forall_app].
Qed.

Lemma reads_only_query {A} (r : Request) (read : Store → Resp A) :
  verb r = Select → reads_only (query r read).
Proof.
  intros Hr w. rewrite query_world. split; [done|]. exists [r]. split; [done|].
  by constructor.
Qed.

Ltac reading :=
  repeat first
    [ match goal with
      | |- reads_only (ret _) => apply reads_only_ret
      | |- reads_only (bind _ _) => apply reads_only_bind; [| intros ?]
      | |- reads_only (query _ _) => apply reads_only_query; reflexivity
      | |- reads_only (let x := _ in _) => cbv zeta
      | |- reads_only (match ?x with _ => _ end) => destruct x
      | |- reads_only (if ?b then _ else _) => destruct b
      | |- reads_only (let '(_, _) := ?x in _) => destruct x
      end ].

Lemma reads_only_getConversationParticipants v u :
  reads_only (getConversationParticipants v u).
Proof. unfold getConversationParticipants. reading. Qed.

Lemma reads_only_conversation_entry u c : reads_only (conversation_entry u c).
Proof. unfold conversation_entry. reading. Qed.

Lemma reads_only_conversation_entries u cs : reads_only (conversation_entries u cs).
Proof.
  induction cs as [|c cs IH]; simpl; [apply reads_only_ret|].
  apply reads_only_bind; [apply reads_only_conversation_entry | intros e].
  apply reads_only_bind; [apply IH | intros es]. apply reads_only_ret.
Qed.

(** X5. None of the reading methods of the service changes the store, whatever
    the outcome: every request they send is a select. *)
Theorem readers_only_select (ilike : string → string → bool) c m u q :
  reads_only (getUserConversations u)
  ∧ reads_only (getConversation c u)
  ∧ reads_only (getConversationParticipants (VNum c) u)
  ∧ reads_only (getMessages c u)
  ∧ reads_only (getMessageReactions m u)
  ∧ reads_only (searchMessages ilike c u q).
Proof.
  split_and!.
  - unfold getUserConversations. reading; apply reads_only_conversation_entries.
  - unfold getConversation. reading.
  - apply reads_only_getConversationParticipants.
  - unfold getMessages. reading; apply reads_only_getConversationParticipants.
  - unfold getMessageReactions. reading; apply reads_only_getConversationParticipants.
  - unfold searchMessages. reading; apply reads_only_getConversationParticipants.
Qed.

(** *** getUserConversations *)

Lemma joined_users_elem usr c st :
  usr ∈ joined_users c st ↔
  ∃ p, p ∈ conversation_participants st ∧ cp_conversation_id p = c
       ∧ usr ∈ users st ∧ u_id usr = cp_user_id p.
Proof.
  unfold joined_users. rewrite list_elem_of_In, in_flat_map. split.
  - intros (p & Hp & Hu).
    apply list_elem_of_In, list_elem_of_filter in Hp as [Hc Hp].
    apply list_elem_of_In, list_elem_of_filter in Hu as [Hk Hu]. by exists p.
  - intros (p & Hp & Hc & Hu & Hk). exists p.
    split; apply list_elem_of_In, list_elem_of_filter; auto.
Qed.

Lemma head_latest c st m :
  head (merge_sort later (filter (fun m => msg_conversation_id m = c) (messages st)))
  = Some m →
  latest_of c st m.
Proof.
  intros Hh.
  pose proof (merge_sort_Permutation later
                (filter (fun m => msg_conversation_id m = c) (messages st))) as Hp.
  pose proof (StronglySorted_merge_sort later
                (filter (fun m => msg_conversation_id m = c) (messages st))) as Hs.
  destruct (merge_sort later _) as [|x l]; [done|]. simpl in Hh. injection Hh as ->.
  assert (Hin : ∀ m', m' ∈ m :: l ↔ m' ∈ messages st ∧ msg_conversation_id m' = c).
  { intros m'. rewrite Hp, list_elem_of_filter. tauto. }
  unfold latest_of. split_and!.
  - apply Hin. left.
  - apply Hin. left.
  - intros m' Hm' Hc. assert (H : m' ∈ m :: l) by (by apply Hin).
    apply elem_of_cons in H as [-> | H]; [lia|].
    apply StronglySorted_inv in Hs as [_ Hall].
    rewrite Forall_forall in Hall. by apply Hall.
Qed.

Lemma single_take_head {A} (l : list A) x :
  data (single (take 1 l)) = Some x → head l = Some x.
Proof. destruct l as [|y [|z l]]; simpl; congruence. Qed.

Lemma single_filter_elem {A} (P : A → Prop) `{!∀ x, Decision (P x)} (l : list A) x :
  data (single (filter P l)) = Some x → x ∈ l ∧ P x.
Proof.
  intros Hd. assert (Hin : x ∈ filter P l).
  { destruct (filter P l) as [|y [|z l']]; simpl in Hd; try done.
    injection Hd as ->. left. }
  apply list_elem_of_filter in Hin. tauto.
Qed.

Lemma conversation_entry_sound u c w e :
  fst (conversation_entry u c w) = Some e →
  conversation e ∈ conversations (db w) ∧ conv_id (conversation e) = c
  ∧ (∃ usr, usr ∈ joined_users c (db w) ∧ u_id usr ≠ u
            ∧ participant e = convertDbUserToUser usr)
  ∧ ∀ m, lastMessage e = Some m → latest_of c (db w) m.
Proof.
  unfold conversation_entry, bind.
  destruct (query_cases {| verb := Select; table := "conversations" |}
              (select_conversation c) w) as [H | H]; rewrite H; [|done].
  destruct (error (select_conversation c (db w))) eqn:He; [done|].
  destruct (data (select_conversation c (db w))) as [row|] eqn:Hd; [|done].
  apply single_filter_elem in Hd as [Hrow Hid].
  match goal with |- context [query ?r ?f ?w'] =>
    destruct (query_cases r f w') as [H' | H']; rewrite H' end; [|done].
  rewrite db_sent. cbn [select_participant_users error ok data].
  destruct (filter (fun p => u_id p ≠ u) (joined_users c (db w))) as [|usr rest] eqn:Hf;
    [done|].
  assert (Husr : usr ∈ joined_users c (db w) ∧ u_id usr ≠ u).
  { assert (Hin : usr ∈ filter (fun p => u_id p ≠ u) (joined_users c (db w)))
      by (rewrite Hf; left).
    apply list_elem_of_filter in Hin. tauto. }
  cbn [map].
  match goal with |- context [query ?r ?f ?w'] =>
    destruct (query_cases r f w') as [H'' | H'']; rewrite H'' end;
    cbn [ret fst]; intros [= <-]; cbn [conversation participant lastMessage].
  - destruct Husr. split_and!; [done | done | by exists usr |].
    intros m Hm. unfold select_last_message in Hm.
    by apply head_latest, single_take_head.
  - destruct Husr. split_and!; [done | done | by exists usr | done].
Qed.

Lemma conversation_entries_sound u cs w e :
  e ∈ fst (conversation_entries u cs w) →
  ∃ c, c ∈ cs
       ∧ conversation e ∈ conversations (db w) ∧ conv_id (conversation e) = c
       ∧ (∃ usr, usr ∈ joined_users c (db w) ∧ u_id usr ≠ u
                 ∧ participant e = convertDbUserToUser usr)
       ∧ ∀ m, lastMessage e = Some m → latest_of c (db w) m.
Proof.
  revert w. induction cs as [|c cs IH]; intros w; simpl; [by rewrite elem_of_nil|].
  unfold bind.
  pose proof (conversation_entry_sound u c w) as Hhead.
  destruct (reads_only_conversation_entry u c w) as [Hdb _].
  destruct (conversation_entry u c w) as [entry w1]. simpl in Hhead, Hdb.
  specialize (IH w1). rewrite Hdb in IH.
  destruct (conversation_entries u cs w1) as [results w2]. simpl in IH |- *.
  intros Hin.
  assert (Hcases : entry = Some e ∨ e ∈ results).
  { destruct entry; [|by right]. apply elem_of_cons in Hin as [-> | Hin]; auto. }
  destruct Hcases as [-> | Hr].
  - exists c. split; [left | by apply Hhead].
  - destruct (IH Hr) as (c' & Hc' & Hrest). exists c'. split; [by right | done].
Qed.

(** X6. Every entry that [getUserConversations] returns for a user is about a
    conversation of the store in which the user has a participant row; the
    participant it names is a stored user other than the caller with a
    participant row in that conversation; and its last message, when it has
    one, is a message of that conversation than which none is more recent.
    This holds whichever of the requests get through. *)
Theorem getUserConversations_entries u w :
  Forall (fun e =>
            conversation e ∈ conversations (db w)
            ∧ is_participant (conv_id (conversation e)) u (db w) = true
            ∧ id (participant e) ≠ u
            ∧ is_participant (conv_id (conversation e)) (id (participant e)) (db w) = true
            ∧ (∃ usr, usr ∈ users (db w) ∧ participant e = convertDbUserToUser usr)
            ∧ ∀ m, lastMessage e = Some m → latest_of (conv_id (conversation e)) (db w) m)
         (fst (fst (getUserConversations u w))).
Proof.
  unfold getUserConversations, bind.
  destruct (query_cases {| verb := Select; table := "conversation_participants" |}
              (select_participations u) w) as [H | H]; rewrite H; [|by constructor].
  cbn [select_participations error ok data].
  destruct (map cp_conversation_id _) as [|c0 cs0] eqn:Hcs; [by constructor|].
  rewrite <- Hcs.
  match goal with |- context [conversation_entries u ?cs ?w'] =>
    pose proof (fun e => conversation_entries_sound u cs w' e) as Hs;
    destruct (conversation_entries u cs w') as [results w2] end.
  cbn [ret fst snd] in *. rewrite db_sent in Hs.
  apply Forall_forall. intros e He.
  destruct (Hs e He) as (c & Hc & Hrow & Hid & (usr & Hj & Hne & Hp) & Hlast).
  apply list_elem_of_fmap in Hc as (p & -> & Hc).
  apply list_elem_of_filter in Hc as [Hu Hc].
  apply joined_users_elem in Hj as (p' & Hp' & Hc' & Husr & Hk).
  rewrite Hid, Hp. cbn [id convertDbUserToUser]. split_and!; try done.
  - apply is_participant_row. by exists p.
  - apply is_participant_row. exists p'. by rewrite Hk.
  - by exists usr.
Qed.

Lemma filter_key {A} (f : A → Z) (l : list A) x :
  NoDup (map f l) → x ∈ l → filter (fun y => f y = f x) l = [x].
Proof.
  induction l as [|y l IH]; intros Hnd Hin; [by apply elem_of_nil in Hin|].
  simpl in Hnd. apply NoDup_cons in Hnd as [Hnotin Hnd].
  rewrite filter_cons. apply elem_of_cons in Hin as [-> | Hin].
  - rewrite decide_True by done. f_equal. apply filter_none, Forall_forall.
    intros z Hz Heq. apply Hnotin. rewrite <- Heq. apply list_elem_of_fmap. eauto.
  - rewrite decide_False; [by apply IH|].
    intros Heq. apply Hnotin. rewrite Heq. apply list_elem_of_fmap. eauto.
Qed.

Lemma store_ok_keys st : store_ok st = true → keys_ok st = true.
Proof. unfold store_ok. rewrite !andb_true_iff. tauto. Qed.

Lemma participant_conversation st p :
  store_ok st = true → p ∈ conversation_participants st →
  ∃ row, select_conversation (cp_conversation_id p) st = ok row
         ∧ conv_id row = cp_conversation_id p.
Proof.
  intros Hok Hp. pose proof (store_ok_keys _ Hok) as Hk.
  pose proof (store_ok_participants _ Hok) as Hps.
  unfold keys_ok in Hk. rewrite !andb_true_iff in Hk.
  destruct Hk as [[[_ Hnd] _] _]. apply bool_decide_eq_true in Hnd.
  unfold participants_ok in Hps. apply andb_true_iff in Hps as [_ Hfk].
  rewrite forallb_forall in Hfk. apply list_elem_of_In, Hfk in Hp.
  apply andb_true_iff in Hp as [Hc _]. apply bool_decide_eq_true in Hc.
  apply list_elem_of_fmap in Hc as (row & Hid & Hrow).
  exists row. split; [|done]. unfold select_conversation.
  rewrite Hid. by rewrite (filter_key conv_id _ row Hnd Hrow).
Qed.

Lemma calm_query {A} r (read : Store → Resp A) : calm (query r read).
Proof. apply calm_mutate. Qed.

Lemma calm_conversation_entry u c : calm (conversation_entry u c).
Proof.
  unfold conversation_entry.
  repeat first
    [ apply calm_ret | apply calm_query
    | match goal with
      | |- calm (bind _ _) => apply calm_bind; [| intros ?]
      | |- calm (let x := _ in _) => cbv zeta
      | |- calm (match ?x with _ => _ end) => destruct x
      end ].
Qed.

Lemma conversation_entry_served u c w row :
  lost 0 w = false → lost 1 w = false →
  select_conversation c (db w) = ok row → has_company c u (db w) →
  participants_ok (db w) = true →
  ∃ e, fst (conversation_entry u c w) = Some e ∧ conversation e = row.
Proof.
  intros H0 H1 Hrow (p & Hp & Hc & Hne) Hok. unfold conversation_entry, bind.
  rewrite query_served by done. rewrite Hrow. cbn [error ok data].
  rewrite query_served by (by rewrite lost_sent).
  rewrite db_sent. cbn [select_participant_users error ok data].
  destruct (participants_ok_user _ p Hok Hp) as (usr & Husr & Hk).
  assert (Hin : usr ∈ filter (fun p => u_id p ≠ u) (joined_users c (db w))).
  { apply list_elem_of_filter. split; [congruence|].
    apply joined_users_elem. by exists p. }
  destruct (filter (fun p => u_id p ≠ u) (joined_users c (db w))) as [|usr' rest];
    [by apply elem_of_nil in Hin|].
  cbn [map]. unfold bind.
  match goal with |- context [query ?r ?f ?w'] => destruct (query r f w') as [last w3] end.
  eexists. split; reflexivity.
Qed.

Lemma conversation_entries_complete u c cs w :
  faults w = [] → store_ok (db w) = true →
  c ∈ cs → (∀ c', c' ∈ cs → is_participant c' u (db w) = true) →
  has_company c u (db w) →
  ∃ e, e ∈ fst (conversation_entries u cs w) ∧ conv_id (conversation e) = c.
Proof.
  revert w. induction cs as [|c0 cs IH]; intros w Hf Hok Hin Hall Hco;
    [by apply elem_of_nil in Hin|].
  simpl. unfold bind.
  pose proof (calm_conversation_entry u c0 w Hf) as Hf1.
  destruct (reads_only_conversation_entry u c0 w) as [Hdb _].
  destruct (decide (c0 = c)) as [-> | Hne].
  - assert (Hp : is_participant c u (db w) = true) by (apply Hall; left).
    apply is_participant_row in Hp as (p & Hp & Hc & Hu).
    destruct (participant_conversation _ p Hok Hp) as (row & Hrow & Hid).
    rewrite Hc in Hrow, Hid.
    destruct (conversation_entry_served u c w row) as (e & He & Hce);
      [by apply served_all | by apply served_all | done | done
      | by apply store_ok_participants |].
    destruct (conversation_entry u c w) as [entry w1]. simpl in He. subst entry.
    destruct (conversation_entries u cs w1) as [results w2]. simpl.
    exists e. split; [left | congruence].
  - destruct (conversation_entry u c0 w) as [entry w1]. simpl in Hf1, Hdb.
    destruct (IH w1) as (e & He & Hid); try (rewrite Hdb); try done.
    { apply elem_of_cons in Hin as [-> | Hin]; done. }
    { intros c' Hc'. apply Hall. by right. }
    destruct (conversation_entries u cs w1) as [results w2]. simpl in *.
    exists e. split; [|done]. destruct entry; [by right | done].
Qed.

(** X7. When every request is served and the store keeps its keys and foreign
    keys, [getUserConversations] misses no conversation: each conversation
    in which the user and somebody else have a participant row has an entry
    in the result, and no error is reported. *)
Theorem getUserConversations_complete u c w :
  faults w = [] → store_ok (db w) = true →
  is_participant c u (db w) = true → has_company c u (db w) →
  snd (fst (getUserConversations u w)) = None
  ∧ ∃ e, e ∈ fst (fst (getUserConversations u w)) ∧ conv_id (conversation e) = c.
Proof.
  intros Hf Hok Hp Hco. unfold getUserConversations, bind.
  rewrite query_served by (by apply served_all).
  cbn [select_participations error ok data].
  assert (Hin : c ∈ map cp_conversation_id
                  (filter (fun p => cp_user_id p = u) (conversation_participants (db w)))).
  { apply is_participant_row in Hp as (p & Hp & Hc & Hu).
    apply list_elem_of_fmap. exists p. split; [done|]. by apply list_elem_of_filter. }
  assert (Hall : ∀ c', c' ∈ map cp_conversation_id
                    (filter (fun p => cp_user_id p = u) (conversation_participants (db w)))
                  → is_participant c' u (db w) = true).
  { intros c' Hc'. apply list_elem_of_fmap in Hc' as (p & -> & Hc').
    apply list_elem_of_filter in Hc' as [Hu Hc']. apply is_participant_row. by exists p. }
  destruct (map cp_conversation_id _) as [|c0 cs0] eqn:Hcs;
    [by apply elem_of_nil in Hin|].
  rewrite <- Hcs in *.
  match goal with |- context [conversation_entries u ?cs ?w'] =>
    destruct (conversation_entries_complete u c cs w') as (e & He & Hid);
      [by apply served_all_sent | by rewrite db_sent | done
      | by rewrite db_sent | by rewrite db_sent |];
    destruct (conversation_entries u cs w') as [results w2] end.
  cbn [ret fst snd] in *. split; [done|]. by exists e.
Qed.

(** *** getMessageReactions *)

Lemma user_of_key st k :
  NoDup (map u_id (users st)) → k ∈ map u_id (users st) →
  ∃ usr, filter (fun x => u_id x = k) (users st) = [usr] ∧ u_id usr = k.
Proof.
  intros Hnd Hin. apply list_elem_of_fmap in Hin as (usr & -> & Hin).
  exists usr. split; [by apply (filter_key u_id) | done].
Qed.

Lemma reactions_with_users st (rows : list ReactionRow) :
  NoDup (map u_id (users st)) →
  Forall (fun r => r_user_id r ∈ map u_id (users st)) rows →
  map (fun s => (rs_emoji s, rs_userId s))
      (map summary
           (flat_map (fun r => map (pair r)
                                   (filter (fun x => u_id x = r_user_id r) (users st)))
                     rows))
  = map (fun r => (r_emoji r, r_user_id r)) rows.
Proof.
  intros Hnd. induction 1 as [|r rows Hr _ IH]; [done|].
  cbn [flat_map]. rewrite !map_app, IH.
  destruct (user_of_key st (r_user_id r) Hnd Hr) as (usr & -> & Hk).
  cbn. by rewrite Hk.
Qed.

Lemma getMessageReactions_served m u c w :
  participants_ok (db w) = true →
  conversation_of m (db w) = Some c →
  is_participant c u (db w) = true →
  lost 0 w = false → lost 1 w = false → lost 2 w = false →
  fst (getMessageReactions m u w)
  = (map summary (default [] (data (select_reactions_with_users m (db w)))), None).
Proof.
  intros Hok Hc Hp H0 H1 H2. unfold getMessageReactions, bind.
  destruct (conversation_of_message _ _ _ Hc) as (message & Hm & <-).
  rewrite query_served by done. rewrite Hm. cbn [error ok data].
  change (prop (message_json message) "conversation_id")
    with (VNum (msg_conversation_id message)).
  pose proof (participant_is_member _ _ _ Hok Hp) as Hmem.
  match goal with |- context [getConversationParticipants ?v u ?w'] =>
    pose proof (getConversationParticipants_world v u w') as Hw;
    pose proof (getConversationParticipants_served (msg_conversation_id message) u w') as Hs;
    destruct (getConversationParticipants v u w') as [[ps err] w2] end.
  rewrite lost_sent, db_sent, Hmem in Hs. specialize (Hs H1).
  cbn [fst snd] in Hw, Hs. subst w2. injection Hs as -> ->.
  cbn [truthy]. rewrite Hmem. cbn [negb].
  rewrite query_served by (by rewrite !lost_sent).
  by rewrite !db_sent.
Qed.

Lemma summaries_pairs m st :
  store_ok st = true →
  map (fun s => (rs_emoji s, rs_userId s))
      (map summary (default [] (data (select_reactions_with_users m st))))
  = default [] (data (select_reactions m st)).
Proof.
  intros Hok.
  cbn [select_reactions_with_users select_reactions ok data default from_option].
  unfold Datatypes.id. apply reactions_with_users.
  - pose proof (store_ok_keys _ Hok) as Hk. unfold keys_ok in Hk.
    rewrite !andb_true_iff in Hk. destruct Hk as [[[Hnd _] _] _].
    by apply bool_decide_eq_true in Hnd.
  - pose proof (store_ok_reactions _ Hok) as Hr. unfold reactions_ok in Hr.
    apply andb_true_iff in Hr as [_ Hfk]. rewrite forallb_forall in Hfk.
    apply Forall_forall. intros r Hin. apply list_elem_of_filter in Hin as [_ Hin].
    apply list_elem_of_In, Hfk, andb_true_iff in Hin as [_ Hin].
    by apply bool_decide_eq_true in Hin.
Qed.

(** X8. A participant of the message's conversation, with the store's keys
    in place and the three requests served, gets one summary for every
    reaction row of the message: the (emoji, user) pairs of the summaries
    are those of the reaction rows of the message, each row once, in
    whatever order the store returns them. *)
Theorem getMessageReactions_participant m u c w :
  store_ok (db w) = true →
  conversation_of m (db w) = Some c →
  is_participant c u (db w) = true →
  lost 0 w = false → lost 1 w = false → lost 2 w = false →
  ∃ summaries,
    fst (getMessageReactions m u w) = (summaries, None)
    ∧ map (fun s => (rs_emoji s, rs_userId s)) summaries
      ≡ₚ map (fun r => (r_emoji r, r_user_id r))
             (filter (fun r => r_message_id r = m) (message_reactions (db w))).
Proof.
  intros Hok Hc Hp H0 H1 H2.
  exists (map summary (default [] (data (select_reactions_with_users m (db w))))).
  split.
  - apply (getMessageReactions_served m u c w); try done.
    by apply store_ok_participants.
  - by rewrite summaries_pairs.
Qed.

(** *** The scenario, run *)

Import Scenario Walkthrough.

Lemma getMessages_in_order_witness :
  participants_ok (db (world chat)) = true
  ∧ is_participant 1 1 (db (world chat)) = true
  ∧ ∃ msgs, fst (getMessages 1 1 (world chat)) = (msgs, None)
            ∧ msgs ≡ₚ filter (fun m => msg_conversation_id m = 1) (messages chat)
            ∧ StronglySorted earlier msgs.
Proof.
  do 2 (split; [vm_compute; reflexivity|]).
  apply (getMessages_in_order 1 1 (world chat)); vm_compute; reflexivity.
Defined.

(** The three messages of the conversation, oldest first. *)
Example getMessages_chat :
  fst (getMessages 1 1 (world chat))
  = ([message 1 1 1 "hi" 1; message 3 1 1 "see you" 4; message 2 1 2 "see you at nine" 9],
     None).
Proof. vm_compute. reflexivity. Qed.

Lemma searchMessages_matches_witness :
  participants_ok (db (world chat)) = true
  ∧ is_participant 1 2 (db (world chat)) = true
  ∧ ∃ found, fst (searchMessages contains 1 2 "you" (world chat)) = (found, None)
             ∧ found ≡ₚ filter (fun m => msg_conversation_id m = 1
                                          ∧ contains (msg_content m) "%you%" = true)
                               (messages chat)
             ∧ StronglySorted later found.
Proof.
  do 2 (split; [vm_compute; reflexivity|]).
  apply (searchMessages_matches contains 1 2 "you" (world chat)); vm_compute; reflexivity.
Defined.

(** The two messages that contain the query, newest first. *)
Example searchMessages_chat :
  fst (searchMessages contains 1 2 "you" (world chat))
  = ([message 2 1 2 "see you at nine" 9; message 3 1 1 "see you" 4], None).
Proof. vm_compute. reflexivity. Qed.

Lemma readers_refuse_outsiders_witness :
  is_participant 1 3 (db (world store)) = false
  ∧ (∃ msg, fst (getMessages 1 3 (world store)) = ([], Some msg))
  ∧ (∃ msg, fst (getConversation 1 3 (world store)) = Err msg).
Proof.
  split; [vm_compute; reflexivity|].
  destruct (readers_refuse_outsiders contains 1 3 "hi" (world store))
    as (Hmessages & _ & Hconversation & _); [vm_compute; reflexivity|].
  split; [exact Hmessages | exact Hconversation].
Defined.

Lemma getUserConversations_complete_witness :
  store_ok (db (world chat)) = true
  ∧ is_participant 1 1 (db (world chat)) = true
  ∧ has_company 1 1 (db (world chat))
  ∧ snd (fst (getUserConversations 1 (world chat))) = None
  ∧ ∃ e, e ∈ fst (fst (getUserConversations 1 (world chat)))
         ∧ conv_id (conversation e) = 1.
Proof.
  assert (Hcompany : has_company 1 1 (db (world chat))).
  { exists {| cp_id := 2; cp_conversation_id := 1; cp_user_id := 2; cp_joined_at := 0 |}.
    split; [apply (bool_decide_unpack _); vm_compute; exact I|].
    split; [reflexivity | discriminate]. }
  do 2 (split; [vm_compute; reflexivity|]). split; [exact Hcompany|].
  apply (getUserConversations_complete 1 1 (world chat));
    [reflexivity | vm_compute; reflexivity | vm_compute; reflexivity | exact Hcompany].
Defined.

(** For alice, the one conversation, with bob and its latest message. *)
Example getUserConversations_chat :
  fst (getUserConversations 1 (world chat))
  = ([{| conversation := {| conv_id := 1; conv_created_at := 0; conv_updated_at := 0 |};
         participant := convertDbUserToUser (user 2 "bob");
         lastMessage := Some (message 2 1 2 "see you at nine" 9) |}], None).
Proof. vm_compute. reflexivity. Qed.

Lemma getMessageReactions_participant_witness :
  store_ok (db (world store)) = true
  ∧ conversation_of 1 (db (world store)) = Some 1
  ∧ is_participant 1 1 (db (world store)) = true
  ∧ ∃ summaries,
      fst (getMessageReactions 1 1 (world store)) = (summaries, None)
      ∧ map (fun s => (rs_emoji s, rs_userId s)) summaries ≡ₚ [(thumbs_up, 2)].
Proof.
  do 3 (split; [vm_compute; reflexivity|]).
  apply (getMessageReactions_participant 1 1 1 (world store)); vm_compute; reflexivity.
Defined.

End ConversationQueryFacts.

(** ** More on the writing methods of ConversationService *)

Module ConversationWriteFacts.
Import Store Client ConversationService StoreReads ConversationQueries.
Import Notions ReadNotions Requests ListFacts ConversationFacts ConversationQueryFacts.

(** *** createConversation, when it goes through *)

Lemma number_participants_joined (usrs : list UserRow) next t c ids :
  NoDup (map u_id usrs) → Forall (fun u => u ∈ map u_id usrs) ids →
  map u_id
      (flat_map (fun p => filter (fun x => u_id x = cp_user_id p) usrs)
                (filter (fun p => cp_conversation_id p = c)
                        (number_participants next t (map (fun u => (c, u)) ids))))
  = ids.
Proof.
  intros Hnd Hall. revert next. induction Hall as [|u ids Hu _ IH]; intros next; [done|].
  cbn [map number_participants]. rewrite filter_cons. cbn [cp_conversation_id].
  rewrite decide_True by done. cbn [flat_map cp_user_id]. rewrite map_app, IH.
  apply list_elem_of_fmap in Hu as (usr & -> & Hin).
  by rewrite (filter_key u_id usrs usr Hnd Hin).
Qed.

Lemma accepted_participants ids t st :
  store_ok st = true → NoDup ids → Forall (fun u => u ∈ map u_id (users st)) ids →
  let row := {| conv_id := next_conversation_id st;
                conv_created_at := t; conv_updated_at := t |} in
  let st1 := snd (insert_conversation t st) in
  insert_participants (participantInserts row ids) t st1
  = (ok tt,
     set_participants
       (conversation_participants st
          ++ number_participants (next_participant_id st) t
               (map (fun u => (next_conversation_id st, u)) ids))
       (next_participant_id st + Z.of_nat (length (map (fun u => (next_conversation_id st, u)) ids)))
       st1).
Proof.
  intros Hok Hnd Hall row st1. unfold insert_participants.
  rewrite parse_participantInserts. cbn [conv_id row].
  destruct (store_ok_fresh_conversation st Hok) as (_ & Hfresh & _).
  assert (Hfk : forallb (fun p => bool_decide (fst p ∈ map conv_id (conversations st1))
                                  && bool_decide (snd p ∈ map u_id (users st1)))
                        (map (fun u => (next_conversation_id st, u)) ids) = true).
  { apply forallb_forall. intros p Hp. apply in_map_iff in Hp as (u & <- & Hu).
    cbn [fst snd]. apply andb_true_iff. split; apply bool_decide_eq_true.
    - unfold st1. cbn. rewrite map_app. apply elem_of_app. right. cbn. left.
    - rewrite Forall_forall in Hall. apply Hall. by apply list_elem_of_In. }
  rewrite Hfk. cbn [negb].
  assert (Hkeys : NoDup (map participant_key (conversation_participants st1)
                           ++ map (fun u => (next_conversation_id st, u)) ids)).
  { apply NoDup_app. split_and!.
    - pose proof (store_ok_participants _ Hok) as Hp. unfold participants_ok in Hp.
      apply andb_true_iff in Hp as [Hp _]. by apply bool_decide_eq_true in Hp.
    - intros k Hk Hk'. apply list_elem_of_fmap in Hk as (p & -> & Hp).
      apply list_elem_of_fmap in Hk' as (u & Heq & _).
      rewrite Forall_forall in Hfresh. apply (Hfresh p Hp).
      unfold participant_key in Heq. by injection Heq.
    - apply NoDup_fmap_2; [by intros x y [=] | done]. }
  rewrite bool_decide_eq_true_2 by done. done.
Qed.

(** X9. With an intact store, pairwise distinct ids of stored users and
    the two inserts served, [createConversation] returns the new
    conversation, the conversation row is in the store, and a participant
    who then asks for the participants of the new conversation gets the
    users with exactly the given ids, each once, in whatever order the
    store returns them. *)
Theorem createConversation_round_trip ids u w :
  faults w = [] → store_ok (db w) = true → NoDup ids →
  Forall (fun x => x ∈ map u_id (users (db w))) ids → u ∈ ids →
  let out := createConversation ids w in
  ∃ row ps,
    fst out = Ok row
    ∧ conv_id row = next_conversation_id (db w)
    ∧ conversations (db (snd out)) = conversations (db w) ++ [row]
    ∧ fst (getConversationParticipants (VNum (conv_id row)) u (snd out)) = (ps, None)
    ∧ map id ps ≡ₚ ids.
Proof.
  intros Hf Hok Hnd Hall Hu. cbv zeta. unfold createConversation, bind.
  rewrite mutate_served by (by apply served_all).
  cbn [fst snd insert_conversation error data ok].
  rewrite mutate_served by (apply served_all; by apply served_all_sent).
  rewrite db_sent, now_sent.
  pose proof (accepted_participants ids (now w) (db w) Hok Hnd Hall) as Hacc.
  cbv zeta in Hacc. cbn [insert_conversation snd] in Hacc. rewrite Hacc.
  cbn [fst snd error ok ret].
  eexists _, _. split; [reflexivity|]. split; [reflexivity|]. split; [reflexivity|].
  rewrite getConversationParticipants_served
    by (apply served_all; by repeat apply served_all_sent).
  rewrite !db_sent. cbn [conv_id].
  assert (Hj : map u_id
                 (joined_users (next_conversation_id (db w))
                    (set_participants
                       (conversation_participants (db w)
                          ++ number_participants (next_participant_id (db w)) (now w)
                               (map (fun u => (next_conversation_id (db w), u)) ids))
                       (next_participant_id (db w)
                          + Z.of_nat (length (map (fun u => (next_conversation_id (db w), u))
                                                  ids)))
                       (set_conversations
                          (conversations (db w)
                             ++ [{| conv_id := next_conversation_id (db w);
                                    conv_created_at := now w;
                                    conv_updated_at := now w |}])
                          (next_conversation_id (db w) + 1) (db w))))
               = ids).
  { unfold joined_users. cbn [conversation_participants users set_participants
                                set_conversations].
    destruct (store_ok_fresh_conversation (db w) Hok) as (_ & Hfresh & _).
    rewrite filter_app, (filter_none _ _ Hfresh), app_nil_l.
    apply number_participants_joined; [|done].
    pose proof (store_ok_keys _ Hok) as Hk. unfold keys_ok in Hk.
    rewrite !andb_true_iff in Hk. destruct Hk as [[[Hk _] _] _].
    by apply bool_decide_eq_true in Hk. }
  match goal with |- context [some_is u ?l] =>
    assert (Hids : map id l = ids) by (rewrite map_map; exact Hj);
    assert (Hs : some_is u l = true) end.
  { unfold some_is. apply existsb_exists.
    rewrite <- Hids in Hu. apply list_elem_of_fmap in Hu as (p & -> & Hp).
    exists p. split; [by apply list_elem_of_In | apply Z.eqb_refl]. }
  rewrite Hs. split; [reflexivity | by rewrite Hids].
Qed.

(** *** removeReaction, when the reaction is there or not *)

Lemma entry_agrees (rows : list ReactionRow) : agrees (entry_of rows) rows.
Proof. destruct rows as [|r rows]; [done|]. by split_and!. Qed.

Lemma recountable_rows m st st' :
  message_reactions st' = message_reactions st → recountable m st' ↔ recountable m st.
Proof. unfold recountable. by intros ->. Qed.

(** X10. For a participant of the message's conversation whose five
    requests are served, [removeReaction] succeeds; afterwards the user has
    no reaction with that emoji on the message and every other reaction
    row is still there, in the same order. When none of the rows that are
    left for the message has an emoji that names an inherited property,
    the aggregate of the message is exact for those rows; otherwise the
    recount has thrown and the aggregate of the message is the one of
    before the call. *)
Theorem removeReaction_removes m u e c w :
  participants_ok (db w) = true →
  conversation_of m (db w) = Some c →
  is_participant c u (db w) = true →
  lost 0 w = false → lost 1 w = false → lost 2 w = false →
  lost 3 w = false → lost 4 w = false →
  let out := removeReaction m u e w in
  fst out = Ok tt
  ∧ has_reaction m u e (db (snd out)) = false
  ∧ message_reactions (db (snd out))
    = filter (fun r => ¬ reaction_matches m u e r) (message_reactions (db w))
  ∧ (recountable m (db (snd out)) → aggregate_exact m (db (snd out)))
  ∧ (¬ recountable m (db (snd out)) → aggregate m (db (snd out)) = aggregate m (db w)).
Proof.
  intros Hok Hc Hp H0 H1 H2 H3 H4. cbv zeta. unfold removeReaction, bind.
  destruct (conversation_of_message _ _ _ Hc) as (message & Hm & <-).
  rewrite query_served by done. rewrite Hm. cbn [error ok data].
  change (prop (message_json message) "conversation_id")
    with (VNum (msg_conversation_id message)).
  pose proof (participant_is_member _ _ _ Hok Hp) as Hmem.
  match goal with |- context [getConversationParticipants ?v u ?w'] =>
    pose proof (getConversationParticipants_world v u w') as Hw;
    pose proof (getConversationParticipants_served (msg_conversation_id message) u w') as Hs;
    destruct (getConversationParticipants v u w') as [[ps err] w2] end.
  rewrite lost_sent, db_sent, Hmem in Hs. specialize (Hs H1).
  cbn [fst snd] in Hw, Hs. subst w2. injection Hs as -> ->.
  cbn [truthy]. rewrite Hmem. cbn [negb].
  rewrite mutate_served by (by rewrite !lost_sent).
  rewrite !db_sent. cbn [delete_reaction fst snd error ok].
  match goal with |- context [updateReactionCounts m ?w'] => set (w1 := w') end.
  assert (H3' : lost 0 w1 = false) by (unfold w1; by rewrite !lost_sent).
  assert (H4' : lost 1 w1 = false) by (unfold w1; by rewrite !lost_sent).
  pose proof (updateReactionCounts_reactions m w1) as Hr.
  pose proof (updateReactionCounts_served m w1) as Hserved.
  pose proof (updateReactionCounts_thrown m w1) as Hthrown.
  pose proof (build_counts_lookup m (db w1)) as Hlookup.
  pose proof (build_counts_recountable m (db w1)) as Hplain.
  destruct (updateReactionCounts m w1) as [[] w3]. cbn [ret fst snd] in *.
  split; [done|]. split; [|split; [exact Hr|]].
  - unfold has_reaction. apply bool_decide_eq_false. rewrite Hr.
    cbn [message_reactions set_reactions]. rewrite Exists_exists.
    intros (r & Hin & Hmatch). by apply list_elem_of_filter in Hin as [Hno _].
  - destruct (build_counts (default [] (data (select_reactions m (db w1)))))
      as [counts|] eqn:Hb.
    + specialize (Hserved counts H3' H4' eq_refl).
      destruct (Hlookup counts eq_refl) as [Hrec Hentries]. split.
      * intros _ e'. unfold aggregate, rows_for. rewrite Hr, Hserved.
        rewrite reaction_counts_of_upsert. cbn [default from_option].
        unfold Datatypes.id. rewrite Hentries. apply entry_agrees.
      * intros Hno. exfalso. apply Hno. by apply (recountable_rows m (db w1)).
    + specialize (Hthrown eq_refl). subst w3. split.
      * intros Hrec. apply (recountable_rows m (db w1)) in Hrec; [|done].
        destruct (Hplain Hrec) as [counts Hcounts]. congruence.
      * done.
Qed.

(** *** updateReactionCounts, after any calls *)

Lemma reaction_calls_recountable m calls w :
  recountable m (db w) → recountable m (db (snd (reaction_calls m calls w))).
Proof. apply recountable_fewer. apply reaction_calls_keep. Qed.

(** X30. For a message none of whose reaction rows has an emoji that names
    an inherited property: after any sequence of add and remove calls on
    the message, a recompute whose two requests are served leaves the
    reaction rows alone and stores an aggregate that is exact: every emoji
    has an entry exactly when rows of the message carry it, and the entry
    counts those rows and lists the users of exactly those rows. In a store
    that started out with its constraints in place those users are
    pairwise distinct, so the count is the number of distinct reacting
    users. *)
Theorem updateReactionCounts_exact m calls w :
  recountable m (db w) →
  let w1 := snd (reaction_calls m calls w) in
  lost 0 w1 = false → lost 1 w1 = false →
  let st' := db (snd (updateReactionCounts m w1)) in
  message_reactions st' = message_reactions (db w1)
  ∧ aggregate_exact m st'
  ∧ (store_ok (db w) = true → ∀ e, NoDup (map r_user_id (rows_for m e st'))).
Proof.
  intros Hplain w1 H0 H1 st'.
  assert (Hrows : message_reactions st' = message_reactions (db w1))
    by apply updateReactionCounts_reactions.
  split; [done|].
  destruct (build_counts_recountable m (db w1)) as [counts Hb];
    [by apply reaction_calls_recountable|].
  split.
  - intros e. unfold aggregate, rows_for. rewrite Hrows. unfold st'.
    rewrite (updateReactionCounts_served m w1 counts) by done.
    rewrite reaction_counts_of_upsert. cbn [default from_option]. unfold Datatypes.id.
    apply build_counts_lookup in Hb as [_ Hb]. rewrite Hb. apply entry_agrees.
  - intros Hok e. unfold rows_for. rewrite Hrows. apply (unique_users m e (db w1)).
    apply preserves_reaction_calls. by apply store_ok_unique.
Qed.

(** *** The inserts that the store refuses *)

(** X11. [sendMessage] and [addReaction] name the columns of their insert in
    camel case ([conversationId], [senderId], [messageId], [userId]), which
    are not columns of the tables: whatever the store holds and whoever
    calls, both end in an error and leave the store as it was. No call of
    [sendMessage] stores a message and no call of [addReaction] stores a
    reaction. *)
Theorem camel_case_inserts_refused c m u content mediaUrl mediaType e w :
  (∃ msg, fst (sendMessage c u content mediaUrl mediaType w) = Err msg)
  ∧ db (snd (sendMessage c u content mediaUrl mediaType w)) = db w
  ∧ (∃ msg, fst (addReaction m u e w) = Err msg)
  ∧ db (snd (addReaction m u e w)) = db w.
Proof.
  split_and!.
  - unfold sendMessage, bind.
    destruct (getConversationParticipants (VNum c) u w) as [[ps err] w1].
    destruct (truthy err); [by eexists|]. destruct (negb _); [by eexists|].
    match goal with |- context [mutate ?r ?f ?w'] =>
      destruct (mutate_cases r f w') as [H | H]; rewrite H end; [|by eexists].
    rewrite messageData_refused. by eexists.
  - unfold sendMessage, bind.
    pose proof (getConversationParticipants_world (VNum c) u w) as Hw.
    destruct (getConversationParticipants (VNum c) u w) as [[ps err] w1].
    cbn [snd] in Hw. subst w1.
    destruct (truthy err); [done|]. destruct (negb _); [done|].
    match goal with |- context [mutate ?r ?f ?w'] =>
      destruct (mutate_cases r f w') as [H | H]; rewrite H end; [|done].
    by rewrite messageData_refused.
  - unfold addReaction, bind.
    match goal with |- context [query ?r ?f ?w'] =>
      destruct (query r f w') as [x w1] end.
    destruct (error x); [by eexists|]. destruct (data x); [|by eexists].
    match goal with |- context [getConversationParticipants ?v u ?w'] =>
      destruct (getConversationParticipants v u w') as [[ps err] w2] end.
    destruct (truthy err); [by eexists|]. destruct (negb _); [by eexists|].
    match goal with |- context [query ?r ?f ?w'] =>
      destruct (query r f w') as [y w3] end.
    destruct (data y); [by eexists|].
    match goal with |- context [mutate ?r ?f ?w'] =>
      destruct (mutate_cases r f w') as [H | H]; rewrite H end; [|by eexists].
    rewrite reactionData_refused. by eexists.
  - apply addReaction_store.
Qed.

(** *** The scenario, run *)

Import Scenario Walkthrough.

Lemma createConversation_round_trip_witness :
  store_ok (db (world store)) = true
  ∧ NoDup [1; 3]
  ∧ ∃ row ps,
      fst (createConversation [1; 3] (world store)) = Ok row
      ∧ conv_id row = 2
      ∧ conversations (db (snd (createConversation [1; 3] (world store))))
        = conversations store ++ [row]
      ∧ fst (getConversationParticipants (VNum (conv_id row)) 3
               (snd (createConversation [1; 3] (world store)))) = (ps, None)
      ∧ map id ps ≡ₚ [1; 3].
Proof.
  split; [vm_compute; reflexivity|].
  split; [apply (bool_decide_unpack _); vm_compute; exact I|].
  apply (createConversation_round_trip [1; 3] 3 (world store));
    [reflexivity | vm_compute; reflexivity | | |];
    apply (bool_decide_unpack _); vm_compute; exact I.
Defined.

Lemma removeReaction_removes_witness :
  participants_ok (db (world store)) = true
  ∧ conversation_of 1 (db (world store)) = Some 1
  ∧ is_participant 1 2 (db (world store)) = true
  ∧ fst (removeReaction 1 2 thumbs_up (world store)) = Ok tt
  ∧ has_reaction 1 2 thumbs_up (db (snd (removeReaction 1 2 thumbs_up (world store))))
    = false
  ∧ aggregate_exact 1 (db (snd (removeReaction 1 2 thumbs_up (world store)))).
Proof.
  do 3 (split; [vm_compute; reflexivity|]).
  destruct (removeReaction_removes 1 2 thumbs_up 1 (world store))
    as (Hres & Hgone & _ & Hexact & _); [vm_compute; reflexivity .. |].
  split; [exact Hres | split; [exact Hgone | apply Hexact]].
  apply (bool_decide_unpack _). vm_compute. exact I.
Defined.

Lemma updateReactionCounts_exact_witness :
  let calls := [Remove 2 thumbs_up; Add 1 "❤"; Remove 3 thumbs_up] in
  let w1 := snd (reaction_calls 1 calls (world store_after_leaving)) in
  recountable 1 (db (world store_after_leaving))
  ∧ lost 0 w1 = false ∧ lost 1 w1 = false
  ∧ aggregate_exact 1 (db (snd (updateReactionCounts 1 w1))).
Proof.
  intros calls w1.
  assert (Hplain : recountable 1 (db (world store_after_leaving)))
    by (apply (bool_decide_unpack _); vm_compute; exact I).
  split; [exact Hplain|]. split; [reflexivity|]. split; [reflexivity|].
  destruct (updateReactionCounts_exact 1 calls (world store_after_leaving) Hplain)
    as (_ & Hexact & _); [reflexivity .. |].
  exact Hexact.
Defined.

(** After the removal the aggregate row of message 1 is there with no
    entry. *)
Example removeReaction_last :
  reaction_counts_of 1 (db (snd (removeReaction 1 2 thumbs_up (world store)))) = Some ∅.
Proof. vm_compute. reflexivity. Qed.

End ConversationWriteFacts.

(** ** Properties of SearchService *)

Module SearchFacts.
Import Store Client ConversationService StoreReads ConversationQueries SearchService.
Import Notions ReadNotions Requests ListFacts ConversationFacts ConversationQueryFacts.

(** *** Looking a user up *)

(** X12. With the request served and user ids unique, [getUserById] returns the
    stored user with that id; an id that no user has gives neither a user
    nor an error. *)
Theorem getUserById_lookup k w :
  lost 0 w = false → NoDup (map u_id (users (db w))) →
  (∀ usr, usr ∈ users (db w) → u_id usr = k →
          fst (getUserById k w) = Ok (Some (searchable usr)))
  ∧ (k ∉ map u_id (users (db w)) → fst (getUserById k w) = Ok None).
Proof.
  intros H0 Hnd. unfold getUserById, bind. rewrite query_served by done.
  unfold select_user_by_id. split.
  - intros usr Hin <-. by rewrite (filter_key u_id _ usr Hnd Hin).
  - intros Hk. rewrite filter_none; [done|].
    apply Forall_forall. intros usr Hin Heq. apply Hk, list_elem_of_fmap. eauto.
Qed.

(** X13. With the request served, [getUserByUsername] returns the stored user
    of that name when there is exactly one; when there is none, or several,
    it returns neither a user nor an error. *)
Theorem getUserByUsername_lookup name w :
  lost 0 w = false →
  fst (getUserByUsername name w)
  = match filter (fun usr => u_username usr = name) (users (db w)) with
    | [usr] => Ok (Some (searchable usr))
    | _ => Ok None
    end.
Proof.
  intros H0. unfold getUserByUsername, bind.
  rewrite query_served by done. unfold select_user_by_username.
  by destruct (filter _ _) as [|x [|y l]].
Qed.

(** *** getOnlineUsers *)

(** X14. With the request served, the users listed are the stored users who are
    online and show their status, without the user to leave out. The id 0
    counts as no id: it leaves nobody out. *)
Theorem getOnlineUsers_members excludeUserId w x :
  lost 0 w = false →
  x ∈ fst (fst (getOnlineUsers excludeUserId w)) ↔
  ∃ usr, usr ∈ users (db w) ∧ x = searchable usr
         ∧ u_is_online usr = true ∧ u_show_online_status usr = true
         ∧ (∀ k, excludeUserId = Some k → k ≠ 0 → u_id usr ≠ k).
Proof.
  intros H0. unfold getOnlineUsers, bind. rewrite query_served by done.
  cbn [select_online_users error ok data default from_option ret fst].
  unfold Datatypes.id. rewrite list_elem_of_fmap.
  assert (Hex : ∀ usr, not_excluded (given excludeUserId) usr
                       ↔ ∀ k, excludeUserId = Some k → k ≠ 0 → u_id usr ≠ k).
  { intros usr. unfold given, not_excluded. destruct excludeUserId as [k|].
    - destruct (Z.eqb_spec k 0) as [-> | Hk].
      + split; [intros _ k [= <-] Hk; done | done].
      + split; [by intros Hne k' [= <-] _ | intros H; by apply H].
    - split; [by intros _ k [=] | done]. }
  split.
  - intros (usr & -> & Hin). apply list_elem_of_filter in Hin as [(Ho & Hv & Hx) Hin].
    exists usr. split_and!; try done. by apply Hex.
  - intros (usr & Hin & -> & Ho & Hv & Hx). exists usr. split; [done|].
    apply list_elem_of_filter. split; [|done]. split_and!; try done. by apply Hex.
Qed.

(** *** getRecentConversationUsers *)

Lemma remember_ids userMap x :
  NoDup (map id userMap) → NoDup (map id (remember userMap x)).
Proof.
  intros Hnd. unfold remember. destruct (existsb _ userMap) eqn:Hex; [done|].
  rewrite map_app. apply NoDup_app. split_and!; [done | | apply NoDup_singleton].
  intros k Hk Hk'. apply list_elem_of_singleton in Hk'. subst k.
  apply list_elem_of_fmap in Hk as (y & Hid & Hy).
  assert (existsb (fun u => id u =? id x) userMap = true); [|congruence].
  apply existsb_exists. exists y. split; [by apply list_elem_of_In | lia].
Qed.

Lemma fold_remember (l acc : list User) :
  NoDup (map id acc) →
  NoDup (map id (fold_left remember l acc))
  ∧ (∀ x, x ∈ fold_left remember l acc → x ∈ acc ∨ x ∈ l)
  ∧ (∀ x, x ∈ acc ∨ x ∈ l → id x ∈ map id (fold_left remember l acc))
  ∧ (length (fold_left remember l acc) ≤ length acc + length l)%nat.
Proof.
  revert acc. induction l as [|y l IH]; intros acc Hnd; cbn [fold_left].
  - split_and!; [done | auto | | simpl; lia].
    intros x [Hx | Hx]; [apply list_elem_of_fmap; eauto | by apply elem_of_nil in Hx].
  - destruct (IH (remember acc y) (remember_ids _ _ Hnd)) as (H1 & H2 & H3 & H4).
    split_and!; [done | | |].
    + intros x Hx. destruct (H2 x Hx) as [Hr | Hr]; [|right; by right].
      unfold remember in Hr. destruct (existsb _ acc); [by left|].
      apply elem_of_app in Hr as [Hr | Hr]; [by left|].
      apply list_elem_of_singleton in Hr. subst. right. left.
    + assert (Hy : ∀ x, x ∈ acc ∨ x = y → id x ∈ map id (remember acc y)).
      { intros x [Hx | ->]; unfold remember; destruct (existsb _ acc) eqn:Hex.
        - apply list_elem_of_fmap; eauto.
        - rewrite map_app. apply elem_of_app. left. apply list_elem_of_fmap; eauto.
        - apply existsb_exists in Hex as (z & Hz & Heq).
          apply list_elem_of_fmap. exists z. split; [lia | by apply list_elem_of_In].
        - rewrite map_app. apply elem_of_app. right. left. }
      intros x [Hx | Hx].
      * specialize (Hy x (or_introl Hx)).
        apply list_elem_of_fmap in Hy as (z & -> & Hz). apply H3. by left.
      * apply elem_of_cons in Hx as [-> | Hx]; [|apply H3; by right].
        specialize (Hy y (or_intror eq_refl)).
        apply list_elem_of_fmap in Hy as (z & -> & Hz). apply H3. by left.
    + assert (length (remember acc y) ≤ S (length acc))%nat.
      { unfold remember. destruct (existsb _ acc); [lia|]. rewrite length_app. simpl. lia. }
      simpl. lia.
Qed.

(** X15. Whatever happens to the requests, the users that
    [getRecentConversationUsers] suggests have pairwise distinct ids, are
    at most [limit] (10 when no limit is given), and each of them is
    somebody else who has a participant row in a conversation in which the
    caller has one. *)
Theorem getRecentConversationUsers_suggestions u limit w :
  let suggested := fst (fst (getRecentConversationUsers u limit w)) in
  NoDup (map id suggested)
  ∧ (length suggested ≤ default 10 limit)%nat
  ∧ Forall (fun x => id x ≠ u
                     ∧ ∃ c, is_participant c u (db w) = true
                            ∧ is_participant c (id x) (db w) = true) suggested.
Proof.
  cbv zeta. unfold getRecentConversationUsers, bind.
  assert (Hnil : NoDup (map id ([] : list User))
                 ∧ (length ([] : list User) ≤ default 10 limit)%nat
                 ∧ Forall (fun x => id x ≠ u
                                    ∧ ∃ c, is_participant c u (db w) = true
                                           ∧ is_participant c (id x) (db w) = true) [])
    by (split_and!; [constructor | simpl; lia | constructor]).
  destruct (query_cases {| verb := Select; table := "conversation_participants" |}
              (select_participations u) w) as [H | H]; rewrite H; [|done].
  cbn [select_participations error ok data].
  destruct (map cp_conversation_id _) as [|c0 cs0] eqn:Hcs; [done|].
  rewrite <- Hcs.
  match goal with |- context [query ?r ?f ?w'] =>
    destruct (query_cases r f w') as [H' | H']; rewrite H' end; [|done].
  rewrite db_sent.
  cbn [select_other_participants error ok data default from_option ret fst].
  unfold Datatypes.id, deduplicate.
  match goal with |- context [fold_left remember ?l []] =>
    destruct (fold_remember l []) as (Hnd & Hsub & _ & Hlen); [apply NoDup_nil_2|];
    assert (Hl : (length l ≤ default 10 limit)%nat)
      by (rewrite length_map, length_take; apply Nat.le_min_l);
    assert (Hmem : ∀ x, x ∈ l →
              id x ≠ u ∧ ∃ c, is_participant c u (db w) = true
                              ∧ is_participant c (id x) (db w) = true) end.
  { intros x Hx. apply list_elem_of_fmap in Hx as (usr & -> & Hx).
    apply subseteq_take in Hx.
    apply list_elem_of_In, in_flat_map in Hx as (p & Hp & Husr).
    apply list_elem_of_In, list_elem_of_filter in Hp as [[Hc Hne] Hp].
    apply list_elem_of_In, list_elem_of_filter in Husr as [Hk Husr].
    cbn [id searchable]. split; [congruence|]. exists (cp_conversation_id p). split.
    - apply list_elem_of_fmap in Hc as (q & Heq & Hq).
      apply list_elem_of_filter in Hq as [Hu Hq].
      apply is_participant_row. exists q. by rewrite Heq.
    - apply is_participant_row. by exists p. }
  split_and!; [done | eapply Nat.le_trans; [exact Hlen | exact Hl] |].
  apply Forall_forall. intros x Hx.
  destruct (Hsub x Hx) as [Hx' | Hx']; [by apply elem_of_nil in Hx' | by apply Hmem].
Qed.

(** *** The searches *)

#[local] Instance later_total' : Total later.
Proof. intros a b. unfold later. lia. Qed.
#[local] Instance later_trans' : Transitive later.
Proof. intros a b c. unfold later. lia. Qed.

Lemma recent_matches (P : MessageRow → Prop) `{!∀ m, Decision (P m)} n (l : list MessageRow) :
  let found := take n (merge_sort later (filter P l)) in
  (length found ≤ n)%nat
  ∧ StronglySorted later found
  ∧ (∀ m, m ∈ found → m ∈ l ∧ P m)
  ∧ (∀ m m', m ∈ found → m' ∈ l → P m' → m' ∉ found →
             msg_timestamp m' ≤ msg_timestamp m).
Proof.
  cbv zeta.
  pose proof (merge_sort_Permutation later (filter P l)) as Hperm.
  pose proof (StronglySorted_merge_sort later (filter P l)) as Hs.
  set (sorted := merge_sort later (filter P l)) in *.
  rewrite <- (take_drop n sorted) in Hs.
  split_and!.
  - rewrite length_take. apply Nat.le_min_l.
  - by apply StronglySorted_app_1_l in Hs.
  - intros m Hm. apply subseteq_take in Hm. rewrite Hperm in Hm.
    apply list_elem_of_filter in Hm. tauto.
  - intros m m' Hm Hm' HP Hout.
    assert (Hin : m' ∈ take n sorted ++ drop n sorted).
    { rewrite take_drop, Hperm. by apply list_elem_of_filter. }
    apply elem_of_app in Hin as [Hin | Hin]; [done|].
    apply (StronglySorted_app_1_elem_of _ _ _ m m' Hs Hm Hin).
Qed.

(** X16. Whatever happens to the requests, the messages that
    [searchMessagesGlobal] returns are stored messages of conversations in
    which the user has a participant row, their content matches the pattern
    made of the trimmed query between two [%] signs, they come newest first
    and are at most [limit] (50 when no limit is given); a matching message
    of the user's conversations that is left out is no more recent than any
    that is returned. *)
Theorem searchMessagesGlobal_results (trim : string → string)
    (ilike : string → string → bool) u q limit w :
  let found := fst (fst (searchMessagesGlobal trim ilike u q limit w)) in
  let matches := fun m =>
    m ∈ messages (db w)
    ∧ is_participant (msg_conversation_id m) u (db w) = true
    ∧ ilike (msg_content m) ("%" +:+ trim q +:+ "%") = true in
  (length found ≤ default 50 limit)%nat
  ∧ StronglySorted later found
  ∧ Forall matches found
  ∧ ∀ m m', m ∈ found → matches m' → m' ∉ found → msg_timestamp m' ≤ msg_timestamp m.
Proof.
  cbv zeta. unfold searchMessagesGlobal, bind.
  assert (Hnil : (length ([] : list MessageRow) ≤ default 50 limit)%nat
                 ∧ StronglySorted later []
                 ∧ Forall (fun m => m ∈ messages (db w)
                             ∧ is_participant (msg_conversation_id m) u (db w) = true
                             ∧ ilike (msg_content m) ("%" +:+ trim q +:+ "%") = true) []
                 ∧ ∀ m m', m ∈ ([] : list MessageRow) →
                     m' ∈ messages (db w)
                     ∧ is_participant (msg_conversation_id m') u (db w) = true
                     ∧ ilike (msg_content m') ("%" +:+ trim q +:+ "%") = true →
                     m' ∉ ([] : list MessageRow) → msg_timestamp m' ≤ msg_timestamp m).
  { split_and!; [simpl; lia | constructor | constructor |].
    intros m m' Hm. by apply elem_of_nil in Hm. }
  destruct (blank trim q); [done|].
  destruct (query_cases {| verb := Select; table := "conversation_participants" |}
              (select_participations u) w) as [H | H]; rewrite H; [|done].
  cbn [select_participations error ok data].
  destruct (map cp_conversation_id _) as [|c0 cs0] eqn:Hcs; [done|].
  rewrite <- Hcs.
  match goal with |- context [query ?r ?f ?w'] =>
    destruct (query_cases r f w') as [H' | H']; rewrite H' end; [|done].
  rewrite db_sent.
  cbn [search_messages_in error ok data default from_option ret fst].
  unfold Datatypes.id.
  assert (Hmine : ∀ c, c ∈ map cp_conversation_id
                           (filter (fun p => cp_user_id p = u)
                                   (conversation_participants (db w)))
                       ↔ is_participant c u (db w) = true).
  { intros c. rewrite is_participant_row, list_elem_of_fmap. split.
    - intros (p & -> & Hp). apply list_elem_of_filter in Hp as [Hu Hp]. by exists p.
    - intros (p & Hp & Hc & Hu). exists p. split; [done|]. by apply list_elem_of_filter. }
  match goal with |- context [take ?n (merge_sort later (filter ?P ?l))] =>
    destruct (recent_matches P n l) as (Hlen & Hs & Hin & Hout) end.
  split_and!; [done | done | |].
  - apply Forall_forall. intros m Hm. destruct (Hin m Hm) as (Hm' & Hc & Hi).
    split_and!; [done | by apply Hmine | done].
  - intros m m' Hm (Hm' & Hc & Hi) Hno. apply (Hout m m' Hm Hm'); [|done].
    split; [by apply Hmine | done].
Qed.

(** X17. Whatever happens to the request, the users that [searchUsers] and
    [searchUsersExcluding] return are stored users that pass the row test
    of the filter expression, at most [limit] of them (20 when no limit is
    given), and [searchUsersExcluding] never returns the user with the id
    to leave out. *)
Theorem searchUsers_results (trim : string → string)
    (or_filter : string → option (UserRow → bool)) q x limit w :
  let passes := fun usr =>
    ∃ row test, row ∈ users (db w) ∧ usr = searchable row
                ∧ or_filter (user_filter (trim q)) = Some test ∧ test row = true in
  let all := fst (fst (searchUsers trim or_filter q limit w)) in
  let others := fst (fst (searchUsersExcluding trim or_filter q x limit w)) in
  (length all ≤ default 20 limit)%nat ∧ Forall passes all
  ∧ (length others ≤ default 20 limit)%nat ∧ Forall passes others
  ∧ Forall (fun usr => id usr ≠ x) others.
Proof.
  cbv zeta. unfold searchUsers, searchUsersExcluding, bind.
  destruct (blank trim q);
    [split_and!; simpl; first [lia | constructor]|].
  assert (Hone : ∀ exclude,
    let found := fst (fst
      ((let* r := query {| verb := Select; table := "users" |}
                        (search_users or_filter (user_filter (trim q)) exclude
                                      (default 20%nat limit)) in
        match error r with
        | Some msg => ret ([], Some msg)
        | None => ret (map searchable (default [] (data r)), None)
        end) w)) in
    (length found ≤ default 20 limit)%nat
    ∧ Forall (fun usr => ∃ row test, row ∈ users (db w) ∧ usr = searchable row
                           ∧ or_filter (user_filter (trim q)) = Some test
                           ∧ test row = true) found
    ∧ Forall (fun usr => ∀ k, exclude = Some k → id usr ≠ k) found).
  { intros exclude. cbv zeta. unfold bind.
    match goal with |- context [query ?r ?f ?w'] =>
      destruct (query_cases r f w') as [H | H]; rewrite H end;
      [|split_and!; simpl; first [lia | constructor]].
    unfold search_users.
    destruct (or_filter (user_filter (trim q))) as [test|] eqn:Ht;
      [|split_and!; simpl; first [lia | constructor]].
    cbn [error ok data default from_option ret fst]. unfold Datatypes.id.
    split_and!.
    - rewrite length_map, length_take. apply Nat.le_min_l.
    - apply Forall_forall. intros usr Hin.
      apply list_elem_of_fmap in Hin as (row & -> & Hin). apply subseteq_take in Hin.
      apply list_elem_of_filter in Hin as [[Hpass _] Hin]. by exists row, test.
    - apply Forall_forall. intros usr Hin k ->.
      apply list_elem_of_fmap in Hin as (row & -> & Hin). apply subseteq_take in Hin.
      by apply list_elem_of_filter in Hin as [[_ Hex] Hin]. }
  destruct (Hone None) as (H1 & H2 & _).
  destruct (Hone (Some x)) as (H3 & H4 & H5).
  cbv zeta in *. unfold bind in *.
  split_and!; try done.
  eapply Forall_impl; [exact H5|]. intros usr Hk. by apply Hk.
Qed.

(** X18. A query that is empty, or that is empty once trimmed, is answered at
    once: the three searches return nothing, report no error and send no
    request. *)
Theorem blank_queries_send_nothing (trim : string → string)
    (ilike : string → string → bool) (or_filter : string → option (UserRow → bool))
    q u x limit w :
  q = EmptyString ∨ trim q = EmptyString →
  searchUsers trim or_filter q limit w = (([], None), w)
  ∧ searchUsersExcluding trim or_filter q x limit w = (([], None), w)
  ∧ searchMessagesGlobal trim ilike u q limit w = (([], None), w).
Proof.
  intros Hq.
  assert (Hb : blank trim q = true).
  { unfold blank. destruct Hq as [-> | ->]; [done|]. apply orb_true_iff. by right. }
  unfold searchUsers, searchUsersExcluding, searchMessagesGlobal. by rewrite Hb.
Qed.

(** *** The scenario, run *)

Import Scenario Walkthrough.

Lemma getUserById_lookup_witness :
  lost 0 (world store) = false
  ∧ NoDup (map u_id (users (db (world store))))
  ∧ fst (getUserById 2 (world store)) = Ok (Some (searchable (user 2 "bob")))
  ∧ fst (getUserById 9 (world store)) = Ok None.
Proof.
  assert (Hnd : NoDup (map u_id (users (db (world store)))))
    by (apply (bool_decide_unpack _); vm_compute; exact I).
  split; [reflexivity|]. split; [exact Hnd|]. split.
  - apply (getUserById_lookup 2 (world store) eq_refl Hnd); [|reflexivity].
    right. left.
  - apply (getUserById_lookup 9 (world store) eq_refl Hnd).
    apply (bool_decide_unpack _). vm_compute. exact I.
Defined.

Lemma getUserByUsername_lookup_witness :
  lost 0 (world store) = false
  ∧ fst (getUserByUsername "carol" (world store)) = Ok (Some (searchable (user 3 "carol")))
  ∧ fst (getUserByUsername "dave" (world store)) = Ok None.
Proof.
  split; [reflexivity|]. split.
  - rewrite (getUserByUsername_lookup "carol" (world store)); reflexivity.
  - rewrite (getUserByUsername_lookup "dave" (world store)); reflexivity.
Defined.

Lemma getOnlineUsers_members_witness :
  lost 0 (world presence) = false
  ∧ fst (getOnlineUsers (Some 3) (world presence))
    = ([{| id := 1; username := "alice"; email := "alice@example.org";
           displayName := Some "Alice"; avatarUrl := None;
           isOnline := true; showOnlineStatus := true |}], None)
  ∧ ∀ x, x ∈ fst (fst (getOnlineUsers (Some 3) (world presence))) →
         isOnline x = true ∧ showOnlineStatus x = true ∧ id x ≠ 3.
Proof.
  split; [reflexivity|]. split; [vm_compute; reflexivity|].
  intros x Hx.
  apply (getOnlineUsers_members (Some 3) (world presence) x eq_refl) in Hx
    as (usr & _ & -> & Honline & Hshown & Hother).
  split; [exact Honline|]. split; [exact Hshown|].
  apply (Hother 3); [reflexivity | discriminate].
Defined.

Lemma blank_queries_send_nothing_witness :
  searchUsers no_trim only_bob EmptyString None (world store) = (([], None), world store)
  ∧ searchMessagesGlobal no_trim contains 1 EmptyString None (world store)
    = (([], None), world store).
Proof.
  destruct (blank_queries_send_nothing no_trim contains only_bob EmptyString 1 1 None
              (world store)) as (Husers & _ & Hmessages); [left; reflexivity|].
  split; [exact Husers | exact Hmessages].
Defined.

(** Bob is found by [searchUsers] and left out by [searchUsersExcluding];
    the global search finds the messages of alice's conversation that
    contain the query, newest first and cut at the limit. *)
Example searches_chat :
  fst (searchUsers no_trim only_bob "bo" None (world chat))
  = ([searchable (user 2 "bob")], None)
  ∧ fst (searchUsersExcluding no_trim only_bob "bo" 2 None (world chat)) = ([], None)
  ∧ fst (searchMessagesGlobal no_trim contains 1 "you" (Some 1%nat) (world chat))
    = ([message 2 1 2 "see you at nine" 9], None).
Proof. repeat split; vm_compute; reflexivity. Qed.

End SearchFacts.

(** ** More on RealtimeService *)

Module RealtimeMoreFacts.
Import RealtimeService RealtimeEvents RealtimeNotions RealtimeFacts.

(** *** Subscriptions under different names *)

Lemma unsubscribe_frame name s name' :
  consistent s → name' ≠ name → same_subscription name' s (unsubscribe name s).
Proof.
  intros (Htab & Hlive & _) Hne. unfold same_subscription, unsubscribe.
  destruct (channels (fst s) !! name) as [old|] eqn:Hold; [|done]. simpl.
  split; [by apply lookup_delete_ne|].
  intros ref Href. apply lookup_delete_ne. intros ->.
  destruct (Htab _ _ Hold) as (c & Hc & Ht & _).
  destruct (Htab _ _ Href) as (c' & Hc' & Ht' & _). congruence.
Qed.

Lemma resubscribe_frame name key h s name' :
  consistent s → name' ≠ name →
  same_subscription name' s (snd (resubscribe name key h s)).
Proof.
  intros Hs Hne. destruct (unsubscribe_frame name s name' Hs Hne) as [Htab Hlive].
  pose proof (consistent_unsubscribe name s Hs) as (Htab1 & _ & Hfresh1).
  unfold same_subscription, resubscribe, channel, subscribe. simpl.
  split; [by rewrite lookup_insert_ne|].
  intros ref Href. rewrite <- (Hlive ref Href).
  assert (ref ≠ next_ref (snd (unsubscribe name s))).
  { intros ->. rewrite <- Htab in Href. destruct (Htab1 _ _ Href) as (c & Hc & _).
    rewrite Hfresh1 in Hc; [done | lia]. }
  by rewrite lookup_alter_ne, lookup_insert_ne.
Qed.

Lemma messages_names (c1 c2 : Z) :
  c1 ≠ c2 → "messages:" +:+ pretty c1 ≠ "messages:" +:+ pretty c2.
Proof.
  intros Hne Heq. cbn [String.app] in Heq. injection Heq as Heq.
  change (pretty c1 = pretty c2) in Heq. by apply (inj pretty) in Heq.
Qed.

(** X19. In every state the service reaches, the subscription to the messages
    of a conversation is not disturbed by what happens under other names:
    subscribing to, or unsubscribing from, the messages of another
    conversation, and subscribing to the typing indicators or to the
    participants of the same conversation, leave its entry in the table and
    its channel object as they are. *)
Theorem subscriptions_do_not_interfere c1 c2 cb s :
  reachable s → c1 ≠ c2 →
  let name := "messages:" +:+ pretty c1 in
  same_subscription name s (snd (subscribeToMessages c2 cb s))
  ∧ same_subscription name s (unsubscribe ("messages:" +:+ pretty c2) s)
  ∧ same_subscription name s (snd (subscribeToTyping c1 cb s))
  ∧ same_subscription name s (snd (subscribeToConversationParticipants c1 cb s)).
Proof.
  intros Hr Hne name. apply reachable_consistent in Hr. split_and!.
  - apply resubscribe_frame; [done | by apply messages_names].
  - apply unsubscribe_frame; [done | by apply messages_names].
  - apply resubscribe_frame; [done | discriminate].
  - apply resubscribe_frame; [done | discriminate].
Qed.

(** *** The channel names and the connection status *)

(** X20. In every state the service reaches, [getActiveChannels] lists each
    name once, and the names it lists are the topics of the channels that
    the client holds. *)
Theorem getActiveChannels_live s :
  reachable s →
  NoDup (getActiveChannels s)
  ∧ ∀ name, name ∈ getActiveChannels s ↔
            ∃ ref c, live (snd s) !! ref = Some c ∧ topic c = name.
Proof.
  intros Hr. apply reachable_consistent in Hr as (Htab & Hlive & _).
  unfold getActiveChannels.
  split; [rewrite merge_sort_Permutation; apply NoDup_fst_map_to_list|].
  intros name. rewrite merge_sort_Permutation, list_elem_of_fmap. split.
  - intros ([name' ref] & -> & Hin). apply elem_of_map_to_list in Hin.
    destruct (Htab _ _ Hin) as (c & Hc & Ht & _). by exists ref, c.
  - intros (ref & c & Hc & <-). exists (topic c, ref). split; [done|].
    apply elem_of_map_to_list. by apply Hlive.
Qed.

Lemma getConnectionStatus_table s :
  getConnectionStatus s
  = if bool_decide (channels (fst s) = ∅) then "disconnected" else "connected".
Proof.
  unfold getConnectionStatus.
  destruct (map_to_list (channels (fst s))) as [|[name ref] l] eqn:Hl.
  - apply map_to_list_empty_iff in Hl. by rewrite bool_decide_eq_true_2.
  - rewrite bool_decide_eq_false_2; [done|].
    intros Hempty. apply map_to_list_empty_iff in Hempty. congruence.
Qed.

(** X21. The connection status is read off the table alone: it is "connected"
    as soon as the table holds a name, so right after any subscription,
    and "disconnected" when the table is empty. After [cleanup] the status
    is "disconnected", the client holds no channel, the user id is
    forgotten, and until the next [initialize] a subscription to the
    notifications is refused and [sendTyping] does nothing. *)
Theorem connection_status s :
  reachable s →
  (getConnectionStatus s = "connected" ↔ getActiveChannels s ≠ [])
  ∧ (getConnectionStatus s = "disconnected" ↔ getActiveChannels s = [])
  ∧ (∀ c cb, getConnectionStatus (snd (subscribeToMessages c cb s)) = "connected")
  ∧ getConnectionStatus (cleanup s) = "disconnected"
  ∧ live (snd (cleanup s)) = ∅
  ∧ userId (fst (cleanup s)) = None
  ∧ (∀ cb, subscribeToNotifications cb (cleanup s) = (None, cleanup s))
  ∧ (∀ t c name typing, sendTyping t c name typing (cleanup s) = cleanup s).
Proof.
  intros Hr. apply reachable_consistent in Hr.
  assert (Hnames : getActiveChannels s = [] ↔ channels (fst s) = ∅).
  { unfold getActiveChannels. rewrite <- map_to_list_empty_iff. split.
    - intros Hnil. apply fmap_nil_inv in Hnil.
      apply Permutation_nil_r. by rewrite <- Hnil, merge_sort_Permutation.
    - by intros ->. }
  destruct (unsubscribeAll_empties s Hr) as [Htab Hlive].
  split_and!.
  - rewrite getConnectionStatus_table, Hnames.
    destruct (decide (channels (fst s) = ∅)) as [He | He].
    + rewrite bool_decide_eq_true_2 by done. split; [discriminate | done].
    + by rewrite bool_decide_eq_false_2.
  - rewrite getConnectionStatus_table, Hnames.
    destruct (decide (channels (fst s) = ∅)) as [He | He].
    + by rewrite bool_decide_eq_true_2.
    + rewrite bool_decide_eq_false_2 by done. split; [discriminate | done].
  - intros c cb. rewrite getConnectionStatus_table.
    rewrite bool_decide_eq_false_2; [done|].
    unfold subscribeToMessages, resubscribe. simpl. apply insert_non_empty.
  - rewrite getConnectionStatus_table. unfold cleanup. simpl.
    by rewrite bool_decide_eq_true_2.
  - done.
  - done.
  - done.
  - done.
Qed.

(** *** Database change events *)

Lemma without_password_omits user : omits "password" user (without_password user).
Proof.
  unfold omits, without_password, Obj.
  induction user as [|[k v] user [IH1 IH2]]; [done|].
  rewrite filter_cons. cbn [fst]. destruct (decide (k ≠ "password")) as [Hk | Hk].
  - cbn [prop]. split.
    + destruct (String.eqb_spec k "password"); [done | exact IH1].
    + intros k' Hk'. destruct (String.eqb k k'); [done | by apply IH2].
  - apply dec_stable in Hk. subst k. split; [exact IH1|].
    intros k' Hk'. cbn [prop].
    destruct (String.eqb_spec "password" k'); [congruence | by apply IH2].
Qed.

Lemma includes_elem ids v :
  includes ids v = true ↔ ∃ n, v = VNum n ∧ n ∈ ids.
Proof.
  unfold includes. destruct v as [| |n| |]; try (split; [done | by intros (? & ? & ?)]).
  rewrite existsb_exists. split.
  - intros (k & Hk & Heq). exists n. split; [done|].
    apply Z.eqb_eq in Heq. subst k. by apply list_elem_of_In.
  - intros (k & [= <-] & Hk). exists n. split; [by apply list_elem_of_In | apply Z.eqb_refl].
Qed.

(** X22. An update of a user row reaches the callback given to
    [subscribeToUserStatus] exactly when the id of the row is one of the
    ids the caller asked for, and what the callback gets is the row without
    its [password]: that property is absent, every other one reads as in
    the row. Nothing else reaches the callback on this channel. *)
Theorem user_status_delivery userIds cb s p :
  reachable s →
  let out := subscribeToUserStatus userIds cb s in
  let delivered := on_postgres_changes (fst out) p (snd out) in
  (changed_table p = "users" → eventType p = UPDATE →
   (∃ n, prop (payload_new p) "id" = VNum n ∧ n ∈ userIds) →
   ∃ user, delivered = Some (cb, UserUpdate UPDATE user)
           ∧ omits "password" (payload_new p) user)
  ∧ (∀ cb' update, delivered = Some (cb', update) →
       cb' = cb
       ∧ changed_table p = "users" ∧ eventType p = UPDATE
       ∧ (∃ n, prop (payload_new p) "id" = VNum n ∧ n ∈ userIds)
       ∧ ∃ user, update = UserUpdate UPDATE user ∧ omits "password" (payload_new p) user).
Proof.
  intros Hr out delivered. apply reachable_consistent in Hr.
  destruct (resubscribe_replaces "user-status" None (OnUserStatus userIds cb) s Hr)
    as (_ & Hlive & _).
  subst delivered out. unfold on_postgres_changes, subscribeToUserStatus.
  cbv zeta in Hlive. rewrite Hlive. cbn [handler react]. split.
  - intros -> -> Hin. rewrite !bool_decide_eq_true_2 by done. cbn [andb].
    apply includes_elem in Hin. rewrite Hin.
    eexists. split; [reflexivity | apply without_password_omits].
  - intros cb' update. case_bool_decide as Ht; [|done].
    case_bool_decide as He; [|done]. cbn [andb].
    destruct (includes userIds _) eqn:Hin; [|done]. intros [= <- <-].
    apply includes_elem in Hin. split_and!; try done.
    eexists. split; [reflexivity | apply without_password_omits].
Qed.

(** X23. A change of a reaction row reaches the callback given to
    [subscribeToMessageReactions] exactly when it is an insert or a delete
    of a row whose [message_id] is one of the ids the caller asked for (for
    a delete, the id is read from the old row), and the callback is given
    that id. *)
Theorem reaction_delivery messageIds cb s p :
  reachable s →
  let out := subscribeToMessageReactions messageIds cb s in
  let row := match eventType p with DELETE => payload_old p | _ => payload_new p end in
  ∀ cb' update,
    on_postgres_changes (fst out) p (snd out) = Some (cb', update) ↔
    cb' = cb ∧ changed_table p = "message_reactions" ∧ eventType p ≠ UPDATE
    ∧ ∃ n, prop row "message_id" = VNum n ∧ n ∈ messageIds
           ∧ update = ReactionUpdate (VNum n).
Proof.
  intros Hr out row cb' update. apply reachable_consistent in Hr.
  destruct (resubscribe_replaces "message-reactions" None
              (OnMessageReactions messageIds cb) s Hr) as (_ & Hlive & _).
  subst out row. unfold on_postgres_changes, subscribeToMessageReactions.
  cbv zeta in Hlive. rewrite Hlive. cbn [handler react].
  case_bool_decide as Ht; [|by split; [|intros (_ & ? & _)]].
  destruct (eventType p) eqn:He.
  - destruct (includes messageIds _) eqn:Hin.
    + apply includes_elem in Hin as (n & Hn & Hin). rewrite Hn. split.
      * intros [= <- <-]. split_and!; try done. by exists n.
      * intros (-> & _ & _ & n' & [= <-] & _ & ->). done.
    + split; [done|]. intros (_ & _ & _ & n & Hn & Hn' & _).
      assert (includes messageIds (prop (payload_new p) "message_id") = true);
        [|congruence].
      apply includes_elem. by exists n.
  - split; [done | by intros (_ & _ & ? & _)].
  - destruct (includes messageIds _) eqn:Hin.
    + apply includes_elem in Hin as (n & Hn & Hin). rewrite Hn. split.
      * intros [= <- <-]. split_and!; try done. by exists n.
      * intros (-> & _ & _ & n' & [= <-] & _ & ->). done.
    + split; [done|]. intros (_ & _ & _ & n & Hn & Hn' & _).
      assert (includes messageIds (prop (payload_old p) "message_id") = true);
        [|congruence].
      apply includes_elem. by exists n.
Qed.

(** X24. A channel that has been replaced by a new subscription under its name,
    or removed by [unsubscribe], [unsubscribeAll] or [cleanup], delivers
    nothing any more: neither a database change nor a presence sync on it
    reaches a callback. So a callback is never invoked twice for one event
    because of a subscription made twice. *)
Theorem dropped_channels_are_silent name key h old s p presenceState :
  reachable s → channels (fst s) !! name = Some old →
  let silent := fun s' =>
    on_postgres_changes old p s' = None ∧ on_presence_sync old presenceState s' = None in
  silent (snd (resubscribe name key h s))
  ∧ silent (unsubscribe name s)
  ∧ silent (unsubscribeAll s)
  ∧ silent (cleanup s).
Proof.
  intros Hr Hold silent. apply reachable_consistent in Hr.
  assert (Hs : ∀ s', live (snd s') !! old = None → silent s').
  { intros s' Hnone. unfold silent, on_postgres_changes, on_presence_sync.
    by rewrite Hnone. }
  assert (Hall : live (snd (unsubscribeAll s)) !! old = None).
  { destruct (unsubscribeAll_empties s Hr) as [_ He]. rewrite He. apply lookup_empty. }
  split_and!; apply Hs.
  - by apply (resubscribe_replaces name key h s Hr).
  - unfold unsubscribe. rewrite Hold. simpl. apply lookup_delete_eq.
  - exact Hall.
  - exact Hall.
Qed.

(** X25. What the callback given to [subscribeToMessages] gets for a change of
    a message row: the type of the event, the row (the old one for a
    delete, the new one otherwise), and as [conversationId] the property of
    that name of the row. A row as the store sends it is keyed by column
    name, so that for such a row the [conversationId] of the update is
    undefined, while the conversation is found under [conversation_id]. *)
Theorem message_delivery conversationId cb s p :
  reachable s → changed_table p = "messages" →
  let out := subscribeToMessages conversationId cb s in
  let row := match eventType p with DELETE => payload_old p | _ => payload_new p end in
  on_postgres_changes (fst out) p (snd out)
  = Some (cb, MessageUpdate (eventType p) row (prop row "conversationId"))
  ∧ ∀ m, row = Store.message_json m →
         prop row "conversationId" = VUndef
         ∧ prop row "conversation_id" = VNum (Store.msg_conversation_id m).
Proof.
  intros Hr Ht out row. apply reachable_consistent in Hr.
  destruct (resubscribe_replaces ("messages:" +:+ pretty conversationId) None
              (OnMessages conversationId cb) s Hr) as (_ & Hlive & _).
  subst out row. unfold on_postgres_changes, subscribeToMessages.
  cbv zeta in Hlive. rewrite Hlive. cbn [handler react].
  rewrite bool_decide_eq_true_2 by done. split.
  - by destruct (eventType p).
  - by intros m ->.
Qed.

(** *** The scenario, run *)

Import Scenario Walkthrough.

Lemma reachable_reading : reachable reading.
Proof. by exists [Initialize 1; SubscribeToMessages 1 0%nat]. Qed.

Lemma subscriptions_do_not_interfere_witness :
  reachable reading
  ∧ (1 : Z) ≠ 2
  ∧ channels (fst (snd (subscribeToMessages 2 5%nat reading))) !! "messages:1"
    = channels (fst reading) !! "messages:1".
Proof.
  split; [apply reachable_reading|]. split; [discriminate|].
  destruct (subscriptions_do_not_interfere 1 2 5%nat reading)
    as ((Hsame & _) & _); [apply reachable_reading | discriminate |].
  exact Hsame.
Defined.

Lemma getActiveChannels_live_witness :
  reachable reading
  ∧ NoDup (getActiveChannels reading)
  ∧ "messages:1" ∈ getActiveChannels reading.
Proof.
  split; [apply reachable_reading|].
  destruct (getActiveChannels_live reading reachable_reading) as [Hnd Hnames].
  split; [exact Hnd|]. apply Hnames. exists 0%nat. eexists.
  split; reflexivity.
Defined.

Lemma connection_status_witness :
  reachable reading
  ∧ getConnectionStatus reading = "connected"
  ∧ getConnectionStatus (cleanup reading) = "disconnected"
  ∧ live (snd (cleanup reading)) = ∅.
Proof.
  split; [apply reachable_reading|].
  destruct (connection_status reading reachable_reading)
    as (Hconnected & _ & _ & Hclean & Hlive & _).
  split; [|split; [exact Hclean | exact Hlive]].
  apply Hconnected. vm_compute. discriminate.
Defined.

Lemma user_status_delivery_witness :
  reachable reading
  ∧ ∃ user,
      on_postgres_changes (fst (subscribeToUserStatus [2; 3] 4%nat reading)) user_changed
                          (snd (subscribeToUserStatus [2; 3] 4%nat reading))
      = Some (4%nat, UserUpdate UPDATE user)
      ∧ prop user "password" = VUndef
      ∧ prop user "username" = VStr "bob".
Proof.
  split; [apply reachable_reading|].
  destruct (user_status_delivery [2; 3] 4%nat reading user_changed reachable_reading)
    as [Hdelivers _].
  destruct Hdelivers as (user & Hdelivered & Hnone & Hsame);
    [reflexivity | reflexivity | |].
  { exists 2. split; [reflexivity|]. apply (bool_decide_unpack _). vm_compute. exact I. }
  exists user. split; [exact Hdelivered|]. split; [exact Hnone|].
  rewrite Hsame; [reflexivity | discriminate].
Defined.

Lemma reaction_delivery_witness :
  reachable reading
  ∧ on_postgres_changes (fst (subscribeToMessageReactions [1] 4%nat reading))
                        reaction_deleted
                        (snd (subscribeToMessageReactions [1] 4%nat reading))
    = Some (4%nat, ReactionUpdate (VNum 1)).
Proof.
  split; [apply reachable_reading|].
  apply (reaction_delivery [1] 4%nat reading reaction_deleted reachable_reading).
  split; [reflexivity|]. split; [reflexivity|]. split; [discriminate|].
  exists 1. split; [reflexivity|]. split; [|reflexivity].
  apply (bool_decide_unpack _). vm_compute. exact I.
Defined.

Lemma dropped_channels_are_silent_witness :
  reachable reading
  ∧ channels (fst reading) !! "messages:1" = Some 0%nat
  ∧ on_postgres_changes 0 message_changed
      (snd (subscribeToMessages 1 7%nat reading)) = None
  ∧ on_postgres_changes 0 message_changed (unsubscribe "messages:1" reading) = None.
Proof.
  split; [apply reachable_reading|]. split; [reflexivity|].
  destruct (dropped_channels_are_silent "messages:1" None (OnMessages 1 7%nat) 0%nat
              reading message_changed [] reachable_reading eq_refl)
    as ((Hreplaced & _) & (Hremoved & _) & _).
  split; [exact Hreplaced | exact Hremoved].
Defined.

Lemma message_delivery_witness :
  reachable reading
  ∧ on_postgres_changes (fst (subscribeToMessages 1 7%nat reading)) message_changed
                        (snd (subscribeToMessages 1 7%nat reading))
    = Some (7%nat, MessageUpdate UPDATE (payload_new message_changed) VUndef).
Proof.
  split; [apply reachable_reading|].
  destruct (message_delivery 1 7%nat reading message_changed reachable_reading eq_refl)
    as [Hdelivered _].
  exact Hdelivered.
Defined.

End RealtimeMoreFacts.

(** ** Properties of the local state of [MessageReactions] *)

Module MessageReactionsFacts.
Import Store Client ConversationService ConversationQueries MessageReactions ListFacts.

(** *** The map of [fetchReactions] *)

Lemma map_has_elem (m : ReactionMap) k : map_has m k = true ↔ k ∈ m.*1.
Proof.
  unfold map_has. rewrite existsb_exists, list_elem_of_fmap. split.
  - intros ([k' v] & Hin & Heq). apply String.eqb_eq in Heq. simpl in Heq. subst k'.
    exists (k, v). split; [done | by apply list_elem_of_In].
  - intros ([k' v] & -> & Hin). exists (k', v).
    split; [by apply list_elem_of_In | apply String.eqb_refl].
Qed.

Lemma map_get_set_eq (m : ReactionMap) k v : map_get (map_set m k v) k = Some v.
Proof.
  induction m as [|[k' v'] m IH]; simpl; [by rewrite String.eqb_refl|].
  destruct (String.eqb k' k) eqn:Hk; simpl; [by rewrite String.eqb_refl | by rewrite Hk].
Qed.

Lemma map_get_set_ne (m : ReactionMap) k v k' :
  k' ≠ k → map_get (map_set m k v) k' = map_get m k'.
Proof.
  intros Hne. induction m as [|[k0 v0] m IH]; simpl.
  - by destruct (String.eqb_spec k k'); [congruence|].
  - destruct (String.eqb_spec k0 k) as [-> | Hk]; simpl.
    + by destruct (String.eqb_spec k k'); [congruence|].
    + by destruct (String.eqb k0 k').
Qed.

Lemma map_set_keys (m : ReactionMap) k v :
  (map_set m k v).*1 = if map_has m k then m.*1 else m.*1 ++ [k].
Proof.
  induction m as [|[k' v'] m IH]; [done|]. unfold map_has in *.
  cbn [map_set existsb fst].
  destruct (String.eqb_spec k' k) as [-> | Hk]; cbn [orb]; [done|].
  rewrite !fmap_cons, IH. cbn [fst]. by destruct (existsb _ m).
Qed.

Lemma map_set_NoDup (m : ReactionMap) k v : NoDup m.*1 → NoDup (map_set m k v).*1.
Proof.
  intros Hnd. rewrite map_set_keys. destruct (map_has m k) eqn:Hk; [done|].
  apply NoDup_app. split_and!; [done | | apply NoDup_singleton].
  intros k' Hk' Heq. apply list_elem_of_singleton in Heq. subst k'.
  apply map_has_elem in Hk'. congruence.
Qed.

Lemma map_get_elem (m : ReactionMap) k v :
  NoDup m.*1 → (k, v) ∈ m ↔ map_get m k = Some v.
Proof.
  induction m as [|[k' v'] m IH]; intros Hnd; simpl.
  - split; [by intros H%elem_of_nil | done].
  - apply NoDup_cons in Hnd as [Hnotin Hnd]. rewrite elem_of_cons, (IH Hnd).
    destruct (String.eqb_spec k' k) as [-> | Hk].
    + split; [intros [[= ->] | Hget]; [done|] | intros [= ->]; by left].
      exfalso. apply Hnotin. apply list_elem_of_fmap. exists (k, v).
      split; [done | by apply IH].
    + split; [intros [[= -> ->] | Hget]; done | by right].
Qed.

Lemma tally_NoDup m r : NoDup m.*1 → NoDup (tally m r).*1.
Proof.
  intros Hnd. unfold tally.
  destruct (map_has m (rs_emoji r)) eqn:Hhas.
  - destruct (map_get m (rs_emoji r)); [by apply map_set_NoDup | done].
  - rewrite map_get_set_eq. by do 2 apply map_set_NoDup.
Qed.

Lemma map_has_get (m : ReactionMap) k : map_has m k = false → map_get m k = None.
Proof.
  unfold map_has. induction m as [|[k' v'] m IH]; simpl; [done|].
  destruct (String.eqb k' k); [done | exact IH].
Qed.

Lemma map_get_has (m : ReactionMap) k : map_has m k = true → is_Some (map_get m k).
Proof.
  unfold map_has. induction m as [|[k' v'] m IH]; simpl; [done|].
  destruct (String.eqb k' k); [by eexists | exact IH].
Qed.

Lemma tally_get m r k :
  map_get (tally m r) k
  = if decide (k = rs_emoji r)
    then let item := default {| emoji := rs_emoji r; count := 0; users := [] |}
                             (map_get m k) in
         Some {| emoji := emoji item; count := count item + 1;
                 users := users item ++ [fetched_user r] |}
    else map_get m k.
Proof.
  unfold tally. destruct (map_has m (rs_emoji r)) eqn:Hhas.
  - destruct (map_get_has _ _ Hhas) as [item Hitem]. rewrite Hitem.
    destruct (decide (k = rs_emoji r)) as [-> | Hne].
    + by rewrite map_get_set_eq, Hitem.
    + by rewrite map_get_set_ne.
  - rewrite map_get_set_eq. destruct (decide (k = rs_emoji r)) as [-> | Hne].
    + by rewrite map_get_set_eq, (map_has_get _ _ Hhas).
    + by rewrite !map_get_set_ne.
Qed.

Lemma fold_tally_NoDup l : NoDup (fold_left tally l []).*1.
Proof.
  induction l as [|r l IH] using rev_ind; [constructor|].
  rewrite fold_left_app. by apply tally_NoDup.
Qed.

Lemma fold_tally_get l k : map_get (fold_left tally l []) k = shown k l.
Proof.
  induction l as [|r l IH] using rev_ind; [done|].
  rewrite fold_left_app. cbn [fold_left]. rewrite tally_get, IH. unfold shown.
  rewrite filter_app, filter_cons, filter_nil.
  destruct (decide (k = rs_emoji r)) as [-> | Hne].
  - rewrite decide_True by done.
    destruct (filter (fun r0 => rs_emoji r0 = rs_emoji r) l) as [|x mine]; [done|].
    cbn [default from_option app]. unfold Datatypes.id. cbn [emoji count users].
    change (x :: mine ++ [r]) with ((x :: mine) ++ [r]).
    rewrite map_app, length_app. cbn [map length]. f_equal. f_equal. lia.
  - rewrite decide_False by congruence. by rewrite app_nil_r.
Qed.

Lemma shown_emoji e l item : shown e l = Some item → emoji item = e.
Proof.
  unfold shown. destruct (filter _ l); [done|]. by intros [= <-].
Qed.

Lemma fold_tally_values l :
  map emoji (fold_left tally l []).*2 = (fold_left tally l []).*1.
Proof.
  pose proof (fold_tally_NoDup l) as Hnd.
  assert (Hall : Forall (fun kv => emoji kv.2 = kv.1) (fold_left tally l [])).
  { apply Forall_forall. intros [k v] Hin. apply (map_get_elem _ _ _ Hnd) in Hin.
    rewrite fold_tally_get in Hin. by apply shown_emoji in Hin. }
  induction Hall as [|[k v] m Hkv _ IH]; [done|].
  rewrite !fmap_cons in *. cbn [map fst snd] in *. rewrite Hkv. f_equal. apply IH.
  by apply NoDup_cons in Hnd as [_ Hnd].
Qed.

Lemma grouped_distinct reactions : NoDup (map emoji (grouped reactions)).
Proof. unfold grouped. rewrite fold_tally_values. apply fold_tally_NoDup. Qed.

Lemma grouped_elem reactions item :
  item ∈ grouped reactions ↔ shown (emoji item) reactions = Some item.
Proof.
  unfold grouped. pose proof (fold_tally_NoDup reactions) as Hnd.
  rewrite list_elem_of_fmap. split.
  - intros ([k v] & -> & Hin). apply (map_get_elem _ _ _ Hnd) in Hin.
    rewrite fold_tally_get in Hin. cbn [snd].
    by rewrite (shown_emoji _ _ _ Hin).
  - intros Hs. exists (emoji item, item). split; [done|].
    apply (map_get_elem _ _ _ Hnd). by rewrite fold_tally_get.
Qed.

Lemma same_emoji_users e (l : list ReactionSummary) :
  NoDup (map (fun r => (rs_emoji r, rs_userId r)) l) →
  NoDup (map rs_userId (filter (fun r => rs_emoji r = e) l)).
Proof.
  induction l as [|r l IH]; intros Hnd; [constructor|].
  simpl in Hnd. apply NoDup_cons in Hnd as [Hnotin Hnd].
  rewrite filter_cons. destruct (decide (rs_emoji r = e)) as [He | He]; [|by apply IH].
  cbn [map]. apply NoDup_cons. split; [|by apply IH].
  intros Hin. apply Hnotin. apply list_elem_of_fmap in Hin as (r' & Hu & Hr').
  apply list_elem_of_filter in Hr' as [He' Hr'].
  apply list_elem_of_fmap. exists r'. split; [|done]. by rewrite Hu, He, He'.
Qed.

(** X27. When no user occurs twice with the same emoji among the fetched
    reactions, as the UNIQUE(message_id, user_id, emoji) constraint of the
    store has it, the state that the fetch sets is tidy. *)
Theorem fetched_state_tidy reactions :
  NoDup (map (fun r => (rs_emoji r, rs_userId r)) reactions) → tidy (grouped reactions).
Proof.
  intros Hnd. split; [apply grouped_distinct|]. apply Forall_forall. intros item Hin.
  apply grouped_elem in Hin. unfold shown in Hin.
  pose proof (same_emoji_users (emoji item) reactions Hnd) as Hus.
  destruct (filter (fun r => rs_emoji r = emoji item) reactions) as [|x mine] eqn:Hf;
    [done|].
  injection Hin as <-. unfold sound. cbn [count users].
  split_and!; [cbn [length]; by rewrite length_map | lia |].
  change (NoDup (map ru_id (map fetched_user (x :: mine)))). by rewrite map_map.
Qed.

(** X26. What the component shows after a fetch: one item for every emoji that
    occurs among the fetched reactions and none for any other, and the item
    of an emoji counts the fetched reactions with that emoji and lists
    their users in the order of the fetch. *)
Theorem grouped_counts reactions :
  NoDup (map emoji (grouped reactions))
  ∧ ∀ item, item ∈ grouped reactions ↔ shown (emoji item) reactions = Some item.
Proof.
  split; [apply grouped_distinct|]. intros item. apply grouped_elem.
Qed.

(** *** Toggling a reaction *)

Lemma find_others e (l1 l : list ReactionItem) :
  Forall (fun x => emoji x ≠ e) l1 →
  find (fun r => String.eqb (emoji r) e) (l1 ++ l)
  = find (fun r => String.eqb (emoji r) e) l.
Proof.
  induction 1 as [|x l1 Hx _ IH]; [done|]. cbn [app find].
  by destruct (String.eqb_spec (emoji x) e).
Qed.













(** *** The fetch, from the store to the badges *)

Lemma find_item e (l : list ReactionItem) item :
  NoDup (map emoji l) → item ∈ l → emoji item = e →
  find (fun r => String.eqb (emoji r) e) l = Some item.
Proof.
  intros Hnd Hin He. apply list_elem_of_split in Hin as (l1 & l2 & ->).
  rewrite map_app in Hnd. cbn [map] in Hnd.
  apply NoDup_app in Hnd as (_ & Hd & _).
  assert (H1 : Forall (fun x => emoji x ≠ e) l1).
  { apply Forall_forall. intros x Hx Heq. apply (Hd (emoji x)).
    - apply list_elem_of_fmap. eauto.
    - rewrite Heq, <- He. left. }
  rewrite find_others by done. cbn [find]. by rewrite He, String.eqb_refl.
Qed.

Lemma displayed_grouped e reactions :
  displayed e (grouped reactions)
  = Z.of_nat (length (filter (fun r => rs_emoji r = e) reactions)).
Proof.
  pose proof (grouped_distinct reactions) as Hnd. unfold displayed.
  destruct (shown e reactions) as [item|] eqn:Hs.
  - pose proof (shown_emoji _ _ _ Hs) as He.
    assert (Hin : item ∈ grouped reactions) by (apply grouped_elem; by rewrite He).
    rewrite (find_item e _ item Hnd Hin He). unfold shown in Hs.
    destruct (filter _ reactions); [done|]. by injection Hs as <-.
  - destruct (find _ (grouped reactions)) as [item|] eqn:Hfind.
    + apply find_some in Hfind as [Hin He]. apply String.eqb_eq in He.
      apply list_elem_of_In, grouped_elem in Hin. rewrite He in Hin. congruence.
    + unfold shown in Hs. by destruct (filter _ reactions).
Qed.

Lemma filter_emoji_length e (l : list ReactionSummary) (rows : list (string * Z)) :
  map (fun s => (rs_emoji s, rs_userId s)) l = rows →
  length (filter (fun r => rs_emoji r = e) l)
  = length (filter (fun p => p.1 = e) rows).
Proof.
  intros <-. induction l as [|r l IH]; [done|].
  cbn [map]. rewrite !filter_cons. cbn [fst].
  destruct (decide (rs_emoji r = e)); cbn [length]; by rewrite IH.
Qed.

(** X29. From the store to the badges: for a participant of the message's
    conversation, with an intact store and the three requests served, the
    number that the component shows for an emoji after [fetchReactions] is
    the number of reaction rows of the message with that emoji (no badge
    when there is none), whatever the state was before. *)
Theorem fetchReactions_counts m u c e state w :
  Notions.store_ok (db w) = true →
  Notions.conversation_of m (db w) = Some c →
  Notions.is_participant c u (db w) = true →
  lost 0 w = false → lost 1 w = false → lost 2 w = false →
  displayed e (fst (fetchReactions m u state w))
  = Z.of_nat (length (Notions.rows_for m e (db w))).
Proof.
  intros Hok Hc Hp H0 H1 H2. unfold fetchReactions, bind.
  pose proof (ConversationQueryFacts.getMessageReactions_served m u c w
                (ConversationFacts.store_ok_participants _ Hok) Hc Hp H0 H1 H2) as Hres.
  pose proof (ConversationQueryFacts.summaries_pairs m (db w) Hok) as Hrows.
  destruct (getMessageReactions m u w) as [[reactions err] w1].
  cbn [fst] in Hres. injection Hres as -> ->. cbn [truthy ret fst].
  rewrite displayed_grouped. f_equal.
  erewrite filter_emoji_length by exact Hrows. unfold Notions.rows_for.
  cbn [select_reactions data ok default from_option]. unfold Datatypes.id.
  induction (message_reactions (db w)) as [|r rows IH]; [done|].
  rewrite !filter_cons.
  destruct (decide (r_message_id r = m)) as [Hm | Hm].
  - cbn [map]. rewrite filter_cons. cbn [fst].
    destruct (decide (r_emoji r = e)) as [He | He].
    + rewrite decide_True by done. cbn [length]. by rewrite IH.
    + rewrite decide_False by tauto. exact IH.
  - rewrite decide_False by tauto. exact IH.
Qed.

(** *** The scenario, run *)

Import Scenario Walkthrough.

Lemma fetched_state_tidy_witness :
  NoDup (map (fun r => (rs_emoji r, rs_userId r)) fetched) ∧ tidy (grouped fetched).
Proof.
  assert (Hnd : NoDup (map (fun r => (rs_emoji r, rs_userId r)) fetched))
    by (apply (bool_decide_unpack _); vm_compute; exact I).
  split; [exact Hnd | exact (fetched_state_tidy fetched Hnd)].
Defined.

(** Two badges after the fetch: two thumbs, of bob and carol, and one
    heart. *)
Example grouped_fetched :
  map (fun r => (emoji r, count r, map ru_id (users r))) (grouped fetched)
  = [(thumbs_up, 2, [2; 3]); ("heart", 1, [1])].
Proof. vm_compute. reflexivity. Qed.



Lemma fetchReactions_counts_witness :
  Notions.store_ok (db (world store)) = true
  ∧ Notions.conversation_of 1 (db (world store)) = Some 1
  ∧ Notions.is_participant 1 1 (db (world store)) = true
  ∧ displayed thumbs_up (fst (fetchReactions 1 1 [] (world store))) = 1.
Proof.
  do 3 (split; [vm_compute; reflexivity|]).
  rewrite (fetchReactions_counts 1 1 1 thumbs_up [] (world store));
    vm_compute; reflexivity.
Defined.

End MessageReactionsFacts.
